(** * OMAP mailbox driver: a shallow embedding of arch/arm/plat-omap/mailbox.c

    The driver is modelled by explicit state passing.  Every call that
    leaves the file (a hardware callback, a kernel service, a lock) appends
    an event to a trace, so that "is invoked", "is not acknowledged" or
    "while the lock is held" become statements about that trace. *)

From stdpp Require Import base numbers list strings.

Local Open Scope Z_scope.

(** ** Constants and small types *)

(** Modelled from the spec: <plat/mailbox.h>, which declares [mbox_msg_t], is
    not part of this file; messages are "fixed-size", "one machine word each",
    a [u32] on the 32-bit cores of the driver, four bytes of a queue. *)
Definition mbox_msg_t := Z.
Definition sizeof_msg : Z := 4.

Definition EINVAL : Z := 22.
Definition ENOENT : Z := 2.
Definition ENOMEM : Z := 12.
Definition ENODEV : Z := 19.

Definition SET_MPU_CORE_CONSTRAINT : Z := 10.
(** [PM_QOS_DEFAULT_VALUE] *)
Definition CLEAR_MPU_CORE_CONSTRAINT : Z := -1.

Inductive omap_mbox_irq_t := IRQ_TX | IRQ_RX.
Inductive omap_mbox_type_t := OMAP_MBOX_TYPE1 | OMAP_MBOX_TYPE2.

Definition is_type2 (t : omap_mbox_type_t) : bool :=
  match t with OMAP_MBOX_TYPE2 => true | OMAP_MBOX_TYPE1 => false end.
Definition is_type1 (t : omap_mbox_type_t) : bool :=
  match t with OMAP_MBOX_TYPE1 => true | OMAP_MBOX_TYPE2 => false end.

(** [int] arithmetic: the two counters of the file are C [int]s. *)
Definition int_wrap (z : Z) : Z := (z + 2 ^ 31) mod 2 ^ 32 - 2 ^ 31.

(** ** Messages as bytes (little endian, as on the ARM cores the driver runs on) *)

Definition msg_bytes (msg : mbox_msg_t) : list Z :=
  [ Z.land msg 255;
    Z.land (Z.shiftr msg 8) 255;
    Z.land (Z.shiftr msg 16) 255;
    Z.land (Z.shiftr msg 24) 255 ].

Definition bytes_msg (bs : list Z) : mbox_msg_t :=
  match bs with
  | [b0; b1; b2; b3] =>
      Z.lor b0 (Z.lor (Z.shiftl b1 8) (Z.lor (Z.shiftl b2 16) (Z.shiftl b3 24)))
  | _ => 0
  end.

(** [kfifo_out] into the local [msg]: the bytes copied overwrite the front of
    the variable, the rest keeps what was there. *)
Definition overwrite_msg (old : mbox_msg_t) (bs : list Z) : mbox_msg_t :=
  bytes_msg (bs ++ drop (length bs) (msg_bytes old)).

(** The byte image of a whole queue of messages. *)
Definition msgs_bytes (msgs : list mbox_msg_t) : list Z :=
  concat (map msg_bytes msgs).

Definition is_u32 (z : Z) : Prop := 0 <= z < 2 ^ 32.

(** ** The software queue

    Modelled from the spec: the kfifo of <linux/kfifo.h> is not part of this
    file.  It is "a bounded byte buffer", "capacity fixed at creation", whose
    state is "the current occupied byte count"; putting copies as many bytes
    as fit, getting copies as many as are there. *)
Record kfifo := { kfifo_size : Z; kfifo_buf : list Z }.

Definition kfifo_len (f : kfifo) : Z := Z.of_nat (length (kfifo_buf f)).
Definition kfifo_avail (f : kfifo) : Z := kfifo_size f - kfifo_len f.
Definition kfifo_is_empty (f : kfifo) : bool := kfifo_len f =? 0.

Definition kfifo_in (f : kfifo) (buf : list Z) (n : Z) : kfifo * Z :=
  let l := Z.min n (kfifo_avail f) in
  ({| kfifo_size := kfifo_size f;
      kfifo_buf := kfifo_buf f ++ take (Z.to_nat l) buf |}, Z.max l 0).

Definition kfifo_out (f : kfifo) (n : Z) : kfifo * list Z :=
  let l := Z.to_nat (Z.min n (kfifo_len f)) in
  ({| kfifo_size := kfifo_size f; kfifo_buf := drop l (kfifo_buf f) |},
   take l (kfifo_buf f)).

(** Modelled from the spec: [struct omap_mbox_queue] is declared in
    <plat/mailbox.h>; a software queue has its buffer and the "[full] flag
    (receive side only)".  The lock, the work item and the tasklet appear in
    the trace only. *)
Record omap_mbox_queue := { fifo : kfifo; full : bool }.

Definition set_fifo (mq : omap_mbox_queue) (f : kfifo) : omap_mbox_queue :=
  {| fifo := f; full := full mq |}.
Definition set_full (mq : omap_mbox_queue) (b : bool) : omap_mbox_queue :=
  {| fifo := fifo mq; full := b |}.

(** A queue pointer of a channel: never assigned, pointing to a live queue,
    or still pointing to a queue that was freed. *)
Inductive qptr := QNull | QLive (mq : omap_mbox_queue) | QFreed.

Inductive queue_id := TXQ | RXQ.

(** ** Events *)

Inductive event :=
  (* process-wide services *)
  | EvMutexLock | EvMutexUnlock
  | EvPmGet | EvPmPut
  | EvPmQos (v : Z)
  (* hardware callbacks of a channel *)
  | EvStartup (ch : string) (ret : Z)
  | EvShutdown (ch : string)
  | EvSaveCtx (ch : string)
  | EvRestoreCtx (ch : string)
  | EvDevErr (ch : string)
  | EvFifoFull (b : bool)
  | EvFifoEmpty (b : bool)
  | EvFifoRead (msg : mbox_msg_t)
  | EvFifoWrite (msg : mbox_msg_t)
  | EvEnableIrq (irq : omap_mbox_irq_t)
  | EvDisableIrq (irq : omap_mbox_irq_t)
  | EvAckIrq (irq : omap_mbox_irq_t)
  | EvUdelay
  (* software queues *)
  | EvLock (q : queue_id) | EvUnlock (q : queue_id)
  | EvKfifoIn (q : queue_id) (len : Z)
  | EvKfifoOut (q : queue_id) (len : Z)
  | EvWarn
  | EvQueueAlloc (q : queue_id) | EvQueueFree (q : queue_id)
  (* deferred work, interrupt line, observers *)
  | EvTaskletSchedule | EvTaskletKill
  | EvScheduleWork | EvFlushWork
  | EvRequestIrq (ch : string) (ret : Z) | EvFreeIrq (ch : string)
  | EvNotify (nb : nat) (len : Z) (msg : mbox_msg_t)
  | EvNotifierRegister (ch : string) (nb : nat)
  | EvNotifierUnregister (ch : string) (nb : nat)
  (* device model *)
  | EvDeviceCreate (ch : string) (ret : Z)
  | EvDeviceUnregister (ch : string)
  | EvPmRuntimeEnable | EvPmRuntimeDisable.

Section Driver.

(** The state of the mailbox hardware behind a physical link, and what
    becomes of it while the CPU spins in [udelay(1)]. *)
Context {HW : Type}.
Variable udelay : HW -> HW.

(** Modelled from the spec: [struct omap_mbox_ops] is declared in
    <plat/mailbox.h>; it is the "hardware-operations capability set" of the
    spec: FIFO read, write, empty and full, the interrupt primitives, startup
    and shutdown, context save and restore, and the variant tag.  The
    callbacks act on the hardware; the ones the driver tests against NULL
    are optional. *)
Record omap_mbox_ops := {
  type : omap_mbox_type_t;
  startup : option (HW -> Z * HW);
  shutdown : option (HW -> HW);
  fifo_read : HW -> mbox_msg_t * HW;
  fifo_write : mbox_msg_t -> HW -> HW;
  fifo_empty : HW -> bool;
  fifo_full : HW -> bool;
  enable_irq : omap_mbox_irq_t -> HW -> HW;
  disable_irq : omap_mbox_irq_t -> HW -> HW;
  ack_irq : option (omap_mbox_irq_t -> HW -> HW);
  is_irq : omap_mbox_irq_t -> HW -> bool;
  save_ctx : option (HW -> HW);
  restore_ctx : option (HW -> HW)
}.

(** Modelled from the spec: [struct omap_mbox] is declared in
    <plat/mailbox.h>; a channel has its "unique name", its hardware
    operations, [use_count], its two queues and its observers, here first
    registered first. *)
Record omap_mbox := {
  name : string;
  txq : qptr;
  rxq : qptr;
  ops : omap_mbox_ops;
  use_count : Z;
  notifier : list nat
}.

Definition set_txq (mbox : omap_mbox) (p : qptr) : omap_mbox :=
  {| name := name mbox; txq := p; rxq := rxq mbox; ops := ops mbox;
     use_count := use_count mbox; notifier := notifier mbox |}.
Definition set_rxq (mbox : omap_mbox) (p : qptr) : omap_mbox :=
  {| name := name mbox; txq := txq mbox; rxq := p; ops := ops mbox;
     use_count := use_count mbox; notifier := notifier mbox |}.
Definition set_use_count (mbox : omap_mbox) (n : Z) : omap_mbox :=
  {| name := name mbox; txq := txq mbox; rxq := rxq mbox; ops := ops mbox;
     use_count := n; notifier := notifier mbox |}.
Definition set_notifier (mbox : omap_mbox) (l : list nat) : omap_mbox :=
  {| name := name mbox; txq := txq mbox; rxq := rxq mbox; ops := ops mbox;
     use_count := use_count mbox; notifier := l |}.

(** What the driver acts on besides its own structures. *)
Record machine := { hw : HW; trace : list event }.

Definition emit (e : event) (m : machine) : machine :=
  {| hw := hw m; trace := trace m ++ [e] |}.
Definition on_hw (f : HW -> HW) (m : machine) : machine :=
  {| hw := f (hw m); trace := trace m |}.

(** ** Mailbox FIFO and IRQ handle functions *)

Definition mbox_fifo_read (mbox : omap_mbox) (m : machine) : mbox_msg_t * machine :=
  let '(msg, h) := fifo_read (ops mbox) (hw m) in
  (msg, emit (EvFifoRead msg) {| hw := h; trace := trace m |}).

Definition mbox_fifo_write (mbox : omap_mbox) (msg : mbox_msg_t) (m : machine) : machine :=
  emit (EvFifoWrite msg) (on_hw (fifo_write (ops mbox) msg) m).

Definition mbox_fifo_empty (mbox : omap_mbox) (m : machine) : bool * machine :=
  let b := fifo_empty (ops mbox) (hw m) in (b, emit (EvFifoEmpty b) m).

Definition mbox_fifo_full (mbox : omap_mbox) (m : machine) : bool * machine :=
  let b := fifo_full (ops mbox) (hw m) in (b, emit (EvFifoFull b) m).

Definition ack_mbox_irq (mbox : omap_mbox) (irq : omap_mbox_irq_t) (m : machine) : machine :=
  match ack_irq (ops mbox) with
  | Some f => emit (EvAckIrq irq) (on_hw (f irq) m)
  | None => m
  end.

Definition is_mbox_irq (mbox : omap_mbox) (irq : omap_mbox_irq_t) (m : machine) : bool :=
  is_irq (ops mbox) irq (hw m).

(** Modelled from the spec: the two inline helpers of <plat/mailbox.h> are
    not part of this file; to "re-enable" or "disable" an interrupt is to call
    the capability of that name. *)
Definition omap_mbox_enable_irq (mbox : omap_mbox) (irq : omap_mbox_irq_t) (m : machine) : machine :=
  emit (EvEnableIrq irq) (on_hw (enable_irq (ops mbox) irq) m).
Definition omap_mbox_disable_irq (mbox : omap_mbox) (irq : omap_mbox_irq_t) (m : machine) : machine :=
  emit (EvDisableIrq irq) (on_hw (disable_irq (ops mbox) irq) m).

(** ** Message sender *)

(** The loop of [__mbox_poll_for_space]; [i] is the C counter, [fuel] bounds
    the recursion. *)
Fixpoint poll_loop (fuel : nat) (mbox : omap_mbox) (i : Z) (m : machine)
  : option (Z * machine) :=
  match fuel with
  | O => None
  | S fuel' =>
      let '(b, m) := mbox_fifo_full mbox m in
      if b then
        if is_type2 (type (ops mbox)) then Some (-1, m)
        else
          let i := int_wrap (i - 1) in
          if i =? 0 then Some (-1, m)
          else poll_loop fuel' mbox i (emit EvUdelay (on_hw udelay m))
      else Some (0, m)
  end.

Definition __mbox_poll_for_space (mbox : omap_mbox) (m : machine) : option (Z * machine) :=
  poll_loop 1000 mbox 1000 m.

(** The last part of [omap_mbox_msg_send]: the message goes into the
    software queue and the deferred transmit task is scheduled. *)
Definition send_enqueue (mbox : omap_mbox) (mq : omap_mbox_queue) (msg : mbox_msg_t)
    (m : machine) : Z * omap_mbox * machine :=
  let '(f, len) := kfifo_in (fifo mq) (msg_bytes msg) sizeof_msg in
  let m := emit (EvKfifoIn TXQ len) m in
  let m := if len =? sizeof_msg then m else emit EvWarn m in
  let m := emit EvTaskletSchedule m in
  (0, set_txq mbox (QLive (set_fifo mq f)), emit (EvUnlock TXQ) m).

(** [omap_mbox_msg_send]; [None] stands for the dereference of a queue
    pointer that is NULL or dangling. *)
Definition omap_mbox_msg_send (mbox : omap_mbox) (msg : mbox_msg_t) (m : machine)
  : option (Z * omap_mbox * machine) :=
  match txq mbox with
  | QLive mq =>
      let m := emit (EvLock TXQ) m in
      if kfifo_avail (fifo mq) <? sizeof_msg then
        Some (- ENOMEM, mbox, emit (EvUnlock TXQ) m)
      else if kfifo_is_empty (fifo mq) then
        match __mbox_poll_for_space mbox m with
        | Some (r, m) =>
            if r =? 0 then
              Some (0, mbox, emit (EvUnlock TXQ) (mbox_fifo_write mbox msg m))
            else Some (send_enqueue mbox mq msg m)
        | None => None
        end
      else Some (send_enqueue mbox mq msg m)
  | _ => None
  end.

(** [mbox_tx_tasklet].  [msg] is the local variable of the C function, whose
    first value is whatever the stack holds. *)
Fixpoint tx_loop (fuel : nat) (mbox : omap_mbox) (mq : omap_mbox_queue)
    (msg : mbox_msg_t) (m : machine) : option (omap_mbox_queue * machine) :=
  match fuel with
  | O => None
  | S fuel' =>
      if kfifo_len (fifo mq) =? 0 then Some (mq, m)
      else
        match __mbox_poll_for_space mbox m with
        | None => None
        | Some (r, m) =>
            if r =? 0 then
              let '(f, bs) := kfifo_out (fifo mq) sizeof_msg in
              let ret := Z.of_nat (length bs) in
              let m := emit (EvKfifoOut TXQ ret) m in
              let m := if ret =? sizeof_msg then m else emit EvWarn m in
              let msg := overwrite_msg msg bs in
              tx_loop fuel' mbox (set_fifo mq f) msg (mbox_fifo_write mbox msg m)
            else Some (mq, omap_mbox_enable_irq mbox IRQ_TX m)
        end
  end.

(** Every iteration that goes on takes at least one byte out of the queue,
    which bounds the loop by the bytes queued. *)
Definition mbox_tx_tasklet (mbox : omap_mbox) (msg0 : mbox_msg_t) (m : machine)
  : option (omap_mbox * machine) :=
  match txq mbox with
  | QLive mq =>
      match tx_loop (S (length (kfifo_buf (fifo mq)))) mbox mq msg0 m with
      | Some (mq, m) => Some (set_txq mbox (QLive mq), m)
      | None => None
      end
  | _ => None
  end.

(** ** Message receiver (workqueue) *)

(** Modelled from the spec: [blocking_notifier_call_chain] is not part of this
    file; a message is delivered "synchronously to every registered observer,
    in registration order". *)
Definition blocking_notifier_call_chain (nbs : list nat) (len : Z) (msg : mbox_msg_t)
    (m : machine) : machine :=
  foldl (fun m nb => emit (EvNotify nb len msg) m) m nbs.

(** The first half of an iteration of [mbox_rx_work]: get one message and
    hand it to the observers. *)
Definition rx_work_dispatch (mbox : omap_mbox) (mq : omap_mbox_queue)
    (msg : mbox_msg_t) (m : machine) : omap_mbox_queue * mbox_msg_t * machine :=
  let '(f, bs) := kfifo_out (fifo mq) sizeof_msg in
  let len := Z.of_nat (length bs) in
  let m := emit (EvKfifoOut RXQ len) m in
  let m := if len =? sizeof_msg then m else emit EvWarn m in
  let msg := overwrite_msg msg bs in
  (set_fifo mq f, msg, blocking_notifier_call_chain (notifier mbox) len msg m).

(** The second half: under the queue lock, release the backpressure. *)
Definition rx_work_release (mbox : omap_mbox) (mq : omap_mbox_queue) (m : machine)
  : omap_mbox_queue * machine :=
  let m := emit (EvLock RXQ) m in
  let '(mq, m) :=
    if full mq then (set_full mq false, omap_mbox_enable_irq mbox IRQ_RX m)
    else (mq, m) in
  (mq, emit (EvUnlock RXQ) m).

Fixpoint rx_work_loop (fuel : nat) (mbox : omap_mbox) (mq : omap_mbox_queue)
    (msg : mbox_msg_t) (m : machine) : option (omap_mbox_queue * machine) :=
  match fuel with
  | O => None
  | S fuel' =>
      if sizeof_msg <=? kfifo_len (fifo mq) then
        let '(mq, msg, m) := rx_work_dispatch mbox mq msg m in
        let '(mq, m) := rx_work_release mbox mq m in
        rx_work_loop fuel' mbox mq msg m
      else Some (mq, m)
  end.

(** [mbox_rx_work]; the loop is bounded as in the transmit task. *)
Definition mbox_rx_work (mbox : omap_mbox) (msg0 : mbox_msg_t) (m : machine)
  : option (omap_mbox * machine) :=
  match rxq mbox with
  | QLive mq =>
      match rx_work_loop (S (length (kfifo_buf (fifo mq)))) mbox mq msg0 m with
      | Some (mq, m) => Some (set_rxq mbox (QLive mq), m)
      | None => None
      end
  | _ => None
  end.

(** ** Mailbox interrupt handler *)

Definition __mbox_tx_interrupt (mbox : omap_mbox) (m : machine) : option machine :=
  let m := omap_mbox_disable_irq mbox IRQ_TX m in
  let m := ack_mbox_irq mbox IRQ_TX m in
  match txq mbox with
  | QLive _ => Some (emit EvTaskletSchedule m)
  | _ => None
  end.

(** The loop of [__mbox_rx_interrupt]; the boolean tells whether it was left
    through [goto nomem]. *)
Fixpoint rx_irq_loop (fuel : nat) (mbox : omap_mbox) (mq : omap_mbox_queue)
    (m : machine) : option (omap_mbox_queue * machine * bool) :=
  match fuel with
  | O => None
  | S fuel' =>
      let '(e, m) := mbox_fifo_empty mbox m in
      if e then Some (mq, m, false)
      else if kfifo_avail (fifo mq) <? sizeof_msg then
        Some (set_full mq true, omap_mbox_disable_irq mbox IRQ_RX m, true)
      else
        let '(msg, m) := mbox_fifo_read mbox m in
        let '(f, len) := kfifo_in (fifo mq) (msg_bytes msg) sizeof_msg in
        let m := emit (EvKfifoIn RXQ len) m in
        let m := if len =? sizeof_msg then m else emit EvWarn m in
        if is_type1 (type (ops mbox)) then Some (set_fifo mq f, m, false)
        else rx_irq_loop fuel' mbox (set_fifo mq f) m
  end.

(** Every iteration that goes on has put four bytes into the queue, so the
    loop runs at most once more than the queue has free bytes. *)
Definition rx_irq_fuel (mq : omap_mbox_queue) : nat :=
  S (Z.to_nat (kfifo_avail (fifo mq))).

Definition __mbox_rx_interrupt (mbox : omap_mbox) (m : machine)
  : option (omap_mbox * machine) :=
  match rxq mbox with
  | QLive mq =>
      match rx_irq_loop (rx_irq_fuel mq) mbox mq m with
      | Some (mq, m, nomem) =>
          let m := if nomem then m else ack_mbox_irq mbox IRQ_RX m in
          Some (set_rxq mbox (QLive mq), emit EvScheduleWork m)
      | None => None
      end
  | _ => None
  end.

Definition IRQ_HANDLED : Z := 1.

Definition mbox_interrupt (mbox : omap_mbox) (m : machine)
  : option (Z * omap_mbox * machine) :=
  let after_tx :=
    if is_mbox_irq mbox IRQ_TX m then __mbox_tx_interrupt mbox m else Some m in
  match after_tx with
  | Some m =>
      if is_mbox_irq mbox IRQ_RX m then
        match __mbox_rx_interrupt mbox m with
        | Some (mbox, m) => Some (IRQ_HANDLED, mbox, m)
        | None => None
        end
      else Some (IRQ_HANDLED, mbox, m)
  | None => None
  end.

(** ** Queues and channel lifecycle *)

(** The state of the driver: the channel structures (a channel "pointer" is
    its position in [chans]), the registry pointer [mboxes] (NULL or a list of
    channel pointers), the activation counter, the hardware and the trace. *)
Record system := {
  chans : list omap_mbox;
  mboxes : option (list nat);
  mbox_configured : Z;
  mach : machine
}.

Definition set_mach (s : system) (m : machine) : system :=
  {| chans := chans s; mboxes := mboxes s;
     mbox_configured := mbox_configured s; mach := m |}.
Definition set_chan (s : system) (p : nat) (mbox : omap_mbox) : system :=
  {| chans := <[p := mbox]> (chans s); mboxes := mboxes s;
     mbox_configured := mbox_configured s; mach := mach s |}.
Definition set_mbox_configured (s : system) (n : Z) : system :=
  {| chans := chans s; mboxes := mboxes s; mbox_configured := n; mach := mach s |}.
Definition set_mboxes (s : system) (l : option (list nat)) : system :=
  {| chans := chans s; mboxes := l;
     mbox_configured := mbox_configured s; mach := mach s |}.

(** What the kernel answers during one open: whether each [kzalloc] of a
    queue succeeds, the capacity [kfifo_alloc] settles on ([None] when it
    fails), and the return value of [request_irq]. *)
Record open_env := {
  kzalloc_txq : bool;
  kfifo_alloc_txq : option Z;
  kzalloc_rxq : bool;
  kfifo_alloc_rxq : option Z;
  request_irq : Z
}.

Definition mbox_queue_alloc (q : queue_id) (kz : bool) (kf : option Z) (m : machine)
  : option omap_mbox_queue * machine :=
  if kz then
    let m := emit (EvQueueAlloc q) m in
    match kf with
    | Some size =>
        (Some {| fifo := {| kfifo_size := size; kfifo_buf := [] |}; full := false |}, m)
    | None => (None, emit (EvQueueFree q) m)
    end
  else (None, m).

Definition mbox_queue_free (q : queue_id) (p : qptr) (m : machine) : option machine :=
  match p with
  | QLive _ => Some (emit (EvQueueFree q) m)
  | _ => None
  end.

Definition omap_mbox_enable (mbox : omap_mbox) (m : machine) : machine := emit EvPmGet m.
Definition omap_mbox_disable (mbox : omap_mbox) (m : machine) : machine := emit EvPmPut m.

(** The labels at the end of [omap_mbox_startup], last one first. *)
Definition fail_startup (ret : Z) (p : nat) (mbox : omap_mbox) (s : system) (m : machine)
  : Z * system :=
  let m := omap_mbox_disable mbox m in
  (ret, set_mach (set_chan s p mbox) (emit EvMutexUnlock m)).

Definition fail_alloc_txq (ret : Z) (p : nat) (mbox : omap_mbox) (s : system) (m : machine)
  : Z * system :=
  let m := match shutdown (ops mbox) with
           | Some f => emit (EvShutdown (name mbox)) (on_hw f m)
           | None => m
           end in
  fail_startup ret p (set_use_count mbox (int_wrap (use_count mbox - 1))) s m.

Definition fail_alloc_rxq (ret : Z) (p : nat) (mbox : omap_mbox) (s : system) (m : machine)
  : option (Z * system) :=
  match mbox_queue_free TXQ (txq mbox) m with
  | Some m => Some (fail_alloc_txq ret p (set_txq mbox QFreed) s m)
  | None => None
  end.

Definition fail_request_irq (ret : Z) (p : nat) (mbox : omap_mbox) (s : system) (m : machine)
  : option (Z * system) :=
  match mbox_queue_free RXQ (rxq mbox) m with
  | Some m => fail_alloc_rxq ret p (set_rxq mbox QFreed) s m
  | None => None
  end.

(** The part of [omap_mbox_startup] after the activation gate. *)
Definition startup_channel (env : open_env) (p : nat) (mbox : omap_mbox) (s : system)
    (m : machine) : option (Z * system) :=
  let first := use_count mbox =? 0 in
  let mbox := set_use_count mbox (int_wrap (use_count mbox + 1)) in
  if first then
    match mbox_queue_alloc TXQ (kzalloc_txq env) (kfifo_alloc_txq env) m with
    | (None, m) => Some (fail_alloc_txq (- ENOMEM) p mbox s m)
    | (Some mq, m) =>
        let mbox := set_txq mbox (QLive mq) in
        match mbox_queue_alloc RXQ (kzalloc_rxq env) (kfifo_alloc_rxq env) m with
        | (None, m) => fail_alloc_rxq (- ENOMEM) p mbox s m
        | (Some mq, m) =>
            let mbox := set_rxq mbox (QLive mq) in
            let ret := request_irq env in
            let m := emit (EvRequestIrq (name mbox) ret) m in
            if ret =? 0 then
              let m := omap_mbox_enable_irq mbox IRQ_RX m in
              Some (0, set_mach (set_chan s p mbox) (emit EvMutexUnlock m))
            else fail_request_irq ret p mbox s m
        end
    end
  else Some (0, set_mach (set_chan s p mbox) (emit EvMutexUnlock m)).

(** [omap_mbox_startup]; [p] is the channel pointer. *)
Definition omap_mbox_startup (env : open_env) (p : nat) (s : system) : option (Z * system) :=
  match chans s !! p with
  | None => None
  | Some mbox =>
      let m := emit EvMutexLock (mach s) in
      let m := omap_mbox_enable mbox m in
      let first := mbox_configured s =? 0 in
      let s := set_mbox_configured s (int_wrap (mbox_configured s + 1)) in
      if first then
        match startup (ops mbox) with
        | Some f =>
            let '(ret, h) := f (hw m) in
            let m := emit (EvStartup (name mbox) ret) {| hw := h; trace := trace m |} in
            if ret =? 0 then startup_channel env p mbox s m
            else Some (fail_startup ret p mbox s m)
        | None => Some (fail_startup 0 p mbox s m)
        end
      else startup_channel env p mbox s m
  end.

(** [omap_mbox_fini] *)
Definition omap_mbox_fini (p : nat) (s : system) : option system :=
  match chans s !! p with
  | None => None
  | Some mbox =>
      let m := emit EvMutexLock (mach s) in
      match rxq mbox with
      | QLive _ =>
          let m := emit EvFlushWork m in
          let mbox := set_use_count mbox (int_wrap (use_count mbox - 1)) in
          let freed :=
            if use_count mbox =? 0 then
              let m := emit (EvFreeIrq (name mbox)) m in
              match txq mbox with
              | QLive _ =>
                  let m := emit EvTaskletKill m in
                  match mbox_queue_free TXQ (txq mbox) m with
                  | Some m =>
                      match mbox_queue_free RXQ (rxq mbox) m with
                      | Some m => Some (set_rxq (set_txq mbox QFreed) QFreed, m)
                      | None => None
                      end
                  | None => None
                  end
              | _ => None
              end
            else Some (mbox, m) in
          match freed with
          | Some (mbox, m) =>
              let '(s, m) :=
                match shutdown (ops mbox) with
                | Some f =>
                    let n := int_wrap (mbox_configured s - 1) in
                    (set_mbox_configured s n,
                     if n =? 0 then emit (EvShutdown (name mbox)) (on_hw f m) else m)
                | None => (s, m)
                end in
              let m := omap_mbox_disable mbox m in
              Some (set_mach (set_chan s p mbox) (emit EvMutexUnlock m))
          | None => None
          end
      | _ => None
      end
  end.

(** The lookup loop of [omap_mbox_get]: the first channel of the registry
    whose name compares equal. *)
Fixpoint find_mbox (cs : list omap_mbox) (l : list nat) (nm : string) : option (option nat) :=
  match l with
  | [] => Some None
  | p :: l =>
      match cs !! p with
      | Some _mbox => if String.eqb (name _mbox) nm then Some (Some p) else find_mbox cs l nm
      | None => None
      end
  end.

(** Modelled from the spec: the notifier chain is not part of this file;
    observers are "an ordered set of registered receive callbacks (append-only
    registration, explicit unregistration)". *)
Definition blocking_notifier_chain_register (p : nat) (nb : nat) (s : system) : system :=
  match chans s !! p with
  | Some mbox =>
      set_mach (set_chan s p (set_notifier mbox (notifier mbox ++ [nb])))
               (emit (EvNotifierRegister (name mbox) nb) (mach s))
  | None => s
  end.

Fixpoint remove_first (nb : nat) (l : list nat) : list nat :=
  match l with
  | [] => []
  | x :: l => if Nat.eqb x nb then l else x :: remove_first nb l
  end.

Definition blocking_notifier_chain_unregister (p : nat) (nb : nat) (s : system) : system :=
  match chans s !! p with
  | Some mbox =>
      set_mach (set_chan s p (set_notifier mbox (remove_first nb (notifier mbox))))
               (emit (EvNotifierUnregister (name mbox) nb) (mach s))
  | None => s
  end.

(** [omap_mbox_get] returns a channel pointer ([inl]) or [ERR_PTR(e)] ([inr e]). *)
Definition omap_mbox_get (nm : string) (nb : option nat) (env : open_env) (s : system)
  : option ((nat + Z) * system) :=
  match mboxes s with
  | None => Some (inr (- EINVAL), s)
  | Some l =>
      match find_mbox (chans s) l nm with
      | None => None
      | Some None => Some (inr (- ENOENT), s)
      | Some (Some p) =>
          match omap_mbox_startup env p s with
          | None => None
          | Some (ret, s) =>
              if ret =? 0 then
                Some (inl p,
                      match nb with
                      | Some nb => blocking_notifier_chain_register p nb s
                      | None => s
                      end)
              else Some (inr (- ENODEV), s)
          end
      end
  end.

Definition omap_mbox_put (p : nat) (nb : option nat) (s : system) : option system :=
  match omap_mbox_fini p s with
  | Some s =>
      Some match nb with
           | Some nb => blocking_notifier_chain_unregister p nb s
           | None => s
           end
  | None => None
  end.

(** [omap_mbox_unregister] *)
Fixpoint unregister_devices (cs : list omap_mbox) (l : list nat) (m : machine) : option machine :=
  match l with
  | [] => Some m
  | p :: l =>
      match cs !! p with
      | Some mbox => unregister_devices cs l (emit (EvDeviceUnregister (name mbox)) m)
      | None => None
      end
  end.

Definition omap_mbox_unregister (s : system) : option (Z * system) :=
  match mboxes s with
  | None => Some (- EINVAL, s)
  | Some l =>
      match unregister_devices (chans s) l (mach s) with
      | Some m => Some (0, set_mach (set_mboxes s None) (emit EvPmRuntimeDisable m))
      | None => None
      end
  end.

(** [omap_mbox_register]; [dev_err k] is the error of the [k]-th
    [device_create], 0 when it succeeds. *)
Fixpoint register_devices (dev_err : nat -> Z) (k : nat) (done todo : list nat) (s : system)
  : option (Z * system) :=
  match todo with
  | [] => Some (0, set_mach s (emit EvPmRuntimeEnable (mach s)))
  | p :: todo =>
      match chans s !! p with
      | Some mbox =>
          let m := emit (EvDeviceCreate (name mbox) (dev_err k)) (mach s) in
          if dev_err k =? 0 then
            register_devices dev_err (S k) (p :: done) todo
              (set_mach (set_chan s p (set_notifier mbox [])) m)
          else
            match unregister_devices (chans s) done m with
            | Some m => Some (dev_err k, set_mach s m)
            | None => None
            end
      | None => None
      end
  end.

Definition omap_mbox_register (registry : option (list nat)) (dev_err : nat -> Z)
    (s : system) : option (Z * system) :=
  let s := set_mboxes s registry in
  match registry with
  | None => Some (- EINVAL, s)
  | Some l => register_devices dev_err 0 [] l s
  end.

(** ** Runtime PM *)

Definition omap_mbox_save_ctx (mbox : omap_mbox) (m : machine) : Z * machine :=
  match save_ctx (ops mbox) with
  | None => (- EINVAL, emit (EvDevErr (name mbox)) m)
  | Some f => (0, emit (EvSaveCtx (name mbox)) (on_hw f m))
  end.

Definition omap_mbox_restore_ctx (mbox : omap_mbox) (m : machine) : Z * machine :=
  if use_count mbox =? 0 then (0, m)
  else
    match restore_ctx (ops mbox) with
    | None => (- EINVAL, emit (EvDevErr (name mbox)) m)
    | Some f => (0, emit (EvRestoreCtx (name mbox)) (on_hw f m))
    end.

(** Modelled from the spec: [device_for_each_child] belongs to the driver
    core, not to this file; the power-management collaborator "invokes" the
    hook "over" the channels of the device, here in the order of the child
    list, stopping at the first hook that returns an error. *)
Fixpoint device_for_each_child (children : list omap_mbox)
    (fn : omap_mbox -> machine -> Z * machine) (m : machine) : Z * machine :=
  match children with
  | [] => (0, m)
  | mbox :: children =>
      let '(ret, m) := fn mbox m in
      if ret =? 0 then device_for_each_child children fn m else (ret, m)
  end.

Definition mbox_runtime_resume (children : list omap_mbox) (m : machine) : Z * machine :=
  let m := emit (EvPmQos SET_MPU_CORE_CONSTRAINT) m in
  let '(ret, m) := device_for_each_child children omap_mbox_restore_ctx m in
  (ret, if ret =? 0 then m else emit (EvPmQos CLEAR_MPU_CORE_CONSTRAINT) m).

Definition mbox_runtime_suspend (children : list omap_mbox) (m : machine) : Z * machine :=
  let '(ret, m) := device_for_each_child children omap_mbox_save_ctx m in
  (ret, if ret =? 0 then emit (EvPmQos CLEAR_MPU_CORE_CONSTRAINT) m else m).

End Driver.

Arguments omap_mbox_ops : clear implicits.
Arguments omap_mbox : clear implicits.
Arguments machine : clear implicits.
Arguments system : clear implicits.
Arguments __mbox_poll_for_space : simpl never.

(** ** Reading traces *)

(** The events of the bounded poll for hardware space. *)
Definition is_poll_event (e : event) : bool :=
  match e with EvFifoFull _ | EvUdelay => true | _ => false end.

(** An enqueue into a software queue, or the scheduling of the deferred
    transmit task. *)
Definition is_enqueue_event (e : event) : bool :=
  match e with EvKfifoIn _ _ | EvTaskletSchedule => true | _ => false end.

Definition is_startup_event (e : event) : bool :=
  match e with EvStartup _ _ => true | _ => false end.
Definition is_shutdown_event (e : event) : bool :=
  match e with EvShutdown _ => true | _ => false end.

(** How often an event of some kind occurs in a trace. *)
Definition count_events (P : event -> bool) (tr : list event) : nat :=
  length (filter (fun e => P e = true) tr).

Definition is_fifo_write_event (e : event) : bool :=
  match e with EvFifoWrite _ => true | _ => false end.

(** A queue with other bytes in its fifo. *)
Definition with_buf (mq : omap_mbox_queue) (bs : list Z) : omap_mbox_queue :=
  set_fifo mq {| kfifo_size := kfifo_size (fifo mq); kfifo_buf := bs |}.

(** What one run of the deferred receive task leaves in the trace for the
    messages it finds queued: each message is taken out and handed to the
    observers in registration order; [fl] is the [full] flag, released after
    the first dispatch. *)
Fixpoint rx_work_events (nbs : list nat) (fl : bool) (msgs : list mbox_msg_t) : list event :=
  match msgs with
  | [] => []
  | msg :: msgs =>
      [EvKfifoOut RXQ sizeof_msg] ++ map (fun nb => EvNotify nb sizeof_msg msg) nbs ++
      [EvLock RXQ] ++ (if fl then [EvEnableIrq IRQ_RX] else []) ++ [EvUnlock RXQ] ++
      rx_work_events nbs false msgs
  end.

Definition is_nil {A} (l : list A) : bool :=
  match l with [] => true | _ => false end.

(** ** Locks in a trace *)

Definition is_lock_event (e : event) : bool :=
  match e with EvLock _ | EvUnlock _ => true | _ => false end.

(** The events that happen while a queue lock is held; [held] tells whether
    one is held at the start. *)
Fixpoint held_events (held : bool) (tr : list event) : list event :=
  match tr with
  | [] => []
  | EvLock _ :: tr => held_events true tr
  | EvUnlock _ :: tr => held_events false tr
  | e :: tr => if held then e :: held_events held tr else held_events held tr
  end.

Fixpoint lock_state (held : bool) (tr : list event) : bool :=
  match tr with
  | [] => held
  | EvLock _ :: tr => lock_state true tr
  | EvUnlock _ :: tr => lock_state false tr
  | _ :: tr => lock_state held tr
  end.

(** The accesses a queue lock is said never to be held across: the poll for
    hardware space, a write to the hardware FIFO, the dispatch to an observer. *)
Definition is_slow_event (e : event) : bool :=
  match e with
  | EvFifoFull _ | EvUdelay | EvFifoWrite _ | EvNotify _ _ _ => true
  | _ => false
  end.

Definition lock_discipline (tr : list event) : Prop :=
  Forall (fun e => is_slow_event e = false) (held_events false tr).

(** ** Context save and restore in a trace *)

Definition saved_channels (tr : list event) : list string :=
  omap (fun e => match e with EvSaveCtx ch => Some ch | _ => None end) tr.
Definition restored_channels (tr : list event) : list string :=
  omap (fun e => match e with EvRestoreCtx ch => Some ch | _ => None end) tr.

(** The longest prefix of a list whose elements all pass a test. *)
Fixpoint prefix_while {A} (ok : A -> bool) (l : list A) : list A :=
  match l with
  | [] => []
  | x :: l => if ok x then x :: prefix_while ok l else []
  end.

Definition is_open {HW} (mbox : omap_mbox HW) : bool := negb (use_count mbox =? 0).
Definition has_save_ctx {HW} (mbox : omap_mbox HW) : bool :=
  bool_decide (is_Some (save_ctx (ops mbox))).
Definition has_restore_ctx {HW} (mbox : omap_mbox HW) : bool :=
  bool_decide (is_Some (restore_ctx (ops mbox))).

(** The claim that suspend saves the context of exactly the channels in use. *)
Definition suspend_saves_channels_in_use {HW} (children : list (omap_mbox HW))
    (m : machine HW) : Prop :=
  saved_channels (drop (length (trace m)) (trace (mbox_runtime_suspend children m).2)) =
  map name (filter (fun mbox => 0 < use_count mbox) children).

(** ** Sequences of opens and closes *)

(** A run of opens, each on a channel pointer with the answers of the kernel
    for it; the run stops with [None] at an open that fails. *)
Fixpoint run_opens {HW} (opens : list (nat * open_env)) (s : system HW) : option (system HW) :=
  match opens with
  | [] => Some s
  | (p, env) :: opens =>
      match omap_mbox_startup env p s with
      | Some (ret, s) => if ret =? 0 then run_opens opens s else None
      | None => None
      end
  end.

Fixpoint run_closes {HW} (closes : list nat) (s : system HW) : option (system HW) :=
  match closes with
  | [] => Some s
  | p :: closes =>
      match omap_mbox_fini p s with
      | Some s => run_closes closes s
      | None => None
      end
  end.

(** The kernel grants every allocation and the interrupt line. *)
Definition env_ok (env : open_env) : bool :=
  kzalloc_txq env && bool_decide (is_Some (kfifo_alloc_txq env)) &&
  kzalloc_rxq env && bool_decide (is_Some (kfifo_alloc_rxq env)) &&
  (request_irq env =? 0).

(** The hardware of the link starts up without error and can be shut down. *)
Definition link_ok {HW} (mbox : omap_mbox HW) : Prop :=
  (exists f, startup (ops mbox) = Some f /\ forall h, (f h).1 = 0) /\
  is_Some (shutdown (ops mbox)).

Fixpoint occurrences (p : nat) (l : list nat) : nat :=
  match l with
  | [] => 0
  | x :: l => (if Nat.eqb x p then 1 else 0) + occurrences p l
  end.

(** The state of the driver while the opens [pend] are outstanding. *)
Definition chan_inv {HW} (pend : list nat) (p : nat) (mbox : omap_mbox HW) : Prop :=
  link_ok mbox /\
  use_count mbox = Z.of_nat (occurrences p pend) /\
  (use_count mbox <> 0 -> exists qt qr, txq mbox = QLive qt /\ rxq mbox = QLive qr).

Definition sys_inv {HW} (pend : list nat) (s : system HW) : Prop :=
  mbox_configured s = Z.of_nat (length pend) /\
  Forall (fun p => (p < length (chans s))%nat) pend /\
  forall p mbox, chans s !! p = Some mbox -> chan_inv pend p mbox.

(** ** A simulated link, for running the driver on concrete inputs

    The transmit FIFO has [sim_space] free slots and is never drained; the
    receive FIFO holds the messages of [sim_rx]. *)
Record sim_hw := {
  sim_space : Z;
  sim_tx : list mbox_msg_t;
  sim_rx : list mbox_msg_t;
  sim_saved : nat
}.

Definition sim_udelay (h : sim_hw) : sim_hw := h.

Definition sim_ops_with (t : omap_mbox_type_t) (st : option (sim_hw -> Z * sim_hw))
    (ctx : bool) : omap_mbox_ops sim_hw := {|
  type := t;
  startup := st;
  shutdown := Some (fun h => h);
  fifo_read := fun h =>
    match sim_rx h with
    | [] => (0, h)
    | msg :: rest =>
        (msg, {| sim_space := sim_space h; sim_tx := sim_tx h; sim_rx := rest;
                 sim_saved := sim_saved h |})
    end;
  fifo_write := fun msg h =>
    {| sim_space := sim_space h - 1; sim_tx := sim_tx h ++ [msg]; sim_rx := sim_rx h;
       sim_saved := sim_saved h |};
  fifo_empty := fun h => match sim_rx h with [] => true | _ => false end;
  fifo_full := fun h => sim_space h <=? 0;
  enable_irq := fun _ h => h;
  disable_irq := fun _ h => h;
  ack_irq := Some (fun _ h => h);
  is_irq := fun irq h =>
    match irq with
    | IRQ_RX => match sim_rx h with [] => false | _ => true end
    | IRQ_TX => 0 <? sim_space h
    end;
  save_ctx :=
    if ctx then
      Some (fun h =>
        {| sim_space := sim_space h; sim_tx := sim_tx h; sim_rx := sim_rx h;
           sim_saved := S (sim_saved h) |})
    else None;
  restore_ctx := if ctx then Some (fun h => h) else None
|}.

Definition sim_ops (t : omap_mbox_type_t) : omap_mbox_ops sim_hw :=
  sim_ops_with t (Some (fun h => (0, h))) true.

Definition sim_queue (size : Z) (msgs : list mbox_msg_t) : omap_mbox_queue :=
  {| fifo := {| kfifo_size := size; kfifo_buf := msgs_bytes msgs |}; full := false |}.

Definition sim_mbox (nm : string) (t : omap_mbox_type_t) (tx rx : qptr) (n : Z)
    (nbs : list nat) : omap_mbox sim_hw :=
  {| name := nm; txq := tx; rxq := rx; ops := sim_ops t; use_count := n; notifier := nbs |}.

Definition sim_machine (space : Z) (rx : list mbox_msg_t) : machine sim_hw :=
  {| hw := {| sim_space := space; sim_tx := []; sim_rx := rx; sim_saved := 0 |};
     trace := [] |}.

Definition sim_system (cs : list (omap_mbox sim_hw)) (reg : option (list nat)) (n : Z)
  : system sim_hw :=
  {| chans := cs; mboxes := reg; mbox_configured := n; mach := sim_machine 1 [] |}.

Definition sim_env : open_env :=
  {| kzalloc_txq := true; kfifo_alloc_txq := Some 16;
     kzalloc_rxq := true; kfifo_alloc_rxq := Some 16; request_irq := 0 |}.

(** A channel whose hardware operations have no startup callback. *)
Definition sim_mbox_nostartup : omap_mbox sim_hw :=
  {| name := "c0"; txq := QNull; rxq := QNull;
     ops := sim_ops_with OMAP_MBOX_TYPE2 None true; use_count := 0; notifier := [] |}.

(** Two closed channels on one link, and three opens with their closes. *)
Definition sim_link : system sim_hw :=
  sim_system [sim_mbox "c0" OMAP_MBOX_TYPE2 QNull QNull 0 [];
              sim_mbox "c1" OMAP_MBOX_TYPE2 QNull QNull 0 []]
             (Some [0%nat; 1%nat]) 0.
Definition sim_opens : list (nat * open_env) :=
  [(0%nat, sim_env); (1%nat, sim_env); (0%nat, sim_env)].
Definition sim_closes : list nat := [1%nat; 0%nat; 0%nat].

(** An open channel with the given queues. *)
Definition sim_chan (t : omap_mbox_type_t) (tx rx : omap_mbox_queue) (nbs : list nat)
  : omap_mbox sim_hw :=
  sim_mbox "c0" t (QLive tx) (QLive rx) 1 nbs.

(** Several sends in a row, with their return values. *)
Fixpoint send_all {HW} (udelay : HW -> HW) (mbox : omap_mbox HW) (msgs : list mbox_msg_t)
    (m : machine HW) : option (list Z * omap_mbox HW * machine HW) :=
  match msgs with
  | [] => Some ([], mbox, m)
  | msg :: msgs =>
      match omap_mbox_msg_send udelay mbox msg m with
      | Some (ret, mbox, m) =>
          match send_all udelay mbox msgs m with
          | Some (rets, mbox, m) => Some (ret :: rets, mbox, m)
          | None => None
          end
      | None => None
      end
  end.

(** ** Further readings of traces *)

Definition is_fifo_full_event (e : event) : bool :=
  match e with EvFifoFull _ => true | _ => false end.
Definition is_udelay_event (e : event) : bool :=
  match e with EvUdelay => true | _ => false end.
Definition is_warn_event (e : event) : bool :=
  match e with EvWarn => true | _ => false end.
Definition is_queue_alloc_event (e : event) : bool :=
  match e with EvQueueAlloc _ => true | _ => false end.
Definition is_queue_free_event (e : event) : bool :=
  match e with EvQueueFree _ => true | _ => false end.
Definition is_pm_get_event (e : event) : bool :=
  match e with EvPmGet => true | _ => false end.
Definition is_pm_put_event (e : event) : bool :=
  match e with EvPmPut => true | _ => false end.
Definition is_rx_mask_event (e : event) : bool :=
  match e with EvDisableIrq IRQ_RX => true | _ => false end.
Definition is_rx_unmask_event (e : event) : bool :=
  match e with EvEnableIrq IRQ_RX => true | _ => false end.

(** The messages written to, and read from, the hardware FIFO, in order. *)
Definition fifo_writes (tr : list event) : list mbox_msg_t :=
  omap (fun e => match e with EvFifoWrite msg => Some msg | _ => None end) tr.
Definition fifo_reads (tr : list event) : list mbox_msg_t :=
  omap (fun e => match e with EvFifoRead msg => Some msg | _ => None end) tr.

(** The deliveries to observers, in order: which observer got which message. *)
Definition dispatched (tr : list event) : list (nat * mbox_msg_t) :=
  omap (fun e => match e with EvNotify nb _ msg => Some (nb, msg) | _ => None end) tr.

(** Each message, in order, to each observer, in order. *)
Fixpoint deliveries (nbs : list nat) (msgs : list mbox_msg_t) : list (nat * mbox_msg_t) :=
  match msgs with
  | [] => []
  | msg :: msgs => map (fun nb => (nb, msg)) nbs ++ deliveries nbs msgs
  end.

(** ** The trace as a log of the hardware

    What one event of the data path does to the hardware behind the link:
    a status reading leaves it as it is and must report what the hardware
    answers in that state, a read must report the message the hardware hands
    out, and a write, a delay and the interrupt primitives act on it.  [None]
    is a trace that the hardware cannot have produced. *)
Definition replay_step {HW} (udelay : HW -> HW) (o : omap_mbox_ops HW) (e : event) (h : HW)
  : option HW :=
  match e with
  | EvFifoFull b => if Bool.eqb (fifo_full o h) b then Some h else None
  | EvFifoEmpty b => if Bool.eqb (fifo_empty o h) b then Some h else None
  | EvFifoRead msg => if (fifo_read o h).1 =? msg then Some (fifo_read o h).2 else None
  | EvFifoWrite msg => Some (fifo_write o msg h)
  | EvUdelay => Some (udelay h)
  | EvEnableIrq irq => Some (enable_irq o irq h)
  | EvDisableIrq irq => Some (disable_irq o irq h)
  | EvAckIrq irq => match ack_irq o with Some f => Some (f irq h) | None => None end
  | _ => Some h
  end.

Fixpoint replay_hw {HW} (udelay : HW -> HW) (o : omap_mbox_ops HW) (evs : list event) (h : HW)
  : option HW :=
  match evs with
  | [] => Some h
  | e :: evs =>
      match replay_step udelay o e h with
      | Some h => replay_hw udelay o evs h
      | None => None
      end
  end.

(** A poll that found room in the hardware FIFO; the unmasking of the
    TX-ready interrupt; what the deferred transmit task may do at all. *)
Definition is_fifo_space_event (e : event) : bool :=
  match e with EvFifoFull false => true | _ => false end.
Definition is_tx_unmask_event (e : event) : bool :=
  match e with EvEnableIrq IRQ_TX => true | _ => false end.
Definition is_tx_task_event (e : event) : bool :=
  match e with
  | EvFifoFull _ | EvUdelay | EvKfifoOut TXQ _ | EvFifoWrite _ | EvEnableIrq IRQ_TX => true
  | _ => false
  end.


(** ** Queues and use counts *)

Definition is_live (q : qptr) : bool :=
  match q with QLive _ => true | _ => false end.

(** A channel whose queues are allocated exactly when it is in use. *)
Definition chan_wf {HW} (mbox : omap_mbox HW) : Prop :=
  0 <= use_count mbox /\
  is_live (txq mbox) = negb (use_count mbox =? 0) /\
  is_live (rxq mbox) = negb (use_count mbox =? 0).

(** ** Opens and closes in any order *)

Inductive call := Open (p : nat) (env : open_env) | Close (p : nat).

(** A run of calls; it stops with [None] at an open that fails. *)
Fixpoint run_calls {HW} (calls : list call) (s : system HW) : option (system HW) :=
  match calls with
  | [] => Some s
  | Open p env :: calls =>
      match omap_mbox_startup env p s with
      | Some (ret, s) => if ret =? 0 then run_calls calls s else None
      | None => None
      end
  | Close p :: calls =>
      match omap_mbox_fini p s with
      | Some s => run_calls calls s
      | None => None
      end
  end.

(** With the opens [pend] outstanding on [n] channels: every open is on a
    channel and granted by the kernel, every close matches an outstanding
    open. *)
Fixpoint matched (n : nat) (pend : list nat) (calls : list call) : bool :=
  match calls with
  | [] => true
  | Open p env :: calls => (p <? n)%nat && env_ok env && matched n (p :: pend) calls
  | Close p :: calls => bool_decide (p ∈ pend) && matched n (remove_first p pend) calls
  end.

(** The opens outstanding after the calls. *)
Fixpoint still_open (pend : list nat) (calls : list call) : list nat :=
  match calls with
  | [] => pend
  | Open p _ :: calls => still_open (p :: pend) calls
  | Close p :: calls => still_open (remove_first p pend) calls
  end.

(** The opens that find no open outstanding, and the closes that leave none. *)
Fixpoint activations (pend : list nat) (calls : list call) : nat :=
  match calls with
  | [] => 0
  | Open p _ :: calls => (if is_nil pend then 1 else 0) + activations (p :: pend) calls
  | Close p :: calls => activations (remove_first p pend) calls
  end.

Fixpoint deactivations (pend : list nat) (calls : list call) : nat :=
  match calls with
  | [] => 0
  | Open p _ :: calls => deactivations (p :: pend) calls
  | Close p :: calls =>
      (if is_nil (remove_first p pend) then 1 else 0) +
      deactivations (remove_first p pend) calls
  end.

(** ** Further inputs on the simulated link *)

(** The simulated link behind a 32-bit message register: what is read from
    the receive FIFO is a 32-bit value. *)
Definition sim_ops_u32 (t : omap_mbox_type_t) : omap_mbox_ops sim_hw :=
  let o := sim_ops t in
  {| type := type o; startup := startup o; shutdown := shutdown o;
     fifo_read := fun h => ((fifo_read o h).1 mod 2 ^ 32, (fifo_read o h).2);
     fifo_write := fifo_write o; fifo_empty := fifo_empty o; fifo_full := fifo_full o;
     enable_irq := enable_irq o; disable_irq := disable_irq o; ack_irq := ack_irq o;
     is_irq := is_irq o; save_ctx := save_ctx o; restore_ctx := restore_ctx o |}.

(** An open channel with one message waiting in each queue and one observer,
    and the same channel behind the 32-bit register. *)
Definition sim_busy : omap_mbox sim_hw :=
  sim_chan OMAP_MBOX_TYPE2 (sim_queue 16 [9]) (sim_queue 8 [1]) [7%nat].
Definition sim_busy_u32 : omap_mbox sim_hw :=
  {| name := "c0"; txq := QLive (sim_queue 16 [9]); rxq := QLive (sim_queue 8 [1]);
     ops := sim_ops_u32 OMAP_MBOX_TYPE2; use_count := 1; notifier := [7%nat] |}.

(** A link with that channel open and a second channel closed. *)
Definition sim_open_link : system sim_hw :=
  sim_system [sim_busy; sim_mbox "c1" OMAP_MBOX_TYPE2 QNull QNull 0 []]
             (Some [0%nat; 1%nat]) 1.

(** A kernel that cannot allocate the receive queue. *)
Definition sim_env_nomem : open_env :=
  {| kzalloc_txq := true; kfifo_alloc_txq := Some 16;
     kzalloc_rxq := false; kfifo_alloc_rxq := None; request_irq := 0 |}.

(** Opens and closes of the two channels, interleaved. *)
Definition sim_calls : list call :=
  [Open 0 sim_env; Open 1 sim_env; Close 0; Open 0 sim_env; Close 1; Close 0].

(** A device model that fails to create the second device. *)
Definition sim_dev_err (k : nat) : Z := if Nat.eqb k 1 then - ENOMEM else 0.

(** ** The registry and the device model in a trace *)

(** The names of the channels behind a list of channel pointers. *)
Definition chan_names {HW} (cs : list (omap_mbox HW)) (l : list nat) : list string :=
  omap (fun p => name <$> cs !! p) l.

(** The values requested from pm_qos, in order. *)
Definition qos_requests (tr : list event) : list Z :=
  omap (fun e => match e with EvPmQos v => Some v | _ => None end) tr.

(** ** Module initialisation

    Modelled from the spec: [ALIGN] and [max_t] are macros of
    <linux/kernel.h>, not of this file; the queue capacity is "rounded up to a
    multiple of the message size and to at least one message".  [ALIGN(x, a)]
    is [(x + (a - 1)) & ~(a - 1)] in the type of [x], here [unsigned int]. *)
Definition u32 (z : Z) : Z := z mod 2 ^ 32.
Definition ALIGN (x a : Z) : Z := Z.land (u32 (x + (a - 1))) (u32 (Z.lnot (a - 1))).
Definition max_t (a b : Z) : Z := if a <? b then b else a.

(** [omap_mbox_init] as a function of the answer of [class_register] and of
    the module parameter [mbox_kfifo_size]: its return value and the new value
    of the parameter. *)
Definition omap_mbox_init (class_register : Z) (mbox_kfifo_size : Z) : Z * Z :=
  if class_register =? 0 then
    let mbox_kfifo_size := ALIGN mbox_kfifo_size sizeof_msg in
    let mbox_kfifo_size := max_t mbox_kfifo_size sizeof_msg in
    (0, mbox_kfifo_size)
  else (class_register, mbox_kfifo_size).

(** * Properties *)

Section Properties.

Context {HW : Type}.
Variable udelay : HW -> HW.

Local Abbreviation omap_mbox := (omap_mbox HW).
Local Abbreviation machine := (machine HW).
Local Abbreviation system := (system HW).

(** Unfold the operations on the machine down to its two fields and
    right-associate the trace. *)
Ltac machine_simpl :=
  unfold omap_mbox_enable_irq, omap_mbox_disable_irq, mbox_fifo_write,
    omap_mbox_enable, omap_mbox_disable, emit, on_hw;
  cbn [hw trace]; rewrite <- ?app_assoc; cbn [app].

(** ** Arithmetic of the counters and of messages *)

Lemma int_wrap_small (z : Z) : - 2 ^ 31 <= z < 2 ^ 31 -> int_wrap z = z.
Proof.
  intros Hz. unfold int_wrap. rewrite Z.mod_small; lia.
Qed.

Lemma testbit_255 (k : Z) : 0 <= k -> Z.testbit 255 k = (k <? 8).
Proof.
  intros Hk. change 255 with (Z.ones 8). apply Z.testbit_ones_nonneg; lia.
Qed.

Lemma u32_high_bits (msg k : Z) : is_u32 msg -> 32 <= k -> Z.testbit msg k = false.
Proof.
  intros [Hlo Hhi] Hk.
  destruct (Z.eq_dec msg 0) as [->|Hnz]; [apply Z.bits_0|].
  apply Z.bits_above_log2; [lia|].
  assert (Z.log2 msg < 32) by (apply Z.log2_lt_pow2; lia). lia.
Qed.

(** A message read back from its four bytes is the message. *)
Lemma bytes_msg_msg_bytes (msg : mbox_msg_t) : is_u32 msg -> bytes_msg (msg_bytes msg) = msg.
Proof.
  intros Hmsg. cbn [bytes_msg msg_bytes].
  apply Z.bits_inj'. intros k Hk.
  rewrite !Z.lor_spec.
  rewrite !Z.shiftl_spec by lia.
  rewrite Z.land_spec, testbit_255 by lia.
  destruct (Z.lt_ge_cases k 8) as [H8|H8].
  { rewrite !(Z.testbit_neg_r _ (k - _)) by lia.
    replace (k <? 8) with true by (symmetry; apply Z.ltb_lt; lia).
    rewrite !orb_false_r, andb_true_r. reflexivity. }
  replace (k <? 8) with false by (symmetry; apply Z.ltb_ge; lia).
  rewrite andb_false_r, orb_false_l.
  rewrite (Z.land_spec _ 255 (k - 8)), Z.shiftr_spec, testbit_255 by lia.
  replace (k - 8 + 8) with k by lia.
  destruct (Z.lt_ge_cases k 16) as [H16|H16].
  { rewrite !(Z.testbit_neg_r _ (k - _)) by lia.
    replace (k - 8 <? 8) with true by (symmetry; apply Z.ltb_lt; lia).
    rewrite !orb_false_r, andb_true_r. reflexivity. }
  replace (k - 8 <? 8) with false by (symmetry; apply Z.ltb_ge; lia).
  rewrite andb_false_r, orb_false_l.
  rewrite (Z.land_spec _ 255 (k - 16)), Z.shiftr_spec, testbit_255 by lia.
  replace (k - 16 + 16) with k by lia.
  destruct (Z.lt_ge_cases k 24) as [H24|H24].
  { rewrite !(Z.testbit_neg_r _ (k - _)) by lia.
    replace (k - 16 <? 8) with true by (symmetry; apply Z.ltb_lt; lia).
    rewrite !orb_false_r, andb_true_r. reflexivity. }
  replace (k - 16 <? 8) with false by (symmetry; apply Z.ltb_ge; lia).
  rewrite andb_false_r, orb_false_l.
  rewrite (Z.land_spec _ 255 (k - 24)), Z.shiftr_spec, testbit_255 by lia.
  replace (k - 24 + 24) with k by lia.
  destruct (Z.lt_ge_cases k 32) as [H32|H32].
  { replace (k - 24 <? 8) with true by (symmetry; apply Z.ltb_lt; lia).
    rewrite andb_true_r. reflexivity. }
  replace (k - 24 <? 8) with false by (symmetry; apply Z.ltb_ge; lia).
  rewrite andb_false_r. symmetry. apply u32_high_bits; assumption.
Qed.

Lemma overwrite_msg_whole (old msg : mbox_msg_t) :
  is_u32 msg -> overwrite_msg old (msg_bytes msg) = msg.
Proof.
  intros Hmsg. unfold overwrite_msg.
  change (drop (length (msg_bytes msg)) (msg_bytes old)) with (@nil Z).
  rewrite app_nil_r. apply bytes_msg_msg_bytes, Hmsg.
Qed.

(** ** The software queue, one message at a time *)

Lemma kfifo_out_msg (f : kfifo) (msg : mbox_msg_t) (rest : list Z) :
  kfifo_buf f = msg_bytes msg ++ rest ->
  kfifo_out f sizeof_msg =
    ({| kfifo_size := kfifo_size f; kfifo_buf := rest |}, msg_bytes msg).
Proof.
  intros Hbuf. unfold kfifo_out, kfifo_len. rewrite Hbuf, length_app.
  change (length (msg_bytes msg)) with 4%nat. unfold sizeof_msg.
  rewrite Z.min_l by lia. reflexivity.
Qed.

Lemma kfifo_in_msg (f : kfifo) (msg : mbox_msg_t) :
  sizeof_msg <= kfifo_avail f ->
  kfifo_in f (msg_bytes msg) sizeof_msg =
    ({| kfifo_size := kfifo_size f; kfifo_buf := kfifo_buf f ++ msg_bytes msg |},
     sizeof_msg).
Proof.
  intros Havail. unfold kfifo_in. rewrite Z.min_l by lia.
  unfold sizeof_msg. reflexivity.
Qed.

(** ** Counting events *)

Lemma filter_excluded (Q P : event -> bool) (evs : list event) :
  Forall (fun e => Q e = true) evs ->
  (forall e, Q e = true -> P e = false) ->
  filter (fun e => P e = true) evs = [].
Proof.
  intros Hevs HP. induction Hevs as [|e evs He _ IH]; [reflexivity|].
  rewrite filter_cons. destruct (decide (P e = true)) as [Hd|Hd].
  - rewrite (HP e He) in Hd. discriminate.
  - exact IH.
Qed.

Lemma count_events_app (P : event -> bool) (a b : list event) :
  count_events P (a ++ b) = (count_events P a + count_events P b)%nat.
Proof.
  unfold count_events. rewrite filter_app, length_app. reflexivity.
Qed.

(** ** The bounded poll *)

Lemma poll_loop_total (fuel : nat) (mbox : omap_mbox) :
  forall (i : Z) (m : machine),
    i = Z.of_nat fuel -> (0 < fuel)%nat -> i < 2 ^ 31 ->
    exists r m' evs,
      poll_loop udelay fuel mbox i m = Some (r, m') /\
      (r = 0 \/ r = -1) /\
      trace m' = trace m ++ evs /\
      Forall (fun e => is_poll_event e = true) evs.
Proof.
  induction fuel as [|fuel IH]; intros i m Hi Hpos Hlt; [lia|].
  cbn [poll_loop mbox_fifo_full].
  destruct (fifo_full (ops mbox) (hw m)) eqn:Hfull.
  - destruct (is_type2 (type (ops mbox))).
    + eexists _, _, [EvFifoFull true]. repeat split; auto.
    + rewrite int_wrap_small by lia.
      destruct (i - 1 =? 0) eqn:Hz.
      * eexists _, _, [EvFifoFull true]. repeat split; auto.
      * apply Z.eqb_neq in Hz.
        destruct (IH (i - 1) (emit EvUdelay (on_hw udelay (emit (EvFifoFull true) m))))
          as (r & m' & evs & Hrun & Hr & Htr & Hevs); [lia | lia | lia |].
        exists r, m', (EvFifoFull true :: EvUdelay :: evs).
        repeat split; auto.
        rewrite Htr. cbn. rewrite <- !app_assoc. reflexivity.
  - eexists _, _, [EvFifoFull false]. repeat split; auto.
Qed.

Lemma poll_for_space_total (mbox : omap_mbox) (m : machine) :
  exists r m' evs,
    __mbox_poll_for_space udelay mbox m = Some (r, m') /\
    (r = 0 \/ r = -1) /\
    trace m' = trace m ++ evs /\
    Forall (fun e => is_poll_event e = true) evs.
Proof.
  unfold __mbox_poll_for_space. apply poll_loop_total; lia.
Qed.

(** ** Transmit admission *)

(** C3: on a channel with an allocated transmit queue, [omap_mbox_msg_send]
    returns [-ENOMEM] (QueueFull) exactly when the queue has room for less
    than one message; then nothing is enqueued and the hardware is not
    touched: channel and hardware are unchanged and only the lock is taken
    and released.  In every other case it returns 0 (Ok). *)
Theorem send_queue_full_iff (mbox : omap_mbox) (mq : omap_mbox_queue)
    (msg : mbox_msg_t) (m : machine) :
  txq mbox = QLive mq ->
  exists ret mbox' m',
    omap_mbox_msg_send udelay mbox msg m = Some (ret, mbox', m') /\
    (ret = - ENOMEM <-> kfifo_avail (fifo mq) < sizeof_msg) /\
    (kfifo_avail (fifo mq) < sizeof_msg ->
       mbox' = mbox /\ hw m' = hw m /\
       trace m' = trace m ++ [EvLock TXQ; EvUnlock TXQ]) /\
    (sizeof_msg <= kfifo_avail (fifo mq) -> ret = 0).
Proof.
  intros Htx. unfold omap_mbox_msg_send. rewrite Htx.
  destruct (kfifo_avail (fifo mq) <? sizeof_msg) eqn:Havail.
  - apply Z.ltb_lt in Havail.
    eexists _, _, _. split; [reflexivity|]. repeat split; auto.
    + cbn. rewrite <- app_assoc. reflexivity.
    + intros Hn. lia.
  - apply Z.ltb_ge in Havail.
    assert (Hne : - ENOMEM <> 0) by (unfold ENOMEM; lia).
    destruct (kfifo_is_empty (fifo mq)).
    + destruct (poll_for_space_total mbox (emit (EvLock TXQ) m))
        as (r & m1 & evs & Hpoll & _ & _ & _).
      rewrite Hpoll.
      destruct (r =? 0).
      * eexists _, _, _. split; [reflexivity|].
        split; [split; intros; [congruence | lia]|]. split; [intros; lia | auto].
      * unfold send_enqueue. destruct (kfifo_in _ _ _) as [f len].
        eexists _, _, _. split; [reflexivity|].
        split; [split; intros; [congruence | lia]|]. split; [intros; lia | auto].
    + unfold send_enqueue. destruct (kfifo_in _ _ _) as [f len].
      eexists _, _, _. split; [reflexivity|].
      split; [split; intros; [congruence | lia]|]. split; [intros; lia | auto].
Qed.

(** C4: a send on a channel whose transmit queue is empty (and, as every
    queue the driver creates, at least one message wide) and whose poll for
    hardware space succeeds writes the message to the hardware FIFO and
    returns 0; the software queue is left as it was, and the send performs no
    enqueue and schedules no deferred transmit task. *)
Theorem send_direct_write (mbox : omap_mbox) (mq : omap_mbox_queue)
    (msg : mbox_msg_t) (m m1 : machine) :
  txq mbox = QLive mq ->
  kfifo_is_empty (fifo mq) = true ->
  sizeof_msg <= kfifo_size (fifo mq) ->
  __mbox_poll_for_space udelay mbox (emit (EvLock TXQ) m) = Some (0, m1) ->
  exists m' evs,
    omap_mbox_msg_send udelay mbox msg m = Some (0, mbox, m') /\
    hw m' = fifo_write (ops mbox) msg (hw m1) /\
    trace m' = trace m ++ evs /\
    count_events is_enqueue_event evs = 0%nat /\
    count_events is_fifo_write_event evs = 1%nat /\
    In (EvFifoWrite msg) evs.
Proof.
  intros Htx Hempty Hsize Hpoll.
  unfold omap_mbox_msg_send. rewrite Htx.
  assert (Havail : (kfifo_avail (fifo mq) <? sizeof_msg) = false).
  { apply Z.ltb_ge. unfold kfifo_is_empty in Hempty. apply Z.eqb_eq in Hempty.
    unfold kfifo_avail. lia. }
  rewrite Havail, Hempty, Hpoll. cbn [Z.eqb].
  destruct (poll_for_space_total mbox (emit (EvLock TXQ) m))
    as (r & m1' & evs & Hpoll' & _ & Htr & Hevs).
  rewrite Hpoll in Hpoll'. injection Hpoll' as _ <-.
  exists (emit (EvUnlock TXQ) (mbox_fifo_write mbox msg m1)),
         (EvLock TXQ :: evs ++ [EvFifoWrite msg; EvUnlock TXQ]).
  split; [reflexivity|]. split; [reflexivity|].
  split.
  { cbn. rewrite Htr. cbn. rewrite <- !app_assoc. reflexivity. }
  assert (Hfilter : forall P : event -> bool,
             (forall e, is_poll_event e = true -> P e = false) ->
             filter (fun e => P e = true) evs = []).
  { intros P HP. apply (filter_excluded is_poll_event); assumption. }
  split; [|split].
  - unfold count_events. rewrite filter_cons. cbn [is_enqueue_event].
    destruct (decide (false = true)) as [Hd|_]; [discriminate|].
    rewrite filter_app, Hfilter; [reflexivity|].
    intros [] He; first [reflexivity | discriminate He].
  - unfold count_events. rewrite filter_cons.
    destruct (decide (false = true)) as [Hd|_]; [discriminate|].
    rewrite filter_app, Hfilter; [reflexivity|].
    intros [] He; first [reflexivity | discriminate He].
  - right. apply in_or_app. right. left. reflexivity.
Qed.

(** ** The deferred transmit task *)

Lemma poll_loop_ops (mbox1 mbox2 : omap_mbox) (fuel : nat) :
  ops mbox1 = ops mbox2 ->
  forall i m, poll_loop udelay fuel mbox1 i m = poll_loop udelay fuel mbox2 i m.
Proof.
  intros Hops. induction fuel as [|fuel IH]; intros i m; [reflexivity|].
  cbn [poll_loop mbox_fifo_full]. rewrite Hops.
  destruct (fifo_full (ops mbox2) (hw m)); [|reflexivity].
  destruct (is_type2 _); [reflexivity|].
  destruct (_ =? 0); [reflexivity|]. apply IH.
Qed.

Lemma tx_loop_ops (mbox1 mbox2 : omap_mbox) (fuel : nat) :
  ops mbox1 = ops mbox2 ->
  forall mq msg m, tx_loop udelay fuel mbox1 mq msg m = tx_loop udelay fuel mbox2 mq msg m.
Proof.
  intros Hops. induction fuel as [|fuel IH]; intros mq msg m; [reflexivity|].
  cbn [tx_loop]. destruct (_ =? 0); [reflexivity|].
  unfold __mbox_poll_for_space. rewrite (poll_loop_ops mbox1 mbox2 _ Hops).
  destruct (poll_loop _ _ _ _ _) as [[r m1]|]; [|reflexivity].
  destruct (r =? 0).
  - destruct (kfifo_out _ _) as [f bs].
    unfold mbox_fifo_write. rewrite Hops. apply IH.
  - unfold omap_mbox_enable_irq. rewrite Hops. reflexivity.
Qed.

Lemma tx_loop_fuel (mbox : omap_mbox) (fuel : nat) :
  forall fuel' mq msg m res,
    tx_loop udelay fuel mbox mq msg m = Some res -> (fuel <= fuel')%nat ->
    tx_loop udelay fuel' mbox mq msg m = Some res.
Proof.
  induction fuel as [|fuel IH]; intros fuel' mq msg m res Hrun Hle; [discriminate|].
  destruct fuel' as [|fuel']; [lia|].
  cbn [tx_loop] in *. destruct (_ =? 0); [exact Hrun|].
  destruct (__mbox_poll_for_space _ _ _) as [[r m1]|]; [|discriminate].
  destruct (r =? 0); [|exact Hrun].
  destruct (kfifo_out _ _) as [f bs]. apply IH; [exact Hrun | lia].
Qed.

Lemma msgs_bytes_cons (msg : mbox_msg_t) (msgs : list mbox_msg_t) :
  msgs_bytes (msg :: msgs) = msg_bytes msg ++ msgs_bytes msgs.
Proof. reflexivity. Qed.

Lemma msgs_bytes_length (msgs : list mbox_msg_t) :
  length (msgs_bytes msgs) = (4 * length msgs)%nat.
Proof.
  induction msgs as [|msg msgs IH]; [reflexivity|].
  rewrite msgs_bytes_cons, length_app, IH. cbn [length msg_bytes]. lia.
Qed.

(** One iteration of the loop of the task on a queue that starts with a whole
    message. *)
Lemma tx_loop_step (mbox : omap_mbox) (fuel : nat) (size : Z) (fl : bool)
    (msg : mbox_msg_t) (rest : list Z) (msg0 : mbox_msg_t) (m : machine) :
  is_u32 msg ->
  tx_loop udelay (S fuel) mbox
    {| fifo := {| kfifo_size := size; kfifo_buf := msg_bytes msg ++ rest |}; full := fl |}
    msg0 m =
  match __mbox_poll_for_space udelay mbox m with
  | Some (r, m1) =>
      if r =? 0 then
        tx_loop udelay fuel mbox
          {| fifo := {| kfifo_size := size; kfifo_buf := rest |}; full := fl |} msg
          (mbox_fifo_write mbox msg (emit (EvKfifoOut TXQ sizeof_msg) m1))
      else
        Some ({| fifo := {| kfifo_size := size; kfifo_buf := msg_bytes msg ++ rest |};
                 full := fl |}, omap_mbox_enable_irq mbox IRQ_TX m1)
  | None => None
  end.
Proof.
  intros Hmsg. cbn [tx_loop fifo].
  replace (kfifo_len _ =? 0) with false; [|reflexivity].
  destruct (__mbox_poll_for_space _ _ _) as [[r m1]|]; [|reflexivity].
  destruct (r =? 0); [|reflexivity].
  rewrite (kfifo_out_msg _ msg rest) by reflexivity.
  cbn [length msg_bytes]. cbn [Z.of_nat Pos.of_succ_nat Pos.succ Z.eqb sizeof_msg Pos.eqb].
  rewrite overwrite_msg_whole by assumption. reflexivity.
Qed.

Lemma set_txq_same (mbox : omap_mbox) (p : qptr) : txq mbox = p -> set_txq mbox p = mbox.
Proof. intros <-. destruct mbox; reflexivity. Qed.

Lemma set_rxq_same (mbox : omap_mbox) (p : qptr) : rxq mbox = p -> set_rxq mbox p = mbox.
Proof. intros <-. destruct mbox; reflexivity. Qed.

Lemma with_buf_same (mq : omap_mbox_queue) : with_buf mq (kfifo_buf (fifo mq)) = mq.
Proof. destruct mq as [[size buf] fl]; reflexivity. Qed.

(** ** The deferred receive task *)

Lemma notifier_call_chain_trace (nbs : list nat) (len : Z) (msg : mbox_msg_t) :
  forall m : machine,
    blocking_notifier_call_chain nbs len msg m =
    {| hw := hw m; trace := trace m ++ map (fun nb => EvNotify nb len msg) nbs |}.
Proof.
  unfold blocking_notifier_call_chain.
  induction nbs as [|nb nbs IH]; intros m.
  - cbn. rewrite app_nil_r. destruct m; reflexivity.
  - cbn [foldl map]. rewrite IH. cbn. rewrite <- app_assoc. reflexivity.
Qed.

Lemma rx_work_release_spec (mbox : omap_mbox) (q : omap_mbox_queue) (m0 : machine) :
  rx_work_release mbox q m0 =
    if full q then
      (set_full q false,
       {| hw := enable_irq (ops mbox) IRQ_RX (hw m0);
          trace := trace m0 ++ [EvLock RXQ; EvEnableIrq IRQ_RX; EvUnlock RXQ] |})
    else
      (q, {| hw := hw m0; trace := trace m0 ++ [EvLock RXQ; EvUnlock RXQ] |}).
Proof.
  unfold rx_work_release. destruct (full q); machine_simpl; reflexivity.
Qed.

Lemma rx_work_loop_msgs (mbox : omap_mbox) (size : Z) (tail : list Z)
    (msgs : list mbox_msg_t) :
  Forall is_u32 msgs ->
  (length tail < 4)%nat ->
  forall fuel fl msg0 (m : machine),
    (length msgs < fuel)%nat ->
    rx_work_loop fuel mbox
      {| fifo := {| kfifo_size := size; kfifo_buf := msgs_bytes msgs ++ tail |}; full := fl |}
      msg0 m =
    Some ({| fifo := {| kfifo_size := size; kfifo_buf := tail |};
             full := fl && is_nil msgs |},
          {| hw := if fl && negb (is_nil msgs)
                   then enable_irq (ops mbox) IRQ_RX (hw m) else hw m;
             trace := trace m ++ rx_work_events (notifier mbox) fl msgs |}).
Proof.
  intros Hmsgs Htail. induction Hmsgs as [|msg msgs Hmsg _ IH]; intros fuel fl msg0 m Hfuel.
  - destruct fuel as [|fuel]; [cbn in Hfuel; lia|].
    cbn [rx_work_loop msgs_bytes map concat app fifo kfifo_buf].
    replace (sizeof_msg <=? _) with false.
    2:{ symmetry. apply Z.leb_gt. unfold kfifo_len, sizeof_msg. cbn [kfifo_buf]. lia. }
    cbn [rx_work_events is_nil negb]. rewrite andb_true_r, andb_false_r, app_nil_r.
    destruct m; reflexivity.
  - destruct fuel as [|fuel]; [cbn in Hfuel; lia|].
    rewrite msgs_bytes_cons, <- app_assoc.
    cbn [rx_work_loop fifo].
    replace (sizeof_msg <=? _) with true.
    2:{ symmetry. apply Z.leb_le. unfold kfifo_len, sizeof_msg. cbn [kfifo_buf].
        rewrite length_app. cbn [length msg_bytes]. lia. }
    unfold rx_work_dispatch. cbn [fifo].
    rewrite (kfifo_out_msg _ msg (msgs_bytes msgs ++ tail)) by reflexivity.
    change (Z.of_nat (length (msg_bytes msg))) with sizeof_msg. rewrite Z.eqb_refl.
    rewrite overwrite_msg_whole by assumption.
    rewrite notifier_call_chain_trace, rx_work_release_spec.
    unfold set_fifo, set_full. cbn [full kfifo_size fifo].
    destruct fl.
    + rewrite IH by (cbn in Hfuel; lia).
      cbn [andb is_nil negb rx_work_events]. machine_simpl. reflexivity.
    + rewrite IH by (cbn in Hfuel; lia).
      cbn [andb is_nil negb rx_work_events]. machine_simpl. reflexivity.
Qed.

(** C6: one run of the deferred receive task on a queue holding the whole
    messages [msgs] (and possibly a rest shorter than one message).  It
    returns; every message is taken out and handed to each registered observer
    in registration order, one message after the other; the queue is left
    with less than one message.  After a dispatch, under the queue lock, a set
    [full] flag is cleared and the RX-ready interrupt re-enabled, whatever
    the state the dispatch left. *)
Theorem rx_work_dispatches (mbox : omap_mbox) (mq : omap_mbox_queue)
    (msgs : list mbox_msg_t) (tail : list Z) (msg0 : mbox_msg_t) (m : machine) :
  rxq mbox = QLive mq ->
  kfifo_buf (fifo mq) = msgs_bytes msgs ++ tail ->
  (length tail < 4)%nat ->
  Forall is_u32 msgs ->
  mbox_rx_work mbox msg0 m =
    Some (set_rxq mbox (QLive (set_full (with_buf mq tail) (full mq && is_nil msgs))),
          {| hw := if full mq && negb (is_nil msgs)
                   then enable_irq (ops mbox) IRQ_RX (hw m) else hw m;
             trace := trace m ++ rx_work_events (notifier mbox) (full mq) msgs |}) /\
  kfifo_len (fifo (with_buf mq tail)) < sizeof_msg /\
  (forall (q : omap_mbox_queue) (m0 : machine),
      rx_work_release mbox q m0 =
        if full q then
          (set_full q false,
           {| hw := enable_irq (ops mbox) IRQ_RX (hw m0);
              trace := trace m0 ++ [EvLock RXQ; EvEnableIrq IRQ_RX; EvUnlock RXQ] |})
        else
          (q, {| hw := hw m0; trace := trace m0 ++ [EvLock RXQ; EvUnlock RXQ] |})).
Proof.
  intros Hrx Hbuf Htail Hmsgs.
  destruct mq as [[size buf] fl]. cbn [fifo kfifo_buf] in Hbuf. subst buf.
  split; [|split].
  - unfold mbox_rx_work. rewrite Hrx. cbn [fifo kfifo_buf].
    rewrite (rx_work_loop_msgs mbox size tail msgs Hmsgs Htail).
    + reflexivity.
    + rewrite length_app, msgs_bytes_length. lia.
  - unfold kfifo_len, sizeof_msg. cbn. lia.
  - apply rx_work_release_spec.
Qed.

(** ** Activation: one startup, one shutdown *)

Lemma occurrences_app (p : nat) (l1 l2 : list nat) :
  occurrences p (l1 ++ l2) = (occurrences p l1 + occurrences p l2)%nat.
Proof.
  induction l1 as [|x l1 IH]; [reflexivity|]. cbn [app occurrences]. rewrite IH. lia.
Qed.

Lemma occurrences_le (p : nat) (l : list nat) : (occurrences p l <= length l)%nat.
Proof.
  induction l as [|x l IH]; [reflexivity|]. cbn [occurrences length].
  destruct (Nat.eqb x p); lia.
Qed.

Lemma env_ok_inv (env : open_env) :
  env_ok env = true ->
  kzalloc_txq env = true /\ (exists n, kfifo_alloc_txq env = Some n) /\
  kzalloc_rxq env = true /\ (exists n, kfifo_alloc_rxq env = Some n) /\
  request_irq env = 0.
Proof.
  unfold env_ok. rewrite !andb_true_iff, !bool_decide_eq_true, Z.eqb_eq.
  intros [[[[? ?] ?] ?] ?]. auto.
Qed.

(** The second part of a successful open. *)
Lemma startup_channel_ok (env : open_env) (p : nat) (mbox : omap_mbox) (s : system)
    (m : machine) :
  env_ok env = true ->
  0 <= use_count mbox < 2 ^ 31 - 1 ->
  (use_count mbox <> 0 -> exists qt qr, txq mbox = QLive qt /\ rxq mbox = QLive qr) ->
  exists mbox' m' evs,
    startup_channel env p mbox s m = Some (0, set_mach (set_chan s p mbox') m') /\
    ops mbox' = ops mbox /\
    use_count mbox' = use_count mbox + 1 /\
    (exists qt qr, txq mbox' = QLive qt /\ rxq mbox' = QLive qr) /\
    trace m' = trace m ++ evs /\
    count_events is_startup_event evs = 0%nat /\
    count_events is_shutdown_event evs = 0%nat.
Proof.
  intros Henv Hcount Hlive.
  destruct (env_ok_inv env Henv) as (Hkt & [nt Hft] & Hkr & [nr Hfr] & Hirq).
  unfold startup_channel. rewrite int_wrap_small by lia.
  destruct (use_count mbox =? 0) eqn:Hfirst.
  - unfold mbox_queue_alloc. rewrite Hkt, Hft, Hkr, Hfr, Hirq. cbn [Z.eqb].
    eexists _, _, [EvQueueAlloc TXQ; EvQueueAlloc RXQ; EvRequestIrq (name mbox) 0;
                   EvEnableIrq IRQ_RX; EvMutexUnlock].
    split; [reflexivity|]. split; [reflexivity|]. split; [reflexivity|].
    split; [eexists _, _; split; reflexivity|].
    split; [machine_simpl; reflexivity|]. split; reflexivity.
  - apply Z.eqb_neq in Hfirst. destruct (Hlive Hfirst) as (qt & qr & Htx & Hrx).
    eexists _, _, [EvMutexUnlock].
    split; [reflexivity|]. split; [reflexivity|]. split; [reflexivity|].
    split; [exists qt, qr; auto|].
    split; [reflexivity|]. split; reflexivity.
Qed.

Lemma sys_inv_open (pend : list nat) (s : system) (p : nat) (mbox mbox' : omap_mbox)
    (m' : machine) :
  sys_inv pend s ->
  chans s !! p = Some mbox ->
  ops mbox' = ops mbox ->
  use_count mbox' = use_count mbox + 1 ->
  (exists qt qr, txq mbox' = QLive qt /\ rxq mbox' = QLive qr) ->
  sys_inv (p :: pend)
    (set_mach (set_chan (set_mbox_configured s (Z.of_nat (length pend) + 1)) p mbox') m').
Proof.
  intros (Hcfg & Hvalid & Hchans) Hmbox Hops Huc Hlive.
  pose proof (lookup_lt_Some _ _ _ Hmbox) as Hp.
  split; [|split].
  - cbn [mbox_configured set_mach set_chan set_mbox_configured length]. lia.
  - cbn [chans set_mach set_chan set_mbox_configured]. rewrite length_insert.
    constructor; assumption.
  - cbn [chans set_mach set_chan set_mbox_configured]. intros q mb Hq.
    destruct (decide (p = q)) as [<-|Hne].
    + rewrite list_lookup_insert_eq in Hq by assumption. injection Hq as <-.
      destruct (Hchans p mbox Hmbox) as (Hlink & Hcount & _).
      split; [|split].
      * unfold link_ok. rewrite Hops. exact Hlink.
      * rewrite Huc, Hcount. cbn [occurrences]. rewrite Nat.eqb_refl. lia.
      * intros _. exact Hlive.
    + rewrite list_lookup_insert_ne in Hq by assumption.
      destruct (Hchans q mb Hq) as (Hlink & Hcount & Hq_live).
      split; [exact Hlink|]. split; [|exact Hq_live].
      rewrite Hcount. cbn [occurrences].
      replace (Nat.eqb p q) with false; [reflexivity|].
      symmetry. apply Nat.eqb_neq. assumption.
Qed.

(** A successful open while the opens [pend] are outstanding: the startup
    callback runs exactly if none is. *)
Lemma startup_step (pend : list nat) (env : open_env) (p : nat) (s : system) :
  sys_inv pend s ->
  (p < length (chans s))%nat ->
  env_ok env = true ->
  Z.of_nat (length pend) + 1 < 2 ^ 31 ->
  exists s' evs,
    omap_mbox_startup env p s = Some (0, s') /\
    sys_inv (p :: pend) s' /\
    length (chans s') = length (chans s) /\
    trace (mach s') = trace (mach s) ++ evs /\
    count_events is_startup_event evs = (if is_nil pend then 1 else 0)%nat /\
    count_events is_shutdown_event evs = 0%nat.
Proof.
  intros Hinv Hp Henv Hbound.
  pose proof Hinv as (Hcfg & Hvalid & Hchans).
  destruct (lookup_lt_is_Some_2 (chans s) p Hp) as [mbox Hmbox].
  destruct (Hchans p mbox Hmbox) as ([(f & Hf & Hf0) Hsh] & Huc & Hlive).
  assert (Hrange : 0 <= use_count mbox < 2 ^ 31 - 1).
  { rewrite Huc. pose proof (occurrences_le p pend). lia. }
  unfold omap_mbox_startup. rewrite Hmbox, Hcfg. rewrite int_wrap_small by lia.
  destruct pend as [|x pend].
  - cbn [length Z.of_nat Z.eqb]. rewrite Hf.
    specialize (Hf0 (hw (omap_mbox_enable mbox (emit EvMutexLock (mach s))))).
    destruct (f _) as [ret h]. cbn [fst] in Hf0. subst ret. cbn [Z.eqb].
    match goal with
    | |- context [startup_channel env p mbox ?s1 ?m1] =>
        destruct (startup_channel_ok env p mbox s1 m1 Henv Hrange Hlive)
          as (mbox' & m' & evs & Hrun & Hops & Huc' & Hlive' & Htr & Hst & Hsh')
    end.
    exists (set_mach (set_chan (set_mbox_configured s (Z.of_nat (length (@nil nat)) + 1))
                               p mbox') m'),
      ([EvMutexLock; EvPmGet; EvStartup (name mbox) 0] ++ evs).
    split; [exact Hrun|].
    split; [apply (sys_inv_open [] s p mbox); assumption|].
    split; [cbn [chans set_mach set_chan set_mbox_configured]; apply length_insert|].
    split.
    { cbn [mach set_mach]. rewrite Htr. machine_simpl. reflexivity. }
    rewrite !count_events_app, Hst, Hsh'. split; reflexivity.
  - replace (Z.of_nat (length (x :: pend)) =? 0) with false.
    2:{ symmetry. apply Z.eqb_neq. cbn [length]. lia. }
    match goal with
    | |- context [startup_channel env p mbox ?s1 ?m1] =>
        destruct (startup_channel_ok env p mbox s1 m1 Henv Hrange Hlive)
          as (mbox' & m' & evs & Hrun & Hops & Huc' & Hlive' & Htr & Hst & Hsh')
    end.
    exists (set_mach (set_chan (set_mbox_configured s (Z.of_nat (length (x :: pend)) + 1))
                               p mbox') m'),
      ([EvMutexLock; EvPmGet] ++ evs).
    split; [exact Hrun|].
    split; [apply (sys_inv_open (x :: pend) s p mbox); assumption|].
    split; [cbn [chans set_mach set_chan set_mbox_configured]; apply length_insert|].
    split.
    { cbn [mach set_mach]. rewrite Htr. machine_simpl. reflexivity. }
    rewrite !count_events_app, Hst, Hsh'. split; reflexivity.
Qed.

Lemma sys_inv_close (l1 l2 : list nat) (s : system) (p : nat) (mbox mbox' : omap_mbox)
    (m' : machine) :
  sys_inv (l1 ++ p :: l2) s ->
  chans s !! p = Some mbox ->
  ops mbox' = ops mbox ->
  use_count mbox' = use_count mbox - 1 ->
  (use_count mbox' <> 0 -> exists qt qr, txq mbox' = QLive qt /\ rxq mbox' = QLive qr) ->
  sys_inv (l1 ++ l2)
    (set_mach (set_chan (set_mbox_configured s (Z.of_nat (length (l1 ++ l2)))) p mbox') m').
Proof.
  intros (Hcfg & Hvalid & Hchans) Hmbox Hops Huc Hlive.
  pose proof (lookup_lt_Some _ _ _ Hmbox) as Hp.
  split; [|split].
  - reflexivity.
  - cbn [chans set_mach set_chan set_mbox_configured]. rewrite length_insert.
    rewrite Forall_app in *. destruct Hvalid as [Hv1 Hv2].
    split; [exact Hv1|]. inversion Hv2; assumption.
  - cbn [chans set_mach set_chan set_mbox_configured]. intros q mb Hq.
    destruct (decide (p = q)) as [<-|Hne].
    + rewrite list_lookup_insert_eq in Hq by assumption. injection Hq as <-.
      destruct (Hchans p mbox Hmbox) as (Hlink & Hcount & _).
      split; [|split].
      * unfold link_ok. rewrite Hops. exact Hlink.
      * rewrite Huc, Hcount. rewrite !occurrences_app. cbn [occurrences].
        rewrite Nat.eqb_refl. lia.
      * exact Hlive.
    + rewrite list_lookup_insert_ne in Hq by assumption.
      destruct (Hchans q mb Hq) as (Hlink & Hcount & Hq_live).
      split; [exact Hlink|]. split; [|exact Hq_live].
      rewrite Hcount, !occurrences_app. cbn [occurrences].
      replace (Nat.eqb p q) with false; [reflexivity|].
      symmetry. apply Nat.eqb_neq. assumption.
Qed.

(** A close of one of the outstanding opens: the shutdown callback runs
    exactly if no open is left. *)
Lemma fini_step (l1 l2 : list nat) (p : nat) (s : system) :
  sys_inv (l1 ++ p :: l2) s ->
  Z.of_nat (length (l1 ++ p :: l2)) < 2 ^ 31 ->
  exists s' evs,
    omap_mbox_fini p s = Some s' /\
    sys_inv (l1 ++ l2) s' /\
    length (chans s') = length (chans s) /\
    trace (mach s') = trace (mach s) ++ evs /\
    count_events is_startup_event evs = 0%nat /\
    count_events is_shutdown_event evs = (if is_nil (l1 ++ l2) then 1 else 0)%nat.
Proof.
  intros Hinv Hbound.
  pose proof Hinv as (Hcfg & Hvalid & Hchans).
  assert (Hp : (p < length (chans s))%nat).
  { rewrite Forall_app in Hvalid. destruct Hvalid as [_ Hv]. inversion Hv; assumption. }
  destruct (lookup_lt_is_Some_2 (chans s) p Hp) as [mbox Hmbox].
  destruct (Hchans p mbox Hmbox) as ([_ [sh Hsh]] & Huc & Hlive).
  assert (Hocc : occurrences p (l1 ++ p :: l2) = S (occurrences p (l1 ++ l2))).
  { rewrite !occurrences_app. cbn [occurrences]. rewrite Nat.eqb_refl. lia. }
  pose proof (occurrences_le p (l1 ++ l2)) as Hle.
  assert (Hlen : length (l1 ++ p :: l2) = S (length (l1 ++ l2))).
  { rewrite !length_app. cbn [length]. lia. }
  destruct Hlive as (qt & qr & Htx & Hrx); [lia|].
  unfold omap_mbox_fini. rewrite Hmbox, Hrx.
  cbn [use_count set_use_count txq rxq ops name set_txq set_rxq].
  rewrite int_wrap_small by lia. rewrite Htx, Hrx. cbn [mbox_queue_free].
  rewrite Hcfg, int_wrap_small by lia.
  replace (Z.of_nat (length (l1 ++ p :: l2)) - 1) with (Z.of_nat (length (l1 ++ l2))) by lia.
  destruct (use_count mbox - 1 =? 0) eqn:Hlast;
    cbn [ops name set_rxq set_txq set_use_count]; rewrite Hsh.
  - destruct (l1 ++ l2) as [|x rest] eqn:Hrest.
    + change (Z.of_nat (length (@nil nat)) =? 0) with true. cbn iota.
      eexists _, [EvMutexLock; EvFlushWork; EvFreeIrq (name mbox); EvTaskletKill;
                  EvQueueFree TXQ; EvQueueFree RXQ; EvShutdown (name mbox); EvPmPut;
                  EvMutexUnlock].
      split; [reflexivity|].
      split.
      { rewrite <- Hrest in *. apply (sys_inv_close l1 l2 s p mbox); auto.
        cbn [use_count]. apply Z.eqb_eq in Hlast. intros Hne.
        cbn [use_count set_rxq set_txq set_use_count] in Hne. lia. }
      split; [cbn [chans set_mach set_chan set_mbox_configured]; apply length_insert|].
      split; [cbn [mach set_mach]; machine_simpl; reflexivity|]. split; reflexivity.
    + replace (Z.of_nat (length (x :: rest)) =? 0) with false.
      2:{ symmetry. apply Z.eqb_neq. cbn [length]. lia. }
      eexists _, [EvMutexLock; EvFlushWork; EvFreeIrq (name mbox); EvTaskletKill;
                  EvQueueFree TXQ; EvQueueFree RXQ; EvPmPut; EvMutexUnlock].
      split; [reflexivity|].
      split.
      { rewrite <- Hrest in *. apply (sys_inv_close l1 l2 s p mbox); auto.
        cbn [use_count]. apply Z.eqb_eq in Hlast. intros Hne.
        cbn [use_count set_rxq set_txq set_use_count] in Hne. lia. }
      split; [cbn [chans set_mach set_chan set_mbox_configured]; apply length_insert|].
      split; [cbn [mach set_mach]; machine_simpl; reflexivity|]. split; reflexivity.
  - apply Z.eqb_neq in Hlast.
    assert (Hne : l1 ++ l2 <> []).
    { intros Hnil. rewrite Hnil in *. cbn in *. lia. }
    destruct (l1 ++ l2) as [|x rest] eqn:Hrest; [congruence|].
    replace (Z.of_nat (length (x :: rest)) =? 0) with false.
    2:{ symmetry. apply Z.eqb_neq. cbn [length]. lia. }
    eexists _, [EvMutexLock; EvFlushWork; EvPmPut; EvMutexUnlock].
    split; [reflexivity|].
    split.
    { rewrite <- Hrest in *. apply (sys_inv_close l1 l2 s p mbox); auto.
      intros _. exists qt, qr. auto. }
    split; [cbn [chans set_mach set_chan set_mbox_configured]; apply length_insert|].
    split; [cbn [mach set_mach]; machine_simpl; reflexivity|]. split; reflexivity.
Qed.

Lemma run_opens_inv (opens : list (nat * open_env)) :
  forall (pend : list nat) (s : system),
    sys_inv pend s ->
    Forall (fun o => (o.1 < length (chans s))%nat /\ env_ok o.2 = true) opens ->
    Z.of_nat (length pend + length opens) < 2 ^ 31 ->
    exists s' evs,
      run_opens opens s = Some s' /\
      sys_inv (rev (map fst opens) ++ pend) s' /\
      length (chans s') = length (chans s) /\
      trace (mach s') = trace (mach s) ++ evs /\
      count_events is_startup_event evs =
        (if is_nil pend && negb (is_nil opens) then 1 else 0)%nat /\
      count_events is_shutdown_event evs = 0%nat.
Proof.
  induction opens as [|[p env] opens IH]; intros pend s Hinv Hopens Hbound.
  - exists s, []. rewrite app_nil_r, andb_false_r. cbn [run_opens map rev app].
    split; [reflexivity|]. split; [exact Hinv|]. split; [reflexivity|].
    split; [reflexivity|]. split; reflexivity.
  - inversion Hopens as [|? ? [Hp Henv] Hrest]; subst. cbn [fst snd] in Hp, Henv.
    destruct (startup_step pend env p s Hinv Hp Henv)
      as (s1 & evs1 & Hrun1 & Hinv1 & Hlen1 & Htr1 & Hst1 & Hsh1).
    { cbn [length] in Hbound. lia. }
    destruct (IH (p :: pend) s1 Hinv1) as (s2 & evs2 & Hrun2 & Hinv2 & Hlen2 & Htr2 & Hst2 & Hsh2).
    { rewrite Hlen1. exact Hrest. }
    { cbn [length] in *. lia. }
    exists s2, (evs1 ++ evs2).
    cbn [run_opens]. rewrite Hrun1. cbn [Z.eqb].
    split; [exact Hrun2|].
    split; [cbn [map rev fst]; rewrite <- app_assoc; exact Hinv2|].
    split; [lia|].
    split; [rewrite Htr2, Htr1, app_assoc; reflexivity|].
    rewrite !count_events_app, Hst1, Hst2, Hsh1, Hsh2.
    cbn [is_nil andb negb]. rewrite andb_true_r. split; [|reflexivity].
    destruct (is_nil pend); reflexivity.
Qed.

Lemma run_closes_inv (closes : list nat) :
  forall (pend : list nat) (s : system),
    sys_inv pend s ->
    pend ≡ₚ closes ->
    Z.of_nat (length pend) < 2 ^ 31 ->
    exists s' evs,
      run_closes closes s = Some s' /\
      sys_inv [] s' /\
      trace (mach s') = trace (mach s) ++ evs /\
      count_events is_startup_event evs = 0%nat /\
      count_events is_shutdown_event evs = (if is_nil closes then 0 else 1)%nat.
Proof.
  induction closes as [|p closes IH]; intros pend s Hinv Hperm Hbound.
  - apply Permutation_nil_r in Hperm. subst pend.
    exists s, []. rewrite app_nil_r.
    split; [reflexivity|]. split; [exact Hinv|]. split; [reflexivity|]. split; reflexivity.
  - assert (Hin : p ∈ pend) by (rewrite Hperm; left).
    destruct (list_elem_of_split _ _ Hin) as (l1 & l2 & ->).
    symmetry in Hperm. apply Permutation_cons_app_inv in Hperm.
    destruct (fini_step l1 l2 p s Hinv Hbound)
      as (s1 & evs1 & Hrun1 & Hinv1 & Hlen1 & Htr1 & Hst1 & Hsh1).
    destruct (IH (l1 ++ l2) s1 Hinv1) as (s2 & evs2 & Hrun2 & Hinv2 & Htr2 & Hst2 & Hsh2).
    { symmetry. exact Hperm. }
    { rewrite length_app in *. cbn [length] in Hbound. lia. }
    exists s2, (evs1 ++ evs2).
    cbn [run_closes]. rewrite Hrun1.
    split; [exact Hrun2|]. split; [exact Hinv2|].
    split; [rewrite Htr2, Htr1, app_assoc; reflexivity|].
    rewrite !count_events_app, Hst1, Hst2, Hsh1, Hsh2.
    split; [reflexivity|]. cbn [is_nil].
    destruct (l1 ++ l2) as [|x rest] eqn:Hrest.
    + apply Permutation_nil_r in Hperm. subst closes. reflexivity.
    + destruct closes as [|y closes]; [|reflexivity].
      apply Permutation_nil_l in Hperm. discriminate Hperm.
Qed.

(** Every open, successful or not: the startup callback is invoked exactly
    if the activation counter was 0 (and the callback exists); the channel's
    use count plays no part. *)
Lemma startup_fires_iff (env : open_env) (p : nat) (s s' : system) (mbox : omap_mbox)
    (ret : Z) :
  chans s !! p = Some mbox ->
  omap_mbox_startup env p s = Some (ret, s') ->
  mbox_configured s' = int_wrap (mbox_configured s + 1) /\
  exists evs,
    trace (mach s') = trace (mach s) ++ evs /\
    count_events is_startup_event evs =
      if (mbox_configured s =? 0) && bool_decide (is_Some (startup (ops mbox)))
      then 1%nat else 0%nat.
Proof.
  intros Hmbox. unfold omap_mbox_startup. rewrite Hmbox.
  unfold startup_channel, mbox_queue_alloc, fail_request_irq, fail_alloc_rxq,
    fail_alloc_txq, fail_startup, mbox_queue_free.
  destruct (mbox_configured s =? 0); cbn [andb];
    [destruct (startup (ops mbox)) as [f|];
     [destruct (f _) as [r h]; destruct (r =? 0)|]|];
    try destruct (use_count mbox =? 0);
    try destruct (kzalloc_txq env); try destruct (kfifo_alloc_txq env);
    try destruct (kzalloc_rxq env); try destruct (kfifo_alloc_rxq env);
    try destruct (request_irq env =? 0);
    cbn [txq rxq set_txq set_rxq set_use_count ops name];
    try destruct (shutdown (ops mbox));
    intros [= <- <-];
    (split; [reflexivity|]);
    cbn [mach set_mach set_chan set_mbox_configured];
    machine_simpl; eexists; (split; [reflexivity|]); reflexivity.
Qed.

(** Every close on a link that has a shutdown callback: the callback is
    invoked exactly if the activation counter comes back to 0. *)
Lemma shutdown_fires_iff (p : nat) (s s' : system) (mbox : omap_mbox) :
  chans s !! p = Some mbox ->
  is_Some (shutdown (ops mbox)) ->
  omap_mbox_fini p s = Some s' ->
  mbox_configured s' = int_wrap (mbox_configured s - 1) /\
  exists evs,
    trace (mach s') = trace (mach s) ++ evs /\
    count_events is_shutdown_event evs =
      if mbox_configured s' =? 0 then 1%nat else 0%nat.
Proof.
  intros Hmbox [sh Hsh]. unfold omap_mbox_fini. rewrite Hmbox.
  unfold mbox_queue_free.
  destruct (rxq mbox) eqn:Hrx; try discriminate.
  cbn [use_count set_use_count txq rxq].
  destruct (int_wrap (use_count mbox - 1) =? 0);
    [destruct (txq mbox); try discriminate; rewrite Hrx|];
    cbn [ops name set_rxq set_txq set_use_count]; rewrite Hsh;
    destruct (int_wrap (mbox_configured s - 1) =? 0) eqn:Hzero;
    intros [= <-];
    cbn [mbox_configured mach set_mach set_chan set_mbox_configured];
    rewrite Hzero;
    (split; [reflexivity|]);
    machine_simpl; eexists; (split; [reflexivity|]); reflexivity.
Qed.

(** C1: on a link whose hardware starts up without error and has a shutdown
    callback, N opens that the kernel grants (N below 2^31), on any channels in
    any order, followed by the N matching closes in any order, all succeed;
    the startup callback is invoked exactly once, during the opens, and the
    shutdown callback exactly once, during the closes, when the activation
    counter is back at 0.  Moreover every single open invokes the startup
    callback exactly if it moves the activation counter from 0, and every
    single close invokes the shutdown callback exactly if it brings the counter
    back to 0, whatever the use count of the channel. *)
Theorem activation_exactly_once (s0 : system) (opens : list (nat * open_env))
    (closes : list nat) :
  mbox_configured s0 = 0 ->
  Forall (fun mbox => use_count mbox = 0 /\ link_ok mbox) (chans s0) ->
  Forall (fun o => (o.1 < length (chans s0))%nat /\ env_ok o.2 = true) opens ->
  closes ≡ₚ map fst opens ->
  opens <> [] ->
  Z.of_nat (length opens) < 2 ^ 31 ->
  (exists s1 s2 evs1 evs2,
      run_opens opens s0 = Some s1 /\
      run_closes closes s1 = Some s2 /\
      trace (mach s1) = trace (mach s0) ++ evs1 /\
      trace (mach s2) = trace (mach s1) ++ evs2 /\
      mbox_configured s1 = Z.of_nat (length opens) /\
      mbox_configured s2 = 0 /\
      count_events is_startup_event evs1 = 1%nat /\
      count_events is_shutdown_event evs1 = 0%nat /\
      count_events is_startup_event evs2 = 0%nat /\
      count_events is_shutdown_event evs2 = 1%nat) /\
  (forall (env : open_env) (p : nat) (s s' : system) (mbox : omap_mbox) (ret : Z),
      chans s !! p = Some mbox ->
      omap_mbox_startup env p s = Some (ret, s') ->
      mbox_configured s' = int_wrap (mbox_configured s + 1) /\
      exists evs,
        trace (mach s') = trace (mach s) ++ evs /\
        count_events is_startup_event evs =
          if (mbox_configured s =? 0) && bool_decide (is_Some (startup (ops mbox)))
          then 1%nat else 0%nat) /\
  (forall (p : nat) (s s' : system) (mbox : omap_mbox),
      chans s !! p = Some mbox ->
      is_Some (shutdown (ops mbox)) ->
      omap_mbox_fini p s = Some s' ->
      mbox_configured s' = int_wrap (mbox_configured s - 1) /\
      exists evs,
        trace (mach s') = trace (mach s) ++ evs /\
        count_events is_shutdown_event evs =
          if mbox_configured s' =? 0 then 1%nat else 0%nat).
Proof.
  intros Hcfg Hchans Hopens Hperm Hne Hbound.
  split; [|split].
  - assert (Hinv0 : sys_inv [] s0).
    { split; [exact Hcfg|]. split; [constructor|].
      intros p mbox Hmbox.
      destruct (Forall_lookup_1 _ _ _ _ Hchans Hmbox) as [Huc Hlink].
      split; [exact Hlink|]. split; [exact Huc|]. intros Hnz. contradiction. }
    destruct (run_opens_inv opens [] s0 Hinv0 Hopens)
      as (s1 & evs1 & Hrun1 & Hinv1 & Hlen1 & Htr1 & Hst1 & Hsh1).
    { cbn [length]. lia. }
    rewrite app_nil_r in Hinv1.
    assert (Hlen : length (rev (map fst opens)) = length opens).
    { rewrite length_rev, length_map. reflexivity. }
    destruct (run_closes_inv closes (rev (map fst opens)) s1 Hinv1)
      as (s2 & evs2 & Hrun2 & Hinv2 & Htr2 & Hst2 & Hsh2).
    { rewrite Hperm. symmetry. apply Permutation_rev. }
    { rewrite Hlen. exact Hbound. }
    exists s1, s2, evs1, evs2.
    split; [exact Hrun1|]. split; [exact Hrun2|].
    split; [exact Htr1|]. split; [exact Htr2|].
    split; [destruct Hinv1 as [-> _]; rewrite Hlen; reflexivity|].
    split; [destruct Hinv2 as [-> _]; reflexivity|].
    split; [rewrite Hst1; destruct opens; [contradiction|reflexivity]|].
    split; [exact Hsh1|]. split; [exact Hst2|].
    rewrite Hsh2. destruct closes as [|c closes]; [|reflexivity].
    apply Permutation_nil_l in Hperm. destruct opens; [contradiction|discriminate Hperm].
  - intros env p s s' mbox ret. apply startup_fires_iff.
  - intros p s s' mbox. apply shutdown_fires_iff.
Qed.

(** ** Opening without a registry, and with a failing startup *)

(** C10: while the registry pointer is NULL -- before any registration, or
    after [omap_mbox_unregister] -- [omap_mbox_get] returns [ERR_PTR(-EINVAL)],
    which is not the [-ENOENT] of an unknown name, and leaves the whole state
    as it was: hardware, trace, queues, observers, use counts and the
    activation counter. *)
Theorem get_without_registry (nm : string) (nb : option nat) (env : open_env) (s : system) :
  (mboxes s = None -> omap_mbox_get nm nb env s = Some (inr (- EINVAL), s)) /\
  (forall (ret : Z) (s' : system),
      omap_mbox_unregister s = Some (ret, s') ->
      omap_mbox_get nm nb env s' = Some (inr (- EINVAL), s')) /\
  - EINVAL <> - ENOENT.
Proof.
  split; [|split].
  - intros Hnull. unfold omap_mbox_get. rewrite Hnull. reflexivity.
  - intros ret s'. unfold omap_mbox_unregister.
    destruct (mboxes s) as [l|] eqn:Hreg.
    + destruct (unregister_devices _ _ _) as [m|]; [|discriminate].
      intros [= <- <-]. reflexivity.
    + intros [= <- <-]. unfold omap_mbox_get. rewrite Hreg. reflexivity.
  - unfold EINVAL, ENOENT. lia.
Qed.

(** An open whose startup callback returns an error: the open fails with
    [-ENODEV], the channel is as before (use count, queues), no queue was
    allocated, and the power-domain reference is given back. *)
Lemma open_startup_error_rolls_back (nm : string) (nb : option nat) (env : open_env)
    (s : system) (l : list nat) (p : nat) (mbox : omap_mbox) (f : HW -> Z * HW) :
  mboxes s = Some l ->
  find_mbox (chans s) l nm = Some (Some p) ->
  chans s !! p = Some mbox ->
  mbox_configured s = 0 ->
  startup (ops mbox) = Some f ->
  (f (hw (mach s))).1 <> 0 ->
  exists s',
    omap_mbox_get nm nb env s = Some (inr (- ENODEV), s') /\
    chans s' = chans s /\
    trace (mach s') =
      trace (mach s) ++ [EvMutexLock; EvPmGet; EvStartup (name mbox) (f (hw (mach s))).1;
                         EvPmPut; EvMutexUnlock].
Proof.
  intros Hreg Hfind Hmbox Hcfg Hf Hret.
  unfold omap_mbox_get. rewrite Hreg, Hfind.
  unfold omap_mbox_startup. rewrite Hmbox, Hcfg, Hf. cbn [Z.eqb].
  unfold omap_mbox_enable. cbn [emit hw].
  destruct (f (hw (mach s))) as [ret h]. cbn [fst] in *.
  apply Z.eqb_neq in Hret. rewrite Hret. unfold fail_startup. rewrite Hret.
  eexists. split; [reflexivity|]. split.
  - cbn [chans set_mach set_chan set_mbox_configured]. apply list_insert_id, Hmbox.
  - cbn [mach set_mach]. machine_simpl. reflexivity.
Qed.

(** An open whose startup callback is absent, as the first on the link:
    [omap_mbox_startup] leaves through [fail_startup] with [ret] still 0, and
    [omap_mbox_get] returns the channel. *)
Lemma open_startup_absent_returns_channel (nm : string) (nb : option nat) (env : open_env)
    (s : system) (l : list nat) (p : nat) (mbox : omap_mbox) :
  mboxes s = Some l ->
  find_mbox (chans s) l nm = Some (Some p) ->
  chans s !! p = Some mbox ->
  mbox_configured s = 0 ->
  startup (ops mbox) = None ->
  exists s',
    omap_mbox_get nm nb env s = Some (inl p, s') /\
    mbox_configured s' = 1 /\
    (forall mbox', chans s' !! p = Some mbox' ->
       use_count mbox' = use_count mbox /\ txq mbox' = txq mbox /\ rxq mbox' = rxq mbox) /\
    trace (mach s') =
      trace (mach s) ++ [EvMutexLock; EvPmGet; EvPmPut; EvMutexUnlock] ++
      match nb with Some nb => [EvNotifierRegister (name mbox) nb] | None => [] end.
Proof.
  intros Hreg Hfind Hmbox Hcfg Hf.
  pose proof (lookup_lt_Some _ _ _ Hmbox) as Hp.
  unfold omap_mbox_get. rewrite Hreg, Hfind.
  unfold omap_mbox_startup. rewrite Hmbox, Hcfg, Hf. cbn [Z.eqb].
  unfold fail_startup. cbn [Z.eqb].
  destruct nb as [nb|].
  - unfold blocking_notifier_chain_register.
    cbn [chans set_mach set_chan set_mbox_configured].
    rewrite list_lookup_insert_eq by assumption.
    eexists. split; [reflexivity|]. split; [reflexivity|]. split.
    + cbn [chans set_mach set_chan set_mbox_configured]. intros mbox'.
      rewrite list_lookup_insert_eq by (rewrite length_insert; assumption).
      intros [= <-]. auto.
    + cbn [mach set_mach]. machine_simpl. reflexivity.
  - eexists. split; [reflexivity|]. split; [reflexivity|]. split.
    + cbn [chans set_mach set_chan set_mbox_configured]. intros mbox'.
      rewrite list_lookup_insert_eq by assumption. intros [= <-]. auto.
    + cbn [mach set_mach]. machine_simpl. reflexivity.
Qed.

(** ** Context save and restore *)

Lemma saved_channels_cons (e : event) (evs : list event) :
  saved_channels (e :: evs) =
    match e with EvSaveCtx ch => ch :: saved_channels evs | _ => saved_channels evs end.
Proof. destruct e; reflexivity. Qed.

Lemma restored_channels_cons (e : event) (evs : list event) :
  restored_channels (e :: evs) =
    match e with EvRestoreCtx ch => ch :: restored_channels evs | _ => restored_channels evs end.
Proof. destruct e; reflexivity. Qed.

Lemma saved_channels_app (a b : list event) :
  saved_channels (a ++ b) = saved_channels a ++ saved_channels b.
Proof. apply omap_app. Qed.

Lemma restored_channels_app (a b : list event) :
  restored_channels (a ++ b) = restored_channels a ++ restored_channels b.
Proof. apply omap_app. Qed.

Lemma save_ctx_children (children : list omap_mbox) :
  forall m : machine,
  exists evs,
    trace (device_for_each_child children omap_mbox_save_ctx m).2 = trace m ++ evs /\
    saved_channels evs = map name (prefix_while has_save_ctx children).
Proof.
  induction children as [|mbox children IH]; intros m.
  - exists []. rewrite app_nil_r. split; reflexivity.
  - cbn [device_for_each_child prefix_while].
    destruct (omap_mbox_save_ctx mbox m) as [ret m1] eqn:Hstep.
    unfold omap_mbox_save_ctx in Hstep.
    destruct (save_ctx (ops mbox)) as [f|] eqn:Hhook; injection Hstep as <- <-.
    + assert (Hhas : has_save_ctx mbox = true).
      { unfold has_save_ctx. rewrite Hhook. apply bool_decide_eq_true_2. eexists; reflexivity. }
      rewrite Hhas. cbn [Z.eqb].
      destruct (IH (emit (EvSaveCtx (name mbox)) (on_hw f m))) as (evs & Htr & Hsaved).
      exists (EvSaveCtx (name mbox) :: evs).
      split; [rewrite Htr; machine_simpl; reflexivity|].
      rewrite saved_channels_cons, Hsaved. reflexivity.
    + assert (Hhas : has_save_ctx mbox = false).
      { unfold has_save_ctx. rewrite Hhook. apply bool_decide_eq_false_2.
        intros [? ?]; discriminate. }
      rewrite Hhas. exists [EvDevErr (name mbox)]. split; reflexivity.
Qed.

Lemma restore_ctx_children (children : list omap_mbox) :
  forall m : machine,
  exists evs,
    trace (device_for_each_child children omap_mbox_restore_ctx m).2 = trace m ++ evs /\
    restored_channels evs =
      map name (filter (fun mbox => is_open mbox = true)
                  (prefix_while (fun mbox => negb (is_open mbox) || has_restore_ctx mbox)
                     children)).
Proof.
  induction children as [|mbox children IH]; intros m.
  - exists []. rewrite app_nil_r. split; reflexivity.
  - cbn [device_for_each_child prefix_while].
    destruct (omap_mbox_restore_ctx mbox m) as [ret m1] eqn:Hstep.
    unfold omap_mbox_restore_ctx in Hstep.
    destruct (use_count mbox =? 0) eqn:Huc.
    + injection Hstep as <- <-.
      assert (Hopen : is_open mbox = false) by (unfold is_open; rewrite Huc; reflexivity).
      rewrite Hopen. cbn [Z.eqb negb orb]. destruct (IH m) as (evs & Htr & Hres).
      exists evs. split; [exact Htr|]. rewrite Hres.
      rewrite filter_cons_False; [reflexivity|]. rewrite Hopen. discriminate.
    + assert (Hopen : is_open mbox = true) by (unfold is_open; rewrite Huc; reflexivity).
      rewrite Hopen. cbn [negb orb].
      destruct (restore_ctx (ops mbox)) as [f|] eqn:Hhook; injection Hstep as <- <-.
      * assert (Hhas : has_restore_ctx mbox = true).
        { unfold has_restore_ctx. rewrite Hhook. apply bool_decide_eq_true_2.
          eexists; reflexivity. }
        rewrite Hhas. cbn [Z.eqb].
        destruct (IH (emit (EvRestoreCtx (name mbox)) (on_hw f m))) as (evs & Htr & Hres).
        exists (EvRestoreCtx (name mbox) :: evs).
        split; [rewrite Htr; machine_simpl; reflexivity|].
        rewrite filter_cons_True by exact Hopen.
        rewrite restored_channels_cons, Hres. reflexivity.
      * assert (Hhas : has_restore_ctx mbox = false).
        { unfold has_restore_ctx. rewrite Hhook. apply bool_decide_eq_false_2.
          intros [? ?]; discriminate. }
        rewrite Hhas. exists [EvDevErr (name mbox)]. split; reflexivity.
Qed.

(** C9, as the driver has it: on suspend the context-save hook is invoked
    over every channel of the link, whatever its use count, in order, up to
    the first channel that has no save hook; on resume the context-restore
    hook is invoked over the channels whose use count is not 0 -- a channel
    with use count 0 is skipped, not an error -- up to the first such channel
    that has no restore hook. *)
Theorem pm_context_hooks (children : list omap_mbox) (m : machine) :
  (exists evs,
      trace (mbox_runtime_suspend children m).2 = trace m ++ evs /\
      saved_channels evs = map name (prefix_while has_save_ctx children)) /\
  (exists evs,
      trace (mbox_runtime_resume children m).2 = trace m ++ evs /\
      restored_channels evs =
        map name (filter (fun mbox => is_open mbox = true)
                    (prefix_while (fun mbox => negb (is_open mbox) || has_restore_ctx mbox)
                       children))).
Proof.
  split.
  - unfold mbox_runtime_suspend.
    destruct (save_ctx_children children m) as (evs & Htr & Hsaved).
    destruct (device_for_each_child children omap_mbox_save_ctx m) as [ret m'].
    cbn [snd] in *. destruct (ret =? 0).
    + exists (evs ++ [EvPmQos CLEAR_MPU_CORE_CONSTRAINT]).
      split; [cbn [emit trace]; rewrite Htr, app_assoc; reflexivity|].
      rewrite saved_channels_app, Hsaved. apply app_nil_r.
    + exists evs. auto.
  - unfold mbox_runtime_resume.
    destruct (restore_ctx_children children (emit (EvPmQos SET_MPU_CORE_CONSTRAINT) m))
      as (evs & Htr & Hres).
    destruct (device_for_each_child children omap_mbox_restore_ctx _) as [ret m'].
    cbn [snd] in *. destruct (ret =? 0).
    + exists (EvPmQos SET_MPU_CORE_CONSTRAINT :: evs).
      split; [rewrite Htr; machine_simpl; reflexivity|]. exact Hres.
    + exists (EvPmQos SET_MPU_CORE_CONSTRAINT :: evs ++ [EvPmQos CLEAR_MPU_CORE_CONSTRAINT]).
      split; [cbn [emit trace]; rewrite Htr; machine_simpl; reflexivity|].
      rewrite restored_channels_cons, restored_channels_app, Hres. apply app_nil_r.
Qed.

(** ** Where the queue locks are held *)

Lemma held_events_app (a b : list event) :
  forall held,
    held_events held (a ++ b) = held_events held a ++ held_events (lock_state held a) b.
Proof.
  induction a as [|e a IH]; intros held; [reflexivity|].
  destruct e; cbn [app held_events lock_state]; try apply IH;
    destruct held; cbn [app]; rewrite IH; reflexivity.
Qed.

Lemma lock_state_app (a b : list event) :
  forall held, lock_state held (a ++ b) = lock_state (lock_state held a) b.
Proof.
  induction a as [|e a IH]; intros held; [reflexivity|].
  destruct e; cbn [app lock_state]; apply IH.
Qed.

Lemma no_lock_events (evs : list event) :
  Forall (fun e => is_lock_event e = false) evs ->
  forall held,
    lock_state held evs = held /\
    held_events held evs = if held then evs else [].
Proof.
  induction 1 as [|e evs He _ IH]; intros held.
  - destruct held; split; reflexivity.
  - destruct (IH held) as [Hstate Hheld].
    destruct e; try discriminate He; cbn [lock_state held_events];
      (split; [exact Hstate|]); destruct held; rewrite Hheld; reflexivity.
Qed.

Lemma poll_event_no_lock (evs : list event) :
  Forall (fun e => is_poll_event e = true) evs ->
  Forall (fun e => is_lock_event e = false) evs.
Proof.
  intros Hevs. eapply Forall_impl; [exact Hevs|].
  intros [] He; first [reflexivity | discriminate He].
Qed.

Lemma poll_no_lock (mbox : omap_mbox) (m m' : machine) (r : Z) :
  __mbox_poll_for_space udelay mbox m = Some (r, m') ->
  exists evs, trace m' = trace m ++ evs /\
              Forall (fun e => is_poll_event e = true) evs.
Proof.
  intros Hpoll.
  destruct (poll_for_space_total mbox m) as (r1 & m1 & evs & Hpoll1 & _ & Htr & Hevs).
  rewrite Hpoll in Hpoll1. injection Hpoll1 as <- <-. exists evs. auto.
Qed.

Lemma tx_loop_no_lock (mbox : omap_mbox) (fuel : nat) :
  forall mq msg (m : machine) mq' m',
    tx_loop udelay fuel mbox mq msg m = Some (mq', m') ->
    exists evs, trace m' = trace m ++ evs /\
                Forall (fun e => is_lock_event e = false) evs.
Proof.
  induction fuel as [|fuel IH]; intros mq msg m mq' m' Hrun; [discriminate|].
  cbn [tx_loop] in Hrun.
  destruct (kfifo_len (fifo mq) =? 0).
  { injection Hrun as <- <-. exists []. rewrite app_nil_r. split; [reflexivity|constructor]. }
  destruct (__mbox_poll_for_space udelay mbox m) as [[r m1]|] eqn:Hpoll; [|discriminate].
  destruct (poll_no_lock _ _ _ _ Hpoll) as (evs1 & Htr1 & Hevs1).
  apply poll_event_no_lock in Hevs1.
  destruct (r =? 0).
  - destruct (kfifo_out (fifo mq) sizeof_msg) as [f bs].
    apply IH in Hrun. destruct Hrun as (evs2 & Htr2 & Hevs2).
    destruct (Z.of_nat (length bs) =? sizeof_msg).
    + exists (evs1 ++ [EvKfifoOut TXQ (Z.of_nat (length bs)); EvFifoWrite (overwrite_msg msg bs)]
                ++ evs2).
      split.
      * rewrite Htr2. machine_simpl. rewrite Htr1, <- !app_assoc. reflexivity.
      * rewrite !Forall_app. repeat split; auto; repeat constructor.
    + exists (evs1 ++ [EvKfifoOut TXQ (Z.of_nat (length bs)); EvWarn;
                        EvFifoWrite (overwrite_msg msg bs)] ++ evs2).
      split.
      * rewrite Htr2. machine_simpl. rewrite Htr1, <- !app_assoc. reflexivity.
      * rewrite !Forall_app. repeat split; auto; repeat constructor.
  - injection Hrun as <- <-. exists (evs1 ++ [EvEnableIrq IRQ_TX]).
    split.
    + machine_simpl. rewrite Htr1, <- !app_assoc. reflexivity.
    + rewrite Forall_app. split; auto; repeat constructor.
Qed.

Lemma rx_irq_loop_no_lock (mbox : omap_mbox) (fuel : nat) :
  forall mq (m : machine) mq' m' nomem,
    rx_irq_loop fuel mbox mq m = Some (mq', m', nomem) ->
    exists evs, trace m' = trace m ++ evs /\
                Forall (fun e => is_lock_event e = false) evs.
Proof.
  induction fuel as [|fuel IH]; intros mq m mq' m' nomem Hrun; [discriminate|].
  cbn [rx_irq_loop mbox_fifo_empty] in Hrun.
  destruct (fifo_empty (ops mbox) (hw m)).
  { injection Hrun as <- <- <-. exists [EvFifoEmpty true]. split; [reflexivity|].
    repeat constructor. }
  destruct (kfifo_avail (fifo mq) <? sizeof_msg).
  { injection Hrun as <- <- <-. exists [EvFifoEmpty false; EvDisableIrq IRQ_RX].
    split; [machine_simpl; reflexivity|]. repeat constructor. }
  unfold mbox_fifo_read in Hrun. destruct (fifo_read (ops mbox) _) as [msg h1].
  destruct (kfifo_in (fifo mq) (msg_bytes msg) sizeof_msg) as [f len].
  destruct (len =? sizeof_msg); destruct (is_type1 (type (ops mbox))).
  - injection Hrun as <- <- <-.
    exists [EvFifoEmpty false; EvFifoRead msg; EvKfifoIn RXQ len].
    split; [machine_simpl; reflexivity|].
    constructor; [reflexivity|]. constructor; [reflexivity|]. constructor; [reflexivity|].
    constructor.
  - apply IH in Hrun. destruct Hrun as (evs & Htr & Hevs).
    exists ([EvFifoEmpty false; EvFifoRead msg; EvKfifoIn RXQ len] ++ evs).
    split; [rewrite Htr; machine_simpl; reflexivity|].
    constructor; [reflexivity|]. constructor; [reflexivity|]. constructor; [reflexivity|].
    exact Hevs.
  - injection Hrun as <- <- <-.
    exists [EvFifoEmpty false; EvFifoRead msg; EvKfifoIn RXQ len; EvWarn].
    split; [machine_simpl; reflexivity|].
    constructor; [reflexivity|]. constructor; [reflexivity|]. constructor; [reflexivity|].
    constructor; [reflexivity|]. constructor.
  - apply IH in Hrun. destruct Hrun as (evs & Htr & Hevs).
    exists ([EvFifoEmpty false; EvFifoRead msg; EvKfifoIn RXQ len; EvWarn] ++ evs).
    split; [rewrite Htr; machine_simpl; reflexivity|].
    constructor; [reflexivity|]. constructor; [reflexivity|]. constructor; [reflexivity|].
    constructor; [reflexivity|]. exact Hevs.
Qed.

Lemma notify_no_lock (nbs : list nat) (len : Z) (msg : mbox_msg_t) :
  Forall (fun e => is_lock_event e = false) (map (fun nb => EvNotify nb len msg) nbs).
Proof.
  induction nbs as [|nb nbs IH]; constructor; [reflexivity | exact IH].
Qed.

Lemma rx_work_dispatch_trace (mbox : omap_mbox) (mq mq1 : omap_mbox_queue)
    (msg msg1 : mbox_msg_t) (m m1 : machine) :
  rx_work_dispatch mbox mq msg m = (mq1, msg1, m1) ->
  exists pre, trace m1 = trace m ++ pre /\
              Forall (fun e => is_lock_event e = false) pre.
Proof.
  unfold rx_work_dispatch. destruct (kfifo_out (fifo mq) sizeof_msg) as [f bs].
  rewrite notifier_call_chain_trace.
  destruct (Z.of_nat (length bs) =? sizeof_msg); intros [= <- <- <-].
  - eexists (EvKfifoOut RXQ _ :: map _ (notifier mbox)).
    split; [machine_simpl; reflexivity|].
    constructor; [reflexivity | apply notify_no_lock].
  - eexists (EvKfifoOut RXQ _ :: EvWarn :: map _ (notifier mbox)).
    split; [machine_simpl; reflexivity|].
    constructor; [reflexivity|]. constructor; [reflexivity | apply notify_no_lock].
Qed.

Lemma rx_work_loop_locks (mbox : omap_mbox) (fuel : nat) :
  forall mq msg (m : machine) mq' m',
    rx_work_loop fuel mbox mq msg m = Some (mq', m') ->
    exists evs,
      trace m' = trace m ++ evs /\
      lock_state false evs = false /\
      Forall (fun e => e = EvEnableIrq IRQ_RX) (held_events false evs).
Proof.
  induction fuel as [|fuel IH]; intros mq msg m mq' m' Hrun; [discriminate|].
  cbn [rx_work_loop] in Hrun.
  destruct (sizeof_msg <=? kfifo_len (fifo mq)).
  2:{ injection Hrun as <- <-. exists []. rewrite app_nil_r.
      split; [reflexivity|]. split; [reflexivity|constructor]. }
  destruct (rx_work_dispatch mbox mq msg m) as [[mq1 msg1] m1] eqn:Hdispatch.
  destruct (rx_work_dispatch_trace _ _ _ _ _ _ _ Hdispatch) as (pre & Htr1 & Hpre).
  destruct (no_lock_events pre Hpre false) as [Hstate Hheld].
  rewrite rx_work_release_spec in Hrun.
  destruct (full mq1); apply IH in Hrun; destruct Hrun as (evs & Htr & Hst & Hev).
  - exists (pre ++ [EvLock RXQ; EvEnableIrq IRQ_RX; EvUnlock RXQ] ++ evs).
    split; [rewrite Htr; cbn [trace]; rewrite Htr1, <- !app_assoc; reflexivity|].
    rewrite lock_state_app, held_events_app, Hstate, Hheld.
    cbn [app lock_state held_events]. split; [exact Hst|].
    constructor; [reflexivity | exact Hev].
  - exists (pre ++ [EvLock RXQ; EvUnlock RXQ] ++ evs).
    split; [rewrite Htr; cbn [trace]; rewrite Htr1, <- !app_assoc; reflexivity|].
    rewrite lock_state_app, held_events_app, Hstate, Hheld.
    cbn [app lock_state held_events]. split; [exact Hst | exact Hev].
Qed.

Lemma send_holds_lock (mbox mbox' : omap_mbox) (msg : mbox_msg_t) (m m' : machine) (ret : Z) :
  omap_mbox_msg_send udelay mbox msg m = Some (ret, mbox', m') ->
  exists mid,
    trace m' = trace m ++ EvLock TXQ :: mid ++ [EvUnlock TXQ] /\
    Forall (fun e => is_lock_event e = false) mid.
Proof.
  unfold omap_mbox_msg_send. destruct (txq mbox) as [|mq|]; try discriminate.
  destruct (kfifo_avail (fifo mq) <? sizeof_msg).
  { intros [= <- <- <-]. exists []. split; [machine_simpl; reflexivity|constructor]. }
  assert (Henqueue : forall m1 evs1,
             trace m1 = trace m ++ EvLock TXQ :: evs1 ->
             Forall (fun e => is_lock_event e = false) evs1 ->
             Some (send_enqueue mbox mq msg m1) = Some (ret, mbox', m') ->
             exists mid,
               trace m' = trace m ++ EvLock TXQ :: mid ++ [EvUnlock TXQ] /\
               Forall (fun e => is_lock_event e = false) mid).
  { intros m1 evs1 Htr1 Hevs1. unfold send_enqueue.
    destruct (kfifo_in (fifo mq) (msg_bytes msg) sizeof_msg) as [f len].
    destruct (len =? sizeof_msg); intros [= <- <- <-].
    - exists (evs1 ++ [EvKfifoIn TXQ len; EvTaskletSchedule]).
      split; [machine_simpl; rewrite Htr1, <- !app_assoc; reflexivity|].
      rewrite Forall_app. split; [exact Hevs1|].
      constructor; [reflexivity|]. constructor; [reflexivity|]. constructor.
    - exists (evs1 ++ [EvKfifoIn TXQ len; EvWarn; EvTaskletSchedule]).
      split; [machine_simpl; rewrite Htr1, <- !app_assoc; reflexivity|].
      rewrite Forall_app. split; [exact Hevs1|].
      constructor; [reflexivity|]. constructor; [reflexivity|].
      constructor; [reflexivity|]. constructor. }
  destruct (kfifo_is_empty (fifo mq)).
  - destruct (__mbox_poll_for_space udelay mbox (emit (EvLock TXQ) m)) as [[r m1]|] eqn:Hpoll;
      [|discriminate].
    destruct (poll_no_lock _ _ _ _ Hpoll) as (evs1 & Htr1 & Hevs1).
    apply poll_event_no_lock in Hevs1.
    assert (Htr1' : trace m1 = trace m ++ EvLock TXQ :: evs1).
    { rewrite Htr1. cbn [emit trace]. rewrite <- app_assoc. reflexivity. }
    destruct (r =? 0).
    + intros [= <- <- <-]. exists (evs1 ++ [EvFifoWrite msg]).
      split; [machine_simpl; rewrite Htr1', <- !app_assoc; reflexivity|].
      rewrite Forall_app. split; [exact Hevs1|]. constructor; [reflexivity|constructor].
    + apply (Henqueue m1 evs1 Htr1' Hevs1).
  - apply (Henqueue (emit (EvLock TXQ) m) []); [reflexivity|constructor].
Qed.

(** C8, as the driver has it: the receive task holds the receive queue's
    lock only for the check of the [full] flag (with, when the flag is set,
    its clearing and the re-enabling of the RX-ready interrupt) and never
    across observer dispatch; the deferred transmit task and the interrupt
    handlers take no queue lock at all.  [omap_mbox_msg_send] takes the
    transmit queue's lock first and releases it last, and so holds it across
    whatever the call does in between, the bounded poll for hardware space
    and the write to the hardware FIFO included. *)
Theorem queue_lock_scope (mbox : omap_mbox) (msg msg0 : mbox_msg_t) (m : machine) :
  (forall (mbox' : omap_mbox) (m' : machine),
      mbox_rx_work mbox msg0 m = Some (mbox', m') ->
      exists evs,
        trace m' = trace m ++ evs /\
        Forall (fun e => e = EvEnableIrq IRQ_RX) (held_events false evs) /\
        lock_discipline evs) /\
  (forall (mbox' : omap_mbox) (m' : machine),
      mbox_tx_tasklet udelay mbox msg0 m = Some (mbox', m') ->
      exists evs,
        trace m' = trace m ++ evs /\ Forall (fun e => is_lock_event e = false) evs) /\
  (forall (mbox' : omap_mbox) (m' : machine),
      __mbox_rx_interrupt mbox m = Some (mbox', m') ->
      exists evs,
        trace m' = trace m ++ evs /\ Forall (fun e => is_lock_event e = false) evs) /\
  (forall m' : machine,
      __mbox_tx_interrupt mbox m = Some m' ->
      exists evs,
        trace m' = trace m ++ evs /\ Forall (fun e => is_lock_event e = false) evs) /\
  (forall (ret : Z) (mbox' : omap_mbox) (m' : machine),
      omap_mbox_msg_send udelay mbox msg m = Some (ret, mbox', m') ->
      exists mid,
        trace m' = trace m ++ EvLock TXQ :: mid ++ [EvUnlock TXQ] /\
        Forall (fun e => is_lock_event e = false) mid).
Proof.
  split; [|split; [|split; [|split]]].
  - intros mbox' m'. unfold mbox_rx_work.
    destruct (rxq mbox) as [|mq|]; try discriminate.
    destruct (rx_work_loop _ _ _ _ _) as [[mq' m1]|] eqn:Hrun; [|discriminate].
    intros [= <- <-].
    destruct (rx_work_loop_locks _ _ _ _ _ _ _ Hrun) as (evs & Htr & _ & Hheld).
    exists evs. split; [exact Htr|]. split; [exact Hheld|].
    unfold lock_discipline. eapply Forall_impl; [exact Hheld|].
    intros e ->. reflexivity.
  - intros mbox' m'. unfold mbox_tx_tasklet.
    destruct (txq mbox) as [|mq|]; try discriminate.
    destruct (tx_loop _ _ _ _ _ _) as [[mq' m1]|] eqn:Hrun; [|discriminate].
    intros [= <- <-]. exact (tx_loop_no_lock _ _ _ _ _ _ _ Hrun).
  - intros mbox' m'. unfold __mbox_rx_interrupt.
    destruct (rxq mbox) as [|mq|]; try discriminate.
    destruct (rx_irq_loop _ _ _ _) as [[[mq' m1] nomem]|] eqn:Hrun; [|discriminate].
    intros [= <- <-].
    destruct (rx_irq_loop_no_lock _ _ _ _ _ _ _ Hrun) as (evs & Htr & Hevs).
    unfold ack_mbox_irq.
    destruct nomem; [|destruct (ack_irq (ops mbox))].
    + exists (evs ++ [EvScheduleWork]).
      split; [machine_simpl; rewrite Htr, <- !app_assoc; reflexivity|].
      rewrite Forall_app. split; [exact Hevs|]. constructor; [reflexivity|constructor].
    + exists (evs ++ [EvAckIrq IRQ_RX; EvScheduleWork]).
      split; [machine_simpl; rewrite Htr, <- !app_assoc; reflexivity|].
      rewrite Forall_app. split; [exact Hevs|].
      constructor; [reflexivity|]. constructor; [reflexivity|constructor].
    + exists (evs ++ [EvScheduleWork]).
      split; [machine_simpl; rewrite Htr, <- !app_assoc; reflexivity|].
      rewrite Forall_app. split; [exact Hevs|]. constructor; [reflexivity|constructor].
  - intros m'. unfold __mbox_tx_interrupt, ack_mbox_irq.
    destruct (txq mbox) as [|mq|]; try discriminate.
    destruct (ack_irq (ops mbox)); intros [= <-].
    + exists [EvDisableIrq IRQ_TX; EvAckIrq IRQ_TX; EvTaskletSchedule].
      split; [machine_simpl; reflexivity|].
      constructor; [reflexivity|]. constructor; [reflexivity|].
      constructor; [reflexivity|constructor].
    + exists [EvDisableIrq IRQ_TX; EvTaskletSchedule].
      split; [machine_simpl; reflexivity|].
      constructor; [reflexivity|]. constructor; [reflexivity|constructor].
  - intros ret mbox' m'. apply send_holds_lock.
Qed.

(** * Further properties of the driver *)

Lemma count_events_cons (P : event -> bool) (e : event) (evs : list event) :
  count_events P (e :: evs) = ((if P e then 1 else 0) + count_events P evs)%nat.
Proof.
  unfold count_events. rewrite filter_cons.
  destruct (decide (P e = true)) as [Hp|Hp].
  - rewrite Hp. reflexivity.
  - destruct (P e); [contradiction|reflexivity].
Qed.

Lemma count_events_nil (P : event -> bool) : count_events P [] = 0%nat.
Proof. reflexivity. Qed.

(** Count the events of an explicit list. *)
Ltac count_explicit :=
  rewrite ?count_events_app, ?count_events_cons, ?count_events_nil;
  cbn [is_fifo_full_event is_udelay_event is_warn_event is_queue_alloc_event
       is_queue_free_event is_pm_get_event is_pm_put_event is_rx_mask_event
       is_rx_unmask_event is_startup_event is_shutdown_event Nat.add].

(** ** The bounded poll, counted *)

Lemma poll_loop_bounded (fuel : nat) (mbox : omap_mbox) :
  forall (i : Z) (m : machine),
    i = Z.of_nat fuel -> (0 < fuel)%nat -> i < 2 ^ 31 ->
    exists r m' evs,
      poll_loop udelay fuel mbox i m = Some (r, m') /\
      (r = 0 \/ r = -1) /\
      trace m' = trace m ++ evs /\
      (count_events is_fifo_full_event evs <= fuel)%nat /\
      count_events is_fifo_full_event evs = S (count_events is_udelay_event evs) /\
      hw m' = Nat.iter (count_events is_udelay_event evs) udelay (hw m) /\
      (r = 0 <-> fifo_full (ops mbox) (hw m') = false) /\
      (r = -1 -> is_type2 (type (ops mbox)) = false ->
       count_events is_fifo_full_event evs = fuel).
Proof.
  induction fuel as [|fuel IH]; intros i m Hi Hpos Hlt; [lia|].
  cbn [poll_loop mbox_fifo_full].
  destruct (fifo_full (ops mbox) (hw m)) eqn:Hfull.
  - destruct (is_type2 (type (ops mbox))) eqn:Htype.
    + eexists _, _, [EvFifoFull true].
      split; [reflexivity|]. split; [right; reflexivity|]. split; [reflexivity|].
      split; [count_explicit; lia|]. split; [reflexivity|]. split; [reflexivity|].
      split; [|intros _ Hn; discriminate Hn].
      cbn [hw emit]. rewrite Hfull. split; intros Hn; discriminate Hn.
    + rewrite int_wrap_small by lia.
      destruct (i - 1 =? 0) eqn:Hz.
      * apply Z.eqb_eq in Hz.
        eexists _, _, [EvFifoFull true].
        split; [reflexivity|]. split; [right; reflexivity|]. split; [reflexivity|].
        split; [count_explicit; lia|]. split; [reflexivity|]. split; [reflexivity|].
        split.
        { cbn [hw emit]. rewrite Hfull. split; intros Hn; discriminate Hn. }
        intros _ _. count_explicit. lia.
      * apply Z.eqb_neq in Hz.
        destruct (IH (i - 1) (emit EvUdelay (on_hw udelay (emit (EvFifoFull true) m))))
          as (r & m' & evs & Hrun & Hr & Htr & Hle & Hcnt & Hhw & Hiff & Hall);
          [lia | lia | lia |].
        exists r, m', (EvFifoFull true :: EvUdelay :: evs).
        split; [exact Hrun|]. split; [exact Hr|].
        split; [rewrite Htr; cbn; rewrite <- !app_assoc; reflexivity|].
        count_explicit.
        split; [lia|]. split; [lia|].
        split.
        { rewrite Hhw. cbn [Nat.add]. rewrite Nat.iter_succ_r. reflexivity. }
        split; [exact Hiff|].
        intros Hneg Hty. specialize (Hall Hneg Hty). lia.
  - eexists _, _, [EvFifoFull false].
    split; [reflexivity|]. split; [left; reflexivity|]. split; [reflexivity|].
    split; [count_explicit; lia|]. split; [reflexivity|]. split; [reflexivity|].
    split; [|intros Hn; discriminate Hn].
    cbn [hw emit]. rewrite Hfull. split; reflexivity.
Qed.

(** X1: [__mbox_poll_for_space] always returns, with 0 or -1, after at most
    1000 readings of the FIFO-full status and one delay less than readings;
    the hardware is what these delays made of it, and the result is 0 exactly
    if the last reading found room. *)
Theorem poll_for_space_bounded (mbox : omap_mbox) (m : machine) :
  exists r m' evs,
    __mbox_poll_for_space udelay mbox m = Some (r, m') /\
    (r = 0 \/ r = -1) /\
    trace m' = trace m ++ evs /\
    Forall (fun e => is_poll_event e = true) evs /\
    (count_events is_fifo_full_event evs <= 1000)%nat /\
    count_events is_fifo_full_event evs = S (count_events is_udelay_event evs) /\
    hw m' = Nat.iter (count_events is_udelay_event evs) udelay (hw m) /\
    (r = 0 <-> fifo_full (ops mbox) (hw m') = false).
Proof.
  destruct (poll_loop_bounded 1000 mbox 1000 m)
    as (r & m' & evs & Hrun & Hr & Htr & Hle & Hcnt & Hhw & Hiff & _); [lia | lia | lia |].
  destruct (poll_for_space_total mbox m) as (r1 & m1 & evs1 & Hrun1 & _ & Htr1 & Hevs1).
  unfold __mbox_poll_for_space in *. rewrite Hrun in Hrun1. injection Hrun1 as <- <-.
  rewrite Htr in Htr1. apply app_inv_head in Htr1. subst evs1.
  exists r, m', evs. auto 10.
Qed.

Lemma poll_loop_type2 (fuel : nat) (mbox : omap_mbox) (i : Z) (m : machine) :
  type (ops mbox) = OMAP_MBOX_TYPE2 ->
  poll_loop udelay (S fuel) mbox i m =
    Some (if fifo_full (ops mbox) (hw m) then -1 else 0,
          emit (EvFifoFull (fifo_full (ops mbox) (hw m))) m).
Proof.
  intros Htype. cbn [poll_loop mbox_fifo_full]. rewrite Htype. cbn [is_type2].
  destruct (fifo_full (ops mbox) (hw m)); reflexivity.
Qed.

(** X2: on hardware of type 2 the poll never waits: one reading of the
    FIFO-full status decides, and the hardware is left as it was. *)
Theorem poll_type2_never_waits (mbox : omap_mbox) (m : machine) :
  type (ops mbox) = OMAP_MBOX_TYPE2 ->
  __mbox_poll_for_space udelay mbox m =
    Some (if fifo_full (ops mbox) (hw m) then -1 else 0,
          emit (EvFifoFull (fifo_full (ops mbox) (hw m))) m).
Proof.
  intros Htype. unfold __mbox_poll_for_space.
  apply (poll_loop_type2 999 mbox 1000 m Htype).
Qed.

(** X3: on hardware of type 1 whose FIFO stays full through 999 delays, the
    poll gives up with -1 after exactly 1000 readings and 999 delays. *)
Theorem poll_gives_up (mbox : omap_mbox) (m : machine) :
  type (ops mbox) = OMAP_MBOX_TYPE1 ->
  forallb (fun k => fifo_full (ops mbox) (Nat.iter k udelay (hw m))) (seq 0 1000) = true ->
  exists m' evs,
    __mbox_poll_for_space udelay mbox m = Some (-1, m') /\
    trace m' = trace m ++ evs /\
    count_events is_fifo_full_event evs = 1000%nat /\
    count_events is_udelay_event evs = 999%nat /\
    hw m' = Nat.iter 999 udelay (hw m).
Proof.
  intros Htype Hfull.
  destruct (poll_loop_bounded 1000 mbox 1000 m)
    as (r & m' & evs & Hrun & Hr & Htr & Hle & Hcnt & Hhw & Hiff & Hall); [lia | lia | lia |].
  assert (Hstuck : fifo_full (ops mbox) (hw m') = true).
  { rewrite Hhw. rewrite forallb_forall in Hfull.
    apply (Hfull (count_events is_udelay_event evs)).
    apply in_seq. lia. }
  assert (Hneg : r = -1).
  { destruct Hr as [-> | ->]; [|reflexivity].
    destruct Hiff as [Hz _]. rewrite Hz in Hstuck by reflexivity. discriminate. }
  subst r. rewrite Htype in Hall. specialize (Hall eq_refl eq_refl).
  exists m', evs. unfold __mbox_poll_for_space.
  split; [exact Hrun|]. split; [exact Htr|]. split; [exact Hall|].
  split; [lia|]. rewrite Hhw. f_equal. lia.
Qed.

(** ** Transmit order *)

Lemma fifo_writes_cons (e : event) (evs : list event) :
  fifo_writes (e :: evs) =
    match e with EvFifoWrite msg => msg :: fifo_writes evs | _ => fifo_writes evs end.
Proof. destruct e; reflexivity. Qed.

Lemma fifo_writes_app (a b : list event) :
  fifo_writes (a ++ b) = fifo_writes a ++ fifo_writes b.
Proof. apply omap_app. Qed.

Lemma poll_events_quiet (evs : list event) :
  Forall (fun e => is_poll_event e = true) evs ->
  fifo_writes evs = [] /\ count_events is_warn_event evs = 0%nat.
Proof.
  induction 1 as [|e evs He _ [IHw IHc]]; [split; reflexivity|].
  rewrite fifo_writes_cons, count_events_cons, IHw, IHc.
  destruct e; try discriminate He; split; reflexivity.
Qed.

Lemma poll_result (mbox : omap_mbox) (m m1 : machine) (r : Z) :
  __mbox_poll_for_space udelay mbox m = Some (r, m1) ->
  exists evs,
    trace m1 = trace m ++ evs /\
    Forall (fun e => is_poll_event e = true) evs /\
    (r = 0 <-> fifo_full (ops mbox) (hw m1) = false).
Proof.
  intros Hpoll.
  destruct (poll_no_lock _ _ _ _ Hpoll) as (evs & Htr & Hevs).
  destruct (poll_loop_bounded 1000 mbox 1000 m)
    as (r' & m' & evs' & Hrun & _ & _ & _ & _ & _ & Hiff & _); [lia | lia | lia |].
  unfold __mbox_poll_for_space in Hpoll. rewrite Hpoll in Hrun. injection Hrun as <- <-.
  exists evs. auto.
Qed.

Lemma msgs_bytes_app (a b : list mbox_msg_t) :
  msgs_bytes (a ++ b) = msgs_bytes a ++ msgs_bytes b.
Proof. unfold msgs_bytes. rewrite map_app, concat_app. reflexivity. Qed.

Lemma msgs_bytes_nil_inv (msgs : list mbox_msg_t) : msgs_bytes msgs = [] -> msgs = [].
Proof.
  intros Hnil. apply (f_equal length) in Hnil. rewrite msgs_bytes_length in Hnil.
  destruct msgs; [reflexivity|]. cbn in Hnil. lia.
Qed.

(** X4: a send into a queue that already holds bytes and has room for one
    message never touches the hardware: the message goes to the end of the
    queue and the deferred transmit task is scheduled. *)
Theorem send_never_overtakes (mbox : omap_mbox) (mq : omap_mbox_queue)
    (msg : mbox_msg_t) (m : machine) :
  txq mbox = QLive mq ->
  kfifo_buf (fifo mq) <> [] ->
  sizeof_msg <= kfifo_avail (fifo mq) ->
  omap_mbox_msg_send udelay mbox msg m =
    Some (0, set_txq mbox (QLive (with_buf mq (kfifo_buf (fifo mq) ++ msg_bytes msg))),
          {| hw := hw m;
             trace := trace m ++ [EvLock TXQ; EvKfifoIn TXQ sizeof_msg; EvTaskletSchedule;
                                  EvUnlock TXQ] |}).
Proof.
  intros Htx Hne Havail. unfold omap_mbox_msg_send. rewrite Htx.
  replace (kfifo_avail (fifo mq) <? sizeof_msg) with false
    by (symmetry; apply Z.ltb_ge; exact Havail).
  replace (kfifo_is_empty (fifo mq)) with false.
  2:{ symmetry. unfold kfifo_is_empty, kfifo_len. apply Z.eqb_neq.
      destruct (kfifo_buf (fifo mq)); [contradiction|]. cbn [length]. lia. }
  unfold send_enqueue. rewrite kfifo_in_msg by assumption. rewrite Z.eqb_refl.
  machine_simpl. reflexivity.
Qed.

(** X5: a send on a queue of whole messages returns 0 or [-ENOMEM], and the
    messages it writes to the hardware followed by the messages it leaves
    queued are the messages queued before followed, when it returns 0, by the
    new one: an accepted message is behind all earlier ones, a refused one is
    nowhere.  The size check of the enqueue never fails. *)
Theorem send_keeps_fifo_order (mbox : omap_mbox) (mq : omap_mbox_queue)
    (msgs : list mbox_msg_t) (msg : mbox_msg_t) (m : machine) :
  txq mbox = QLive mq ->
  kfifo_buf (fifo mq) = msgs_bytes msgs ->
  exists ret mbox' m' msgs' evs,
    omap_mbox_msg_send udelay mbox msg m = Some (ret, mbox', m') /\
    (ret = 0 \/ ret = - ENOMEM) /\
    txq mbox' = QLive (with_buf mq (msgs_bytes msgs')) /\
    trace m' = trace m ++ evs /\
    fifo_writes evs ++ msgs' = msgs ++ (if ret =? 0 then [msg] else []) /\
    count_events is_warn_event evs = 0%nat.
Proof.
  intros Htx Hbuf. unfold omap_mbox_msg_send. rewrite Htx.
  assert (Hsame : QLive mq = QLive (with_buf mq (msgs_bytes msgs))).
  { rewrite <- Hbuf, with_buf_same. reflexivity. }
  assert (Henqueue : forall m1 evs1,
             sizeof_msg <= kfifo_avail (fifo mq) ->
             trace m1 = trace m ++ EvLock TXQ :: evs1 ->
             Forall (fun e => is_poll_event e = true) evs1 ->
             exists ret mbox' m' msgs' evs,
               Some (send_enqueue mbox mq msg m1) = Some (ret, mbox', m') /\
               (ret = 0 \/ ret = - ENOMEM) /\
               txq mbox' = QLive (with_buf mq (msgs_bytes msgs')) /\
               trace m' = trace m ++ evs /\
               fifo_writes evs ++ msgs' = msgs ++ (if ret =? 0 then [msg] else []) /\
               count_events is_warn_event evs = 0%nat).
  { intros m1 evs1 Havail Htr1 Hevs1.
    destruct (poll_events_quiet evs1 Hevs1) as [Hw Hc].
    unfold send_enqueue. rewrite kfifo_in_msg by assumption. rewrite Z.eqb_refl.
    eexists 0, _, _, (msgs ++ [msg]),
      (EvLock TXQ :: evs1 ++ [EvKfifoIn TXQ sizeof_msg; EvTaskletSchedule; EvUnlock TXQ]).
    split; [reflexivity|]. split; [left; reflexivity|].
    split.
    { cbn [txq set_txq]. unfold with_buf.
      rewrite msgs_bytes_app, Hbuf. cbn [msgs_bytes map concat]. rewrite app_nil_r.
      reflexivity. }
    split; [machine_simpl; rewrite Htr1, <- !app_assoc; reflexivity|].
    split.
    { rewrite fifo_writes_cons, fifo_writes_app, Hw. reflexivity. }
    rewrite count_events_cons, count_events_app, Hc. reflexivity. }
  destruct (kfifo_avail (fifo mq) <? sizeof_msg) eqn:Havail.
  { exists (- ENOMEM), mbox, (emit (EvUnlock TXQ) (emit (EvLock TXQ) m)), msgs,
      [EvLock TXQ; EvUnlock TXQ].
    split; [reflexivity|]. split; [right; reflexivity|].
    split; [rewrite Htx; exact Hsame|].
    split; [machine_simpl; reflexivity|]. split; [|reflexivity].
    cbn. rewrite app_nil_r. reflexivity. }
  apply Z.ltb_ge in Havail.
  destruct (kfifo_is_empty (fifo mq)) eqn:Hempty.
  - destruct (poll_for_space_total mbox (emit (EvLock TXQ) m))
      as (r & m1 & evs1 & Hpoll & _ & Htr1 & Hevs1).
    rewrite Hpoll.
    assert (Htr1' : trace m1 = trace m ++ EvLock TXQ :: evs1).
    { rewrite Htr1. cbn [emit trace]. rewrite <- app_assoc. reflexivity. }
    destruct (r =? 0).
    + destruct (poll_events_quiet evs1 Hevs1) as [Hw Hc].
      assert (Hnil : msgs = []).
      { apply msgs_bytes_nil_inv. rewrite <- Hbuf.
        unfold kfifo_is_empty, kfifo_len in Hempty. apply Z.eqb_eq in Hempty.
        destruct (kfifo_buf (fifo mq)); [reflexivity|]. cbn [length] in Hempty. lia. }
      subst msgs.
      eexists 0, mbox, _, [], (EvLock TXQ :: evs1 ++ [EvFifoWrite msg; EvUnlock TXQ]).
      split; [reflexivity|]. split; [left; reflexivity|].
      split; [rewrite Htx; exact Hsame|].
      split; [machine_simpl; rewrite Htr1', <- !app_assoc; reflexivity|].
      split; [rewrite fifo_writes_cons, fifo_writes_app, Hw; reflexivity|].
      rewrite count_events_cons, count_events_app, Hc. reflexivity.
    + apply (Henqueue m1 evs1 Havail Htr1' Hevs1).
  - apply (Henqueue (emit (EvLock TXQ) m) [] Havail); [reflexivity|constructor].
Qed.

Lemma tx_loop_writes (mbox : omap_mbox) (size : Z) (fl : bool) (msgs : list mbox_msg_t) :
  Forall is_u32 msgs ->
  forall fuel msg0 m,
    (length msgs < fuel)%nat ->
    exists k m' evs,
      tx_loop udelay fuel mbox
        {| fifo := {| kfifo_size := size; kfifo_buf := msgs_bytes msgs |}; full := fl |}
        msg0 m =
      Some ({| fifo := {| kfifo_size := size; kfifo_buf := msgs_bytes (drop k msgs) |};
               full := fl |}, m') /\
      trace m' = trace m ++ evs /\
      fifo_writes evs = take k msgs /\
      count_events is_warn_event evs = 0%nat /\
      (k <= length msgs)%nat /\
      ((k < length msgs)%nat ->
       exists m1, m' = omap_mbox_enable_irq mbox IRQ_TX m1 /\
                  fifo_full (ops mbox) (hw m1) = true).
Proof.
  induction 1 as [|msg msgs Hmsg _ IH]; intros fuel msg0 m Hfuel.
  - destruct fuel as [|fuel]; [cbn in Hfuel; lia|].
    exists 0%nat, m, []. rewrite app_nil_r.
    split; [reflexivity|]. split; [reflexivity|]. split; [reflexivity|].
    split; [reflexivity|]. split; [lia|]. intros Hlt. cbn [length] in Hlt. lia.
  - destruct fuel as [|fuel]; [cbn in Hfuel; lia|].
    rewrite msgs_bytes_cons, tx_loop_step by assumption.
    destruct (poll_for_space_total mbox m) as (r & m1 & evs1 & Hpoll & _ & _ & _).
    rewrite Hpoll.
    destruct (poll_result _ _ _ _ Hpoll) as (evs1' & Htr1 & Hevs1 & Hiff).
    destruct (poll_events_quiet evs1' Hevs1) as [Hw Hc].
    destruct (r =? 0) eqn:Hr.
    + destruct (IH fuel msg (mbox_fifo_write mbox msg (emit (EvKfifoOut TXQ sizeof_msg) m1)))
        as (k & m' & evs & Hrun & Htr & Hwr & Hwarn & Hk & Hstop); [cbn in Hfuel; lia|].
      exists (S k), m', (evs1' ++ [EvKfifoOut TXQ sizeof_msg; EvFifoWrite msg] ++ evs).
      split; [exact Hrun|].
      split; [rewrite Htr; machine_simpl; rewrite Htr1, <- !app_assoc; reflexivity|].
      split.
      { rewrite !fifo_writes_app, Hw, Hwr. reflexivity. }
      split; [rewrite !count_events_app, Hc, Hwarn; reflexivity|].
      split; [cbn; lia|].
      intros Hlt. apply Hstop. cbn in Hlt. lia.
    + exists 0%nat, (omap_mbox_enable_irq mbox IRQ_TX m1), (evs1' ++ [EvEnableIrq IRQ_TX]).
      split; [reflexivity|].
      split; [machine_simpl; rewrite Htr1, <- !app_assoc; reflexivity|].
      split; [rewrite fifo_writes_app, Hw; reflexivity|].
      split; [rewrite count_events_app, Hc; reflexivity|].
      split; [lia|].
      intros _. exists m1. split; [reflexivity|].
      apply Z.eqb_neq in Hr.
      destruct (fifo_full (ops mbox) (hw m1)); [reflexivity|].
      exfalso. apply Hr. apply Hiff. reflexivity.
Qed.

(** X6: one run of the deferred transmit task on a queue of whole messages
    writes a first part of the queue to the hardware FIFO, in queue order,
    and leaves the rest queued; the size check of the dequeue never fails.  It
    stops before the end only on hardware that reported its FIFO full, so on
    hardware that never does it empties the queue. *)
Theorem tx_tasklet_keeps_fifo_order (mbox : omap_mbox) (mq : omap_mbox_queue)
    (msgs : list mbox_msg_t) (msg0 : mbox_msg_t) (m : machine) :
  txq mbox = QLive mq ->
  kfifo_buf (fifo mq) = msgs_bytes msgs ->
  Forall is_u32 msgs ->
  exists k m' evs,
    mbox_tx_tasklet udelay mbox msg0 m =
      Some (set_txq mbox (QLive (with_buf mq (msgs_bytes (drop k msgs)))), m') /\
    trace m' = trace m ++ evs /\
    fifo_writes evs = take k msgs /\
    count_events is_warn_event evs = 0%nat /\
    ((k < length msgs)%nat ->
     exists m1, m' = omap_mbox_enable_irq mbox IRQ_TX m1 /\
                fifo_full (ops mbox) (hw m1) = true) /\
    ((forall h, fifo_full (ops mbox) h = false) -> k = length msgs).
Proof.
  intros Htx Hbuf Hmsgs.
  destruct mq as [[size buf] fl]. cbn [fifo kfifo_buf] in Hbuf. subst buf.
  unfold mbox_tx_tasklet. rewrite Htx. cbn [fifo kfifo_buf with_buf set_fifo kfifo_size full].
  destruct (tx_loop_writes mbox size fl msgs Hmsgs (S (length (msgs_bytes msgs))) msg0 m)
    as (k & m' & evs & Hrun & Htr & Hwr & Hwarn & Hk & Hstop).
  { rewrite msgs_bytes_length. lia. }
  exists k, m', evs. rewrite Hrun.
  split; [reflexivity|]. split; [exact Htr|]. split; [exact Hwr|]. split; [exact Hwarn|].
  split; [exact Hstop|].
  intros Hroom. destruct (decide (k < length msgs)%nat) as [Hlt|Hge]; [|lia].
  destruct (Hstop Hlt) as (m1 & _ & Hfull). rewrite Hroom in Hfull. discriminate.
Qed.

(** ** Receive order *)

Lemma fifo_reads_cons (e : event) (evs : list event) :
  fifo_reads (e :: evs) =
    match e with EvFifoRead msg => msg :: fifo_reads evs | _ => fifo_reads evs end.
Proof. destruct e; reflexivity. Qed.

Lemma fifo_reads_app (a b : list event) :
  fifo_reads (a ++ b) = fifo_reads a ++ fifo_reads b.
Proof. apply omap_app. Qed.

Lemma dispatched_cons (e : event) (evs : list event) :
  dispatched (e :: evs) =
    match e with
    | EvNotify nb _ msg => (nb, msg) :: dispatched evs
    | _ => dispatched evs
    end.
Proof. destruct e; reflexivity. Qed.

Lemma dispatched_app (a b : list event) :
  dispatched (a ++ b) = dispatched a ++ dispatched b.
Proof. apply omap_app. Qed.

(** Read the hardware accesses off an explicit list of events. *)
Ltac reads_explicit :=
  rewrite ?fifo_reads_app, ?fifo_reads_cons;
  change (fifo_reads []) with (@nil mbox_msg_t);
  cbn [msgs_bytes map concat app]; rewrite ?app_nil_r.

Lemma rx_irq_loop_reads (mbox : omap_mbox) (fuel : nat) :
  forall (mq : omap_mbox_queue) (m : machine),
    (Z.to_nat (kfifo_avail (fifo mq)) < fuel)%nat ->
    exists mq' m' nomem evs,
      rx_irq_loop fuel mbox mq m = Some (mq', m', nomem) /\
      trace m' = trace m ++ evs /\
      fifo mq' = {| kfifo_size := kfifo_size (fifo mq);
                    kfifo_buf := kfifo_buf (fifo mq) ++ msgs_bytes (fifo_reads evs) |} /\
      full mq' = (if nomem then true else full mq) /\
      count_events is_warn_event evs = 0%nat /\
      count_events is_rx_mask_event evs = (if nomem then 1 else 0)%nat /\
      (nomem = true -> kfifo_avail (fifo mq') < sizeof_msg) /\
      (0 <= kfifo_avail (fifo mq) -> 0 <= kfifo_avail (fifo mq')) /\
      (fifo_empty (ops mbox) (hw m) = true -> fifo_reads evs = [] /\ nomem = false) /\
      ((forall h, is_u32 (fifo_read (ops mbox) h).1) -> Forall is_u32 (fifo_reads evs)).
Proof.
  induction fuel as [|fuel IH]; intros mq m Hfuel; [lia|].
  cbn [rx_irq_loop mbox_fifo_empty].
  destruct (fifo_empty (ops mbox) (hw m)) eqn:Hempty.
  { exists mq, (emit (EvFifoEmpty true) m), false, [EvFifoEmpty true].
    split; [reflexivity|]. split; [reflexivity|].
    split; [reads_explicit; destruct mq as [[? ?] ?]; reflexivity|].
    split; [reflexivity|]. split; [reflexivity|]. split; [reflexivity|].
    split; [intros Hn; discriminate Hn|]. split; [auto|]. split; [auto|].
    intros _. constructor. }
  destruct (kfifo_avail (fifo mq) <? sizeof_msg) eqn:Havail.
  { apply Z.ltb_lt in Havail.
    exists (set_full mq true), (omap_mbox_disable_irq mbox IRQ_RX (emit (EvFifoEmpty false) m)),
      true, [EvFifoEmpty false; EvDisableIrq IRQ_RX].
    split; [reflexivity|]. split; [machine_simpl; reflexivity|].
    split; [reads_explicit; destruct mq as [[? ?] ?]; reflexivity|].
    split; [reflexivity|]. split; [reflexivity|]. split; [reflexivity|].
    split; [intros _; exact Havail|]. split; [auto|].
    split; [intros Hn; discriminate Hn|]. intros _. constructor. }
  apply Z.ltb_ge in Havail.
  unfold mbox_fifo_read. cbn [hw emit].
  destruct (fifo_read (ops mbox) (hw m)) as [msg h1] eqn:Hread.
  rewrite kfifo_in_msg by assumption. rewrite Z.eqb_refl.
  assert (Hnew : 0 <= kfifo_avail
                        (fifo (set_fifo mq {| kfifo_size := kfifo_size (fifo mq);
                                               kfifo_buf := kfifo_buf (fifo mq) ++ msg_bytes msg |}))).
  { unfold kfifo_avail, kfifo_len in *. cbn [set_fifo fifo kfifo_size kfifo_buf].
    rewrite length_app. cbn [length msg_bytes]. unfold sizeof_msg in *. lia. }
  destruct (is_type1 (type (ops mbox))).
  { eexists _, _, false, [EvFifoEmpty false; EvFifoRead msg; EvKfifoIn RXQ sizeof_msg].
    split; [reflexivity|]. split; [machine_simpl; reflexivity|].
    split; [reflexivity|].
    split; [reflexivity|]. split; [reflexivity|]. split; [reflexivity|].
    split; [intros Hn; discriminate Hn|]. split; [intros _; exact Hnew|].
    split; [intros Hn; discriminate Hn|].
    intros Hu32. constructor; [|constructor].
    specialize (Hu32 (hw m)). rewrite Hread in Hu32. exact Hu32. }
  match goal with
  | |- context [rx_irq_loop fuel mbox ?q ?mm] =>
      destruct (IH q mm)
        as (mq' & m' & nomem & evs & Hrun & Htr & Hfifo & Hfull & Hwarn & Hmask & Hnomem
            & Hcap & _ & Hu)
  end.
  { unfold kfifo_avail, kfifo_len in *. cbn [set_fifo fifo kfifo_size kfifo_buf].
    rewrite length_app. cbn [length msg_bytes]. unfold sizeof_msg in *. lia. }
  exists mq', m', nomem, ([EvFifoEmpty false; EvFifoRead msg; EvKfifoIn RXQ sizeof_msg] ++ evs).
  split; [exact Hrun|].
  split; [rewrite Htr; machine_simpl; reflexivity|].
  split.
  { rewrite Hfifo. cbn [set_fifo fifo kfifo_size kfifo_buf].
    rewrite fifo_reads_app, !fifo_reads_cons.
    change (fifo_reads []) with (@nil mbox_msg_t). cbn [app].
    rewrite msgs_bytes_cons, <- app_assoc. reflexivity. }
  split; [exact Hfull|].
  split; [rewrite count_events_app, Hwarn; reflexivity|].
  split; [rewrite count_events_app, Hmask; reflexivity|].
  split; [exact Hnomem|]. split; [intros _; apply Hcap, Hnew|].
  split; [intros Hn; discriminate Hn|].
  intros Hu32. rewrite fifo_reads_app, !fifo_reads_cons.
  change (fifo_reads []) with (@nil mbox_msg_t). cbn [app].
  constructor; [|apply Hu, Hu32].
  specialize (Hu32 (hw m)). rewrite Hread in Hu32. exact Hu32.
Qed.

(** X7: the RX-ready interrupt handler on a channel with a receive queue
    always returns.  The bytes it adds to the queue are the messages it read
    from the hardware FIFO, in the order read, after what was queued; a queue
    within its capacity stays within it, and the size check of the enqueue
    never fails.  When the hardware FIFO is empty on entry, nothing is read and
    the queue is as before, even if it is full. *)
Theorem rx_interrupt_keeps_arrival_order (mbox : omap_mbox) (mq : omap_mbox_queue)
    (m : machine) :
  rxq mbox = QLive mq ->
  exists mq' m' evs,
    __mbox_rx_interrupt mbox m = Some (set_rxq mbox (QLive mq'), m') /\
    trace m' = trace m ++ evs /\
    fifo mq' = {| kfifo_size := kfifo_size (fifo mq);
                  kfifo_buf := kfifo_buf (fifo mq) ++ msgs_bytes (fifo_reads evs) |} /\
    count_events is_warn_event evs = 0%nat /\
    (0 <= kfifo_avail (fifo mq) -> 0 <= kfifo_avail (fifo mq')) /\
    (fifo_empty (ops mbox) (hw m) = true -> fifo_reads evs = [] /\ mq' = mq).
Proof.
  intros Hrx. unfold __mbox_rx_interrupt. rewrite Hrx.
  destruct (rx_irq_loop_reads mbox (rx_irq_fuel mq) mq m)
    as (mq' & m1 & nomem & evs & Hrun & Htr & Hfifo & Hfull & Hwarn & Hmask & Hnomem
        & Hcap & Hidle & _).
  { unfold rx_irq_fuel. lia. }
  rewrite Hrun.
  assert (Hmq : fifo_empty (ops mbox) (hw m) = true -> fifo_reads evs = [] /\ mq' = mq).
  { intros He. destruct (Hidle He) as [Hreads ->]. split; [exact Hreads|].
    rewrite Hreads in Hfifo. cbn [msgs_bytes map concat] in Hfifo.
    rewrite app_nil_r in Hfifo.
    destruct mq' as [f' fl'], mq as [[sz buf] fl]. cbn in *. subst. reflexivity. }
  unfold ack_mbox_irq.
  destruct nomem; [|destruct (ack_irq (ops mbox))].
  - exists mq', (emit EvScheduleWork m1), (evs ++ [EvScheduleWork]).
    split; [reflexivity|].
    split; [machine_simpl; rewrite Htr, <- app_assoc; reflexivity|].
    split; [rewrite fifo_reads_app, !fifo_reads_cons, app_nil_r; exact Hfifo|].
    split; [rewrite count_events_app, Hwarn; reflexivity|].
    split; [exact Hcap|].
    intros He. destruct (Hmq He) as [Hr ->].
    rewrite fifo_reads_app, Hr. split; reflexivity.
  - eexists mq', _, (evs ++ [EvAckIrq IRQ_RX; EvScheduleWork]).
    split; [reflexivity|].
    split; [machine_simpl; rewrite Htr, <- app_assoc; reflexivity|].
    split; [rewrite fifo_reads_app, !fifo_reads_cons, app_nil_r; exact Hfifo|].
    split; [rewrite count_events_app, Hwarn; reflexivity|].
    split; [exact Hcap|].
    intros He. destruct (Hmq He) as [Hr ->].
    rewrite fifo_reads_app, Hr. split; reflexivity.
  - exists mq', (emit EvScheduleWork m1), (evs ++ [EvScheduleWork]).
    split; [reflexivity|].
    split; [machine_simpl; rewrite Htr, <- app_assoc; reflexivity|].
    split; [rewrite fifo_reads_app, !fifo_reads_cons, app_nil_r; exact Hfifo|].
    split; [rewrite count_events_app, Hwarn; reflexivity|].
    split; [exact Hcap|].
    intros He. destruct (Hmq He) as [Hr ->].
    rewrite fifo_reads_app, Hr. split; reflexivity.
Qed.

Lemma notify_dispatched (nbs : list nat) (len : Z) (msg : mbox_msg_t) :
  dispatched (map (fun nb => EvNotify nb len msg) nbs) = map (fun nb => (nb, msg)) nbs /\
  count_events is_rx_unmask_event (map (fun nb => EvNotify nb len msg) nbs) = 0%nat.
Proof.
  induction nbs as [|nb nbs [IHd IHc]]; [split; reflexivity|].
  cbn [map]. rewrite dispatched_cons, count_events_cons, IHd, IHc. split; reflexivity.
Qed.

Lemma rx_work_events_dispatched (nbs : list nat) (msgs : list mbox_msg_t) :
  forall fl,
    dispatched (rx_work_events nbs fl msgs) = deliveries nbs msgs /\
    count_events is_rx_unmask_event (rx_work_events nbs fl msgs) =
      (if fl && negb (is_nil msgs) then 1 else 0)%nat.
Proof.
  induction msgs as [|msg msgs IH]; intros fl.
  - rewrite andb_false_r. split; reflexivity.
  - cbn [rx_work_events deliveries is_nil negb]. rewrite andb_true_r.
    destruct (IH false) as [IHd IHc].
    destruct (notify_dispatched nbs sizeof_msg msg) as [Hd Hc].
    rewrite !dispatched_app, !count_events_app, Hd, Hc, IHd, IHc.
    destruct fl; split; reflexivity.
Qed.

(** X8: the receive path as a whole, on a receive queue of whole messages at
    least one message wide and hardware that delivers 32-bit messages.  The
    interrupt handler followed by one run of the receive task both return;
    the task hands to every observer, in registration order, first the
    messages that were queued and then the messages the handler read from the
    hardware, each in its order, and leaves the queue empty.  If the handler
    masked the RX-ready interrupt, the task unmasks it, and the [full] flag is
    clear afterwards unless it was set with nothing to deliver. *)
Theorem rx_path_delivers_in_order (mbox : omap_mbox) (mq : omap_mbox_queue)
    (msgs : list mbox_msg_t) (msg0 : mbox_msg_t) (m : machine) :
  rxq mbox = QLive mq ->
  kfifo_buf (fifo mq) = msgs_bytes msgs ->
  Forall is_u32 msgs ->
  sizeof_msg <= kfifo_size (fifo mq) ->
  (forall h, is_u32 (fifo_read (ops mbox) h).1) ->
  exists mbox1 m1 evs1 mbox2 m2 evs2,
    __mbox_rx_interrupt mbox m = Some (mbox1, m1) /\
    trace m1 = trace m ++ evs1 /\
    mbox_rx_work mbox1 msg0 m1 = Some (mbox2, m2) /\
    trace m2 = trace m1 ++ evs2 /\
    dispatched evs2 = deliveries (notifier mbox) (msgs ++ fifo_reads evs1) /\
    rxq mbox2 =
      QLive (set_full (with_buf mq []) (full mq && is_nil (msgs ++ fifo_reads evs1))) /\
    (count_events is_rx_mask_event evs1 <= count_events is_rx_unmask_event evs2)%nat.
Proof.
  intros Hrx Hbuf Hmsgs Hsize Hu32.
  destruct mq as [[size buf] fl]. cbn [fifo kfifo_buf kfifo_size] in *. subst buf.
  destruct (rx_irq_loop_reads mbox
              (rx_irq_fuel {| fifo := {| kfifo_size := size; kfifo_buf := msgs_bytes msgs |};
                              full := fl |})
              {| fifo := {| kfifo_size := size; kfifo_buf := msgs_bytes msgs |}; full := fl |} m)
    as (mq' & m1 & nomem & evs & Hrun & Htr & Hfifo & Hfull & _ & Hmask & Hnomem & _ & _ & Hu).
  { unfold rx_irq_fuel. lia. }
  specialize (Hu Hu32).
  destruct mq' as [f' fl']. cbn [fifo full kfifo_size kfifo_buf] in *. subst f' fl'.
  assert (Hall : Forall is_u32 (msgs ++ fifo_reads evs)) by (apply Forall_app; auto).
  set (tail_evs := (if nomem then [] else
                      match ack_irq (ops mbox) with
                      | Some _ => [EvAckIrq IRQ_RX]
                      | None => []
                      end) ++ [EvScheduleWork]).
  assert (Htail : fifo_reads (evs ++ tail_evs) = fifo_reads evs /\
                  count_events is_rx_mask_event (evs ++ tail_evs) =
                    count_events is_rx_mask_event evs).
  { rewrite fifo_reads_app, count_events_app. unfold tail_evs.
    destruct nomem; [|destruct (ack_irq (ops mbox))];
      cbn [app]; rewrite ?fifo_reads_cons, ?count_events_cons;
      change (fifo_reads []) with (@nil mbox_msg_t); rewrite count_events_nil;
      cbn [is_rx_mask_event]; rewrite app_nil_r; split; lia || reflexivity. }
  destruct Htail as [Hreads Hmasks].
  pose (m1' := emit EvScheduleWork (if nomem then m1 else ack_mbox_irq mbox IRQ_RX m1)).
  assert (Htr1 : trace m1' = trace m ++ evs ++ tail_evs).
  { unfold m1', tail_evs, ack_mbox_irq.
    destruct nomem; [|destruct (ack_irq (ops mbox))];
      machine_simpl; rewrite Htr, <- ?app_assoc; reflexivity. }
  pose (mq1 := {| fifo := {| kfifo_size := size;
                             kfifo_buf := msgs_bytes msgs ++ msgs_bytes (fifo_reads evs) |};
                  full := if nomem then true else fl |}).
  assert (Hwork := rx_work_loop_msgs (set_rxq mbox (QLive mq1)) size []
                     (msgs ++ fifo_reads evs) Hall).
  specialize (Hwork ltac:(cbn; lia)
                (S (length (msgs_bytes msgs ++ msgs_bytes (fifo_reads evs))))
                (if nomem then true else fl) msg0 m1').
  rewrite app_nil_r, msgs_bytes_app in Hwork.
  specialize (Hwork ltac:(rewrite length_app, length_app, !msgs_bytes_length; lia)).
  destruct (rx_work_events_dispatched (notifier mbox) (msgs ++ fifo_reads evs)
              (if nomem then true else fl)) as [Hdisp Hunmask].
  subst mq1.
  eexists (set_rxq mbox (QLive _)), m1', (evs ++ tail_evs), _, _, _.
  split.
  { unfold __mbox_rx_interrupt. rewrite Hrx, Hrun. reflexivity. }
  split; [exact Htr1|].
  split.
  { unfold mbox_rx_work. cbn [rxq set_rxq fifo kfifo_buf]. rewrite Hwork. reflexivity. }
  split; [reflexivity|].
  rewrite Hreads, Hmasks, Hmask.
  cbn [notifier set_rxq] in *.
  split; [exact Hdisp|].
  split.
  - cbn [rxq set_rxq with_buf set_fifo set_full fifo kfifo_size full].
    destruct nomem; [|reflexivity].
    assert (Hne : is_nil (msgs ++ fifo_reads evs) = false).
    { specialize (Hnomem eq_refl). unfold kfifo_avail, kfifo_len in Hnomem.
      cbn [kfifo_size kfifo_buf] in Hnomem. rewrite <- msgs_bytes_app in Hnomem.
      destruct (msgs ++ fifo_reads evs); [|reflexivity].
      cbn in Hnomem. unfold sizeof_msg in *. lia. }
    rewrite Hne, !andb_false_r. reflexivity.
  - rewrite Hunmask. destruct nomem; [|lia].
    assert (Hne : is_nil (msgs ++ fifo_reads evs) = false).
    { specialize (Hnomem eq_refl). unfold kfifo_avail, kfifo_len in Hnomem.
      cbn [kfifo_size kfifo_buf] in Hnomem. rewrite <- msgs_bytes_app in Hnomem.
      destruct (msgs ++ fifo_reads evs); [|reflexivity].
      cbn in Hnomem. unfold sizeof_msg in *. lia. }
    rewrite Hne. cbn. lia.
Qed.

(** X9: the interrupt entry point on a channel with both queues always
    returns [IRQ_HANDLED] and keeps the transmit queue as it is.  With neither
    condition pending it changes nothing.  With TX-ready pending it disables
    the TX-ready interrupt before anything else and schedules the deferred
    transmit task. *)
Theorem mbox_interrupt_handled (mbox : omap_mbox) (qt qr : omap_mbox_queue) (m : machine) :
  txq mbox = QLive qt ->
  rxq mbox = QLive qr ->
  exists mbox' m' evs,
    mbox_interrupt mbox m = Some (IRQ_HANDLED, mbox', m') /\
    txq mbox' = QLive qt /\
    trace m' = trace m ++ evs /\
    (is_mbox_irq mbox IRQ_TX m = false -> is_mbox_irq mbox IRQ_RX m = false ->
     mbox' = mbox /\ m' = m) /\
    (is_mbox_irq mbox IRQ_TX m = true ->
     exists rest, evs = EvDisableIrq IRQ_TX :: rest /\ In EvTaskletSchedule rest).
Proof.
  intros Htx Hrx. unfold mbox_interrupt.
  assert (Hrxirq : forall m0 : machine,
             exists mq' m' evs,
               __mbox_rx_interrupt mbox m0 = Some (set_rxq mbox (QLive mq'), m') /\
               trace m' = trace m0 ++ evs).
  { intros m0. unfold __mbox_rx_interrupt. rewrite Hrx.
    destruct (rx_irq_loop_reads mbox (rx_irq_fuel qr) qr m0)
      as (mq' & m1 & nomem & evs & Hrun & Htr & _); [unfold rx_irq_fuel; lia|].
    rewrite Hrun. unfold ack_mbox_irq.
    destruct nomem; [|destruct (ack_irq (ops mbox))]; eexists mq', _, (evs ++ _);
      (split; [reflexivity|]); machine_simpl; rewrite Htr, <- ?app_assoc; reflexivity. }
  destruct (is_mbox_irq mbox IRQ_TX m) eqn:Htxirq.
  - unfold __mbox_tx_interrupt. rewrite Htx.
    set (mt := emit EvTaskletSchedule
                 (ack_mbox_irq mbox IRQ_TX (omap_mbox_disable_irq mbox IRQ_TX m))).
    assert (Hmt : exists rest, trace mt = trace m ++ EvDisableIrq IRQ_TX :: rest /\
                               In EvTaskletSchedule rest).
    { unfold mt, ack_mbox_irq. destruct (ack_irq (ops mbox)).
      - exists [EvAckIrq IRQ_TX; EvTaskletSchedule].
        split; [machine_simpl; reflexivity|]. right. left. reflexivity.
      - exists [EvTaskletSchedule].
        split; [machine_simpl; reflexivity|]. left. reflexivity. }
    destruct Hmt as (rest & Hmt & Hin).
    destruct (is_mbox_irq mbox IRQ_RX mt).
    + destruct (Hrxirq mt) as (mq' & m' & evs & Hrun & Htr). rewrite Hrun.
      exists (set_rxq mbox (QLive mq')), m', (EvDisableIrq IRQ_TX :: rest ++ evs).
      split; [reflexivity|]. split; [exact Htx|].
      split; [rewrite Htr, Hmt, <- app_assoc; reflexivity|].
      split; [intros Hn; discriminate Hn|].
      intros _. eexists. split; [reflexivity|]. apply in_or_app. left. exact Hin.
    + exists mbox, mt, (EvDisableIrq IRQ_TX :: rest).
      split; [reflexivity|]. split; [exact Htx|]. split; [exact Hmt|].
      split; [intros Hn; discriminate Hn|].
      intros _. eexists. split; [reflexivity|]. exact Hin.
  - destruct (is_mbox_irq mbox IRQ_RX m) eqn:Hrxpend.
    + destruct (Hrxirq m) as (mq' & m' & evs & Hrun & Htr). rewrite Hrun.
      exists (set_rxq mbox (QLive mq')), m', evs.
      split; [reflexivity|]. split; [exact Htx|]. split; [exact Htr|].
      split; [intros _ Hn; discriminate Hn | intros Hn; discriminate Hn].
    + exists mbox, m, []. rewrite app_nil_r.
      split; [reflexivity|]. split; [exact Htx|]. split; [reflexivity|].
      split; [auto|]. intros Hn; discriminate Hn.
Qed.

(** ** The data path against the hardware log *)

Lemma replay_hw_app (o : omap_mbox_ops HW) (a b : list event) :
  forall h,
    replay_hw udelay o (a ++ b) h =
      match replay_hw udelay o a h with
      | Some h1 => replay_hw udelay o b h1
      | None => None
      end.
Proof.
  induction a as [|e a IH]; intros h; [reflexivity|].
  cbn [app replay_hw]. destruct (replay_step udelay o e h); [apply IH | reflexivity].
Qed.

Lemma poll_events_tx (evs : list event) :
  Forall (fun e => is_poll_event e = true) evs ->
  Forall (fun e => is_tx_task_event e = true) evs /\
  count_events is_tx_unmask_event evs = 0%nat.
Proof.
  induction 1 as [|e evs He _ [IHf IHc]]; [split; [constructor | reflexivity]|].
  rewrite count_events_cons, IHc.
  destruct e; try discriminate He; (split; [constructor; [reflexivity | exact IHf] | reflexivity]).
Qed.

(** The poll, as the hardware saw it. *)
Lemma poll_loop_replay (mbox : omap_mbox) (fuel : nat) :
  forall (i : Z) (m m1 : machine) (r : Z),
    poll_loop udelay fuel mbox i m = Some (r, m1) ->
    exists evs0,
      trace m1 = trace m ++ evs0 ++ [EvFifoFull (negb (r =? 0))] /\
      Forall (fun e => is_poll_event e = true) (evs0 ++ [EvFifoFull (negb (r =? 0))]) /\
      replay_hw udelay (ops mbox) (evs0 ++ [EvFifoFull (negb (r =? 0))]) (hw m) =
        Some (hw m1) /\
      count_events is_fifo_space_event (evs0 ++ [EvFifoFull (negb (r =? 0))]) =
        (if r =? 0 then 1%nat else 0%nat) /\
      fifo_full (ops mbox) (hw m1) = negb (r =? 0).
Proof.
  induction fuel as [|fuel IH]; intros i m m1 r Hrun; [discriminate Hrun|].
  cbn [poll_loop mbox_fifo_full] in Hrun.
  destruct (fifo_full (ops mbox) (hw m)) eqn:Hfull.
  - assert (Hstop : forall m', Some (-1, emit (EvFifoFull true) m) = Some (r, m') ->
                    m' = m1 ->
                    exists evs0,
                      trace m1 = trace m ++ evs0 ++ [EvFifoFull (negb (r =? 0))] /\
                      Forall (fun e => is_poll_event e = true)
                        (evs0 ++ [EvFifoFull (negb (r =? 0))]) /\
                      replay_hw udelay (ops mbox) (evs0 ++ [EvFifoFull (negb (r =? 0))])
                        (hw m) = Some (hw m1) /\
                      count_events is_fifo_space_event
                        (evs0 ++ [EvFifoFull (negb (r =? 0))]) =
                        (if r =? 0 then 1%nat else 0%nat) /\
                      fifo_full (ops mbox) (hw m1) = negb (r =? 0)).
    { intros m' Heq <-. injection Heq as <- <-. exists [].
      cbn [app Z.eqb negb emit hw trace replay_hw replay_step]. rewrite Hfull.
      split; [reflexivity|]. split; [constructor; [reflexivity | constructor]|].
      split; [reflexivity|]. split; reflexivity. }
    destruct (is_type2 (type (ops mbox))); [exact (Hstop m1 Hrun eq_refl)|].
    destruct (int_wrap (i - 1) =? 0); [exact (Hstop m1 Hrun eq_refl)|].
    destruct (IH _ _ _ _ Hrun) as (evs0 & Htr & Hpoll & Hrep & Hcnt & Hlast).
    exists (EvFifoFull true :: EvUdelay :: evs0).
    split; [rewrite Htr; machine_simpl; reflexivity|].
    split; [cbn [app]; constructor; [reflexivity|]; constructor; [reflexivity | exact Hpoll]|].
    split.
    { cbn [app replay_hw replay_step]. rewrite Hfull. cbn [Bool.eqb]. exact Hrep. }
    split; [|exact Hlast].
    cbn [app]. rewrite !count_events_cons. cbn [is_fifo_space_event Nat.add]. exact Hcnt.
  - injection Hrun as <- <-. exists [].
    cbn [app Z.eqb negb emit hw trace replay_hw replay_step]. rewrite Hfull.
    split; [reflexivity|]. split; [constructor; [reflexivity | constructor]|].
    split; [reflexivity|]. split; reflexivity.
Qed.

(** One run of the loop of the transmit task, as the hardware saw it. *)
Lemma tx_loop_run (mbox : omap_mbox) (size : Z) (fl : bool) (msgs : list mbox_msg_t) :
  Forall is_u32 msgs ->
  forall fuel msg0 m,
    (length msgs < fuel)%nat ->
    exists k m' evs,
      tx_loop udelay fuel mbox
        {| fifo := {| kfifo_size := size; kfifo_buf := msgs_bytes msgs |}; full := fl |}
        msg0 m =
      Some ({| fifo := {| kfifo_size := size; kfifo_buf := msgs_bytes (drop k msgs) |};
               full := fl |}, m') /\
      (k <= length msgs)%nat /\
      trace m' = trace m ++ evs /\
      replay_hw udelay (ops mbox) evs (hw m) = Some (hw m') /\
      Forall (fun e => is_tx_task_event e = true) evs /\
      fifo_writes evs = take k msgs /\
      count_events is_fifo_space_event evs = k /\
      count_events is_tx_unmask_event evs = (if (k <? length msgs)%nat then 1 else 0)%nat /\
      ((k < length msgs)%nat ->
       exists evs0, evs = evs0 ++ [EvFifoFull true; EvEnableIrq IRQ_TX]).
Proof.
  induction 1 as [|msg msgs Hmsg _ IH]; intros fuel msg0 m Hfuel.
  - destruct fuel as [|fuel]; [cbn in Hfuel; lia|].
    exists 0%nat, m, []. rewrite app_nil_r.
    split; [reflexivity|]. split; [lia|]. split; [reflexivity|]. split; [reflexivity|].
    split; [constructor|]. split; [reflexivity|]. split; [reflexivity|].
    split; [reflexivity|]. intros Hlt. cbn [length] in Hlt. lia.
  - destruct fuel as [|fuel]; [cbn in Hfuel; lia|].
    rewrite msgs_bytes_cons, tx_loop_step by assumption.
    destruct (poll_for_space_total mbox m) as (r & m1 & evs1 & Hpoll & _ & _ & _).
    rewrite Hpoll. unfold __mbox_poll_for_space in Hpoll.
    destruct (poll_loop_replay mbox _ _ _ _ _ Hpoll)
      as (pevs0 & Htr1 & Hpevs & Hrep1 & Hspace1 & Hlast).
    destruct (poll_events_quiet _ Hpevs) as [Hw1 _].
    destruct (poll_events_tx _ Hpevs) as [Htx1 Hun1].
    destruct (r =? 0) eqn:Hr; cbn [negb] in *.
    + destruct (IH fuel msg (mbox_fifo_write mbox msg (emit (EvKfifoOut TXQ sizeof_msg) m1)))
        as (k & m' & evs & Hrun & Hk & Htr & Hrep & Htx & Hwr & Hspace & Hun & Hstop);
        [cbn in Hfuel; lia|].
      exists (S k), m',
        ((pevs0 ++ [EvFifoFull false]) ++ [EvKfifoOut TXQ sizeof_msg; EvFifoWrite msg] ++ evs).
      split; [exact Hrun|]. split; [cbn [length]; lia|].
      split; [rewrite Htr; machine_simpl; rewrite Htr1, <- !app_assoc; reflexivity|].
      split.
      { rewrite replay_hw_app, Hrep1. cbn [app replay_hw replay_step]. exact Hrep. }
      split.
      { apply Forall_app. split; [exact Htx1|].
        cbn [app]. constructor; [reflexivity|]. constructor; [reflexivity | exact Htx]. }
      split.
      { rewrite fifo_writes_app, Hw1. cbn [app].
        rewrite !fifo_writes_cons, Hwr. reflexivity. }
      split.
      { rewrite count_events_app, Hspace1. cbn [app].
        rewrite !count_events_cons, Hspace. reflexivity. }
      split.
      { rewrite count_events_app, Hun1. cbn [app].
        rewrite !count_events_cons, Hun. reflexivity. }
      intros Hlt. destruct Hstop as [evs0 ->]; [cbn [length] in Hlt; lia|].
      exists ((pevs0 ++ [EvFifoFull false]) ++
              [EvKfifoOut TXQ sizeof_msg; EvFifoWrite msg] ++ evs0).
      rewrite <- !app_assoc. reflexivity.
    + exists 0%nat, (omap_mbox_enable_irq mbox IRQ_TX m1),
        ((pevs0 ++ [EvFifoFull true]) ++ [EvEnableIrq IRQ_TX]).
      split; [reflexivity|]. split; [lia|].
      split; [machine_simpl; rewrite Htr1, <- !app_assoc; reflexivity|].
      split.
      { rewrite replay_hw_app, Hrep1. reflexivity. }
      split.
      { apply Forall_app. split; [exact Htx1|]. constructor; [reflexivity | constructor]. }
      split; [rewrite fifo_writes_app, Hw1; reflexivity|].
      split; [rewrite count_events_app, Hspace1; reflexivity|].
      split; [rewrite count_events_app, Hun1; reflexivity|].
      intros _. exists pevs0. rewrite <- app_assoc. reflexivity.
Qed.

(** C7: one run of the deferred transmit task on a queue of whole messages.
    It returns, with some first [k] messages gone from the queue and the
    others still queued.  The trace is a log of what the hardware saw and the
    hardware is what the logged writes, delays and unmasking made of it: the
    task does nothing but poll, dequeue, write and unmask; the messages
    written to the hardware FIFO are those [k], in queue order, each after a
    poll that found room; the TX-ready interrupt is re-enabled exactly when
    the task stops before the queue is empty, which it does only right after
    a poll that found the FIFO full.  On an empty queue it does nothing.  On a
    queue that starts with [msg] it polls the hardware, which answers 0
    exactly if the FIFO is not full after the poll: if the poll fails the
    task re-enables the TX-ready interrupt and stops, the queue as it was;
    otherwise it takes exactly [msg] out, writes it to the hardware FIFO and
    goes on with the rest. *)
Theorem tx_tasklet_drains (mbox : omap_mbox) (mq : omap_mbox_queue)
    (msgs : list mbox_msg_t) (msg0 : mbox_msg_t) (m : machine) :
  txq mbox = QLive mq ->
  kfifo_buf (fifo mq) = msgs_bytes msgs ->
  Forall is_u32 msgs ->
  (exists k m' evs,
      mbox_tx_tasklet udelay mbox msg0 m =
        Some (set_txq mbox (QLive (with_buf mq (msgs_bytes (drop k msgs)))), m') /\
      (k <= length msgs)%nat /\
      trace m' = trace m ++ evs /\
      replay_hw udelay (ops mbox) evs (hw m) = Some (hw m') /\
      Forall (fun e => is_tx_task_event e = true) evs /\
      fifo_writes evs = take k msgs /\
      count_events is_fifo_space_event evs = k /\
      count_events is_tx_unmask_event evs = (if (k <? length msgs)%nat then 1 else 0)%nat /\
      ((k < length msgs)%nat ->
       exists evs0, evs = evs0 ++ [EvFifoFull true; EvEnableIrq IRQ_TX])) /\
  (msgs = [] -> mbox_tx_tasklet udelay mbox msg0 m = Some (mbox, m)) /\
  (forall msg rest,
      msgs = msg :: rest ->
      exists r m1 pevs,
        __mbox_poll_for_space udelay mbox m = Some (r, m1) /\
        trace m1 = trace m ++ pevs /\
        Forall (fun e => is_poll_event e = true) pevs /\
        replay_hw udelay (ops mbox) pevs (hw m) = Some (hw m1) /\
        (r = 0 <-> fifo_full (ops mbox) (hw m1) = false) /\
        (r <> 0 ->
         mbox_tx_tasklet udelay mbox msg0 m =
           Some (mbox, {| hw := enable_irq (ops mbox) IRQ_TX (hw m1);
                          trace := trace m1 ++ [EvEnableIrq IRQ_TX] |})) /\
        (r = 0 ->
         mbox_tx_tasklet udelay mbox msg0 m =
           mbox_tx_tasklet udelay (set_txq mbox (QLive (with_buf mq (msgs_bytes rest)))) msg
             {| hw := fifo_write (ops mbox) msg (hw m1);
                trace := trace m1 ++ [EvKfifoOut TXQ sizeof_msg; EvFifoWrite msg] |})).
Proof.
  intros Htx Hbuf Hmsgs.
  destruct mq as [[size buf] fl]. cbn [fifo kfifo_buf] in Hbuf. subst buf.
  unfold mbox_tx_tasklet. rewrite Htx. cbn [fifo kfifo_buf with_buf set_fifo kfifo_size full].
  split; [|split].
  - destruct (tx_loop_run mbox size fl msgs Hmsgs (S (length (msgs_bytes msgs))) msg0 m)
      as (k & m' & evs & Hrun & Hrest).
    { rewrite msgs_bytes_length. lia. }
    exists k, m', evs. rewrite Hrun. split; [reflexivity | exact Hrest].
  - intros ->. cbn -[set_txq]. change (kfifo_len _ =? 0) with true. cbn iota.
    rewrite set_txq_same by assumption. reflexivity.
  - intros msg rest ->.
    inversion Hmsgs as [|? ? Hmsg Hrest]; subst.
    destruct (poll_for_space_total mbox m) as (r & m1 & evs1 & Hpoll & _ & _ & _).
    pose proof Hpoll as Hloop. unfold __mbox_poll_for_space in Hloop.
    destruct (poll_loop_replay mbox _ _ _ _ _ Hloop)
      as (pevs0 & Htr1 & Hpevs & Hrep1 & _ & Hlast).
    exists r, m1, (pevs0 ++ [EvFifoFull (negb (r =? 0))]).
    split; [exact Hpoll|]. split; [exact Htr1|]. split; [exact Hpevs|].
    split; [exact Hrep1|].
    split.
    { rewrite Hlast. destruct (r =? 0) eqn:Hr; cbn [negb].
      - apply Z.eqb_eq in Hr. split; auto.
      - apply Z.eqb_neq in Hr. split; [contradiction | discriminate]. }
    rewrite msgs_bytes_cons.
    rewrite tx_loop_step, Hpoll by assumption.
    split.
    + intros Hr. apply Z.eqb_neq in Hr. rewrite Hr.
      rewrite set_txq_same by assumption. reflexivity.
    + intros ->. cbn [Z.eqb set_txq txq with_buf set_fifo fifo kfifo_buf kfifo_size full].
      change (mbox_fifo_write mbox msg (emit (EvKfifoOut TXQ sizeof_msg) m1))
        with {| hw := fifo_write (ops mbox) msg (hw m1);
                trace := (trace m1 ++ [EvKfifoOut TXQ sizeof_msg]) ++ [EvFifoWrite msg] |}.
      rewrite <- app_assoc. cbn [app].
      match goal with
      | |- context [tx_loop udelay _ mbox _ msg ?mm] =>
          destruct (tx_loop_run mbox size fl rest Hrest (S (length (msgs_bytes rest))) msg mm)
            as (k & m' & evs & Hrun & _)
      end.
      { rewrite msgs_bytes_length. lia. }
      rewrite (tx_loop_ops (set_txq mbox _) mbox) by reflexivity.
      unfold with_buf, set_fifo. cbn [fifo kfifo_size full kfifo_buf].
      rewrite Hrun.
      rewrite (tx_loop_fuel _ _ (length (msg_bytes msg ++ msgs_bytes rest)) _ _ _ _ Hrun).
      * reflexivity.
      * rewrite length_app. cbn [length msg_bytes]. lia.
Qed.



(** ** Opening and closing, path by path *)

Lemma int_wrap_succ_pred (z : Z) :
  - 2 ^ 31 <= z < 2 ^ 31 -> int_wrap (int_wrap (z + 1) - 1) = z.
Proof.
  intros Hz. unfold int_wrap.
  destruct (Z.eq_dec z (2 ^ 31 - 1)) as [->|Hne]; [reflexivity|].
  rewrite (Z.mod_small (z + 1 + 2 ^ 31)) by lia.
  rewrite Z.mod_small; lia.
Qed.

(** X10: an open that fails -- the startup callback reports an error, a
    queue cannot be allocated, or the interrupt line is refused -- leaves the
    use count of the channel as it was, frees every queue it allocated, and
    gives back the power-domain reference it took.  The activation counter
    stays incremented. *)
Theorem failed_open_rolls_back (env : open_env) (p : nat) (s s' : system)
    (mbox : omap_mbox) (ret : Z) :
  chans s !! p = Some mbox ->
  - 2 ^ 31 <= use_count mbox < 2 ^ 31 ->
  omap_mbox_startup env p s = Some (ret, s') ->
  ret <> 0 ->
  exists mbox' evs,
    chans s' !! p = Some mbox' /\
    use_count mbox' = use_count mbox /\
    trace (mach s') = trace (mach s) ++ evs /\
    count_events is_queue_alloc_event evs = count_events is_queue_free_event evs /\
    count_events is_pm_get_event evs = 1%nat /\
    count_events is_pm_put_event evs = 1%nat /\
    mbox_configured s' = int_wrap (mbox_configured s + 1).
Proof.
  intros Hmbox Hrange. pose proof (lookup_lt_Some _ _ _ Hmbox) as Hp.
  pose proof (int_wrap_succ_pred _ Hrange) as Hback.
  unfold omap_mbox_startup. rewrite Hmbox.
  unfold startup_channel, mbox_queue_alloc, fail_request_irq, fail_alloc_rxq,
    fail_alloc_txq, fail_startup, mbox_queue_free.
  destruct (mbox_configured s =? 0);
    [destruct (startup (ops mbox)) as [f|];
     [destruct (f _) as [r h]; destruct (r =? 0) eqn:Hr|]|];
    try destruct (use_count mbox =? 0) eqn:Hfirst;
    try destruct (kzalloc_txq env); try destruct (kfifo_alloc_txq env);
    try destruct (kzalloc_rxq env); try destruct (kfifo_alloc_rxq env);
    try destruct (request_irq env =? 0) eqn:Hirq;
    cbn [txq rxq set_txq set_rxq set_use_count ops name use_count];
    try destruct (shutdown (ops mbox));
    intros [= <- <-] Hret;
    try (exfalso; apply Hret; reflexivity);
    try (apply Z.eqb_eq in Hfirst);
    (eexists _, _;
     cbn [chans mach mbox_configured set_mach set_chan set_mbox_configured];
     split; [apply list_lookup_insert_eq; exact Hp|];
     cbn [use_count txq set_txq set_rxq set_use_count];
     split; [first [exact Hback | reflexivity]|];
     split; [machine_simpl; reflexivity|];
     count_explicit; repeat split; reflexivity).
Qed.

(** X11: the open of a channel that is already in use, on a link that is
    already active, cannot fail and allocates nothing, whatever the kernel
    would answer: it takes a power-domain reference and counts. *)
Theorem reopen_only_counts (env : open_env) (p : nat) (s : system) (mbox : omap_mbox) :
  chans s !! p = Some mbox ->
  mbox_configured s <> 0 ->
  use_count mbox <> 0 ->
  omap_mbox_startup env p s =
    Some (0, {| chans := <[p := set_use_count mbox (int_wrap (use_count mbox + 1))]> (chans s);
                mboxes := mboxes s;
                mbox_configured := int_wrap (mbox_configured s + 1);
                mach := {| hw := hw (mach s);
                           trace := trace (mach s) ++
                                    [EvMutexLock; EvPmGet; EvMutexUnlock] |} |}).
Proof.
  intros Hmbox Hcfg Huc. unfold omap_mbox_startup. rewrite Hmbox.
  apply Z.eqb_neq in Hcfg, Huc. rewrite Hcfg. unfold startup_channel. rewrite Huc.
  unfold set_mach, set_chan, set_mbox_configured. cbn [chans mboxes mbox_configured mach].
  machine_simpl. reflexivity.
Qed.

(** X12: a close of a channel in use (with its queues) always returns and
    gives back one power-domain reference.  If it is the last close, it frees
    the interrupt line, kills the transmit tasklet and frees both queues, and
    the two queue pointers of the channel keep pointing to the freed queues;
    otherwise it frees nothing and the queues stay. *)
Theorem close_frees_on_last_use (p : nat) (s : system) (mbox : omap_mbox)
    (qt qr : omap_mbox_queue) :
  chans s !! p = Some mbox ->
  txq mbox = QLive qt ->
  rxq mbox = QLive qr ->
  0 < use_count mbox < 2 ^ 31 ->
  exists s' mbox' evs,
    omap_mbox_fini p s = Some s' /\
    chans s' !! p = Some mbox' /\
    use_count mbox' = use_count mbox - 1 /\
    trace (mach s') = trace (mach s) ++ evs /\
    count_events is_pm_put_event evs = 1%nat /\
    (use_count mbox = 1 ->
     txq mbox' = QFreed /\ rxq mbox' = QFreed /\
     exists rest,
       evs = [EvMutexLock; EvFlushWork; EvFreeIrq (name mbox); EvTaskletKill;
              EvQueueFree TXQ; EvQueueFree RXQ] ++ rest /\
       count_events is_queue_free_event rest = 0%nat) /\
    (use_count mbox <> 1 ->
     txq mbox' = QLive qt /\ rxq mbox' = QLive qr /\
     count_events is_queue_free_event evs = 0%nat).
Proof.
  intros Hmbox Htx Hrx Hrange. pose proof (lookup_lt_Some _ _ _ Hmbox) as Hp.
  unfold omap_mbox_fini. rewrite Hmbox, Hrx.
  cbn [use_count set_use_count txq rxq].
  rewrite int_wrap_small by lia. rewrite Htx, Hrx. cbn [mbox_queue_free].
  destruct (use_count mbox - 1 =? 0) eqn:Hlast;
    cbn [ops name set_rxq set_txq set_use_count];
    destruct (shutdown (ops mbox)) as [sh|];
    try destruct (int_wrap (mbox_configured s - 1) =? 0);
    (eexists _, _, _;
     split; [reflexivity|];
     cbn [chans mach set_mach set_chan set_mbox_configured];
     split; [apply list_lookup_insert_eq; exact Hp|];
     split; [reflexivity|];
     split; [machine_simpl; reflexivity|];
     split; [count_explicit; reflexivity|]).
  all: first [apply Z.eqb_eq in Hlast | apply Z.eqb_neq in Hlast].
  all: split; [intros Hone | intros Hmany]; try lia.
  all: cbn [txq rxq set_txq set_rxq set_use_count]; rewrite ?Htx, ?Hrx.
  all: split; [reflexivity|]; split; [reflexivity|].
  all: try (eexists; split; [reflexivity|]; count_explicit; reflexivity).
  all: count_explicit; reflexivity.
Qed.

Lemma is_live_true (q : qptr) : is_live q = true -> exists mq, q = QLive mq.
Proof. destruct q as [|mq|]; try discriminate. intros _. exists mq. reflexivity. Qed.

(** X13: every open, granted or failing, returns and keeps, on every
    channel, the queues allocated exactly when the use count is not 0. *)
Theorem open_keeps_queues_with_use (env : open_env) (p : nat) (s : system)
    (mbox : omap_mbox) :
  Forall chan_wf (chans s) ->
  chans s !! p = Some mbox ->
  use_count mbox < 2 ^ 31 - 1 ->
  exists ret s',
    omap_mbox_startup env p s = Some (ret, s') /\
    Forall chan_wf (chans s') /\
    length (chans s') = length (chans s).
Proof.
  intros Hall Hmbox Hmax.
  pose proof (Forall_lookup_1 _ _ _ _ Hall Hmbox) as (Hnn & Htxl & Hrxl).
  assert (Hback : int_wrap (int_wrap (use_count mbox + 1) - 1) = use_count mbox)
    by (apply int_wrap_succ_pred; lia).
  assert (Hnext : int_wrap (use_count mbox + 1) = use_count mbox + 1)
    by (apply int_wrap_small; lia).
  assert (Hpos : (use_count mbox + 1 =? 0) = false) by (apply Z.eqb_neq; lia).
  unfold omap_mbox_startup. rewrite Hmbox.
  unfold startup_channel, mbox_queue_alloc, fail_request_irq, fail_alloc_rxq,
    fail_alloc_txq, fail_startup, mbox_queue_free.
  destruct (mbox_configured s =? 0);
    [destruct (startup (ops mbox)) as [f|];
     [destruct (f _) as [r h]; destruct (r =? 0)|]|];
    try destruct (use_count mbox =? 0) eqn:Hfirst;
    try destruct (kzalloc_txq env); try destruct (kfifo_alloc_txq env);
    try destruct (kzalloc_rxq env); try destruct (kfifo_alloc_rxq env);
    try destruct (request_irq env =? 0);
    cbn [txq rxq set_txq set_rxq set_use_count ops name use_count];
    try destruct (shutdown (ops mbox));
    (eexists _, _; split; [reflexivity|];
     cbn [chans set_mach set_chan set_mbox_configured];
     split; [|apply length_insert];
     apply Forall_insert; [exact Hall|];
     unfold chan_wf; cbn [use_count txq rxq set_txq set_rxq set_use_count is_live];
     rewrite ?Hback, ?Hnext, ?Hpos, ?Hfirst; cbn [negb];
     rewrite ?Hfirst in Htxl, Hrxl; cbn [negb] in Htxl, Hrxl;
     repeat split; first [assumption | reflexivity | lia]).
Qed.

(** X14: a close of a channel in use returns and keeps, on every channel, the
    queues allocated exactly when the use count is not 0. *)
Theorem close_keeps_queues_with_use (p : nat) (s : system) (mbox : omap_mbox) :
  Forall chan_wf (chans s) ->
  chans s !! p = Some mbox ->
  use_count mbox <> 0 ->
  use_count mbox < 2 ^ 31 ->
  exists s',
    omap_mbox_fini p s = Some s' /\
    Forall chan_wf (chans s') /\
    length (chans s') = length (chans s).
Proof.
  intros Hall Hmbox Huse Hmax.
  pose proof (Forall_lookup_1 _ _ _ _ Hall Hmbox) as (Hnn & Htxl & Hrxl).
  apply Z.eqb_neq in Huse. rewrite Huse in Htxl, Hrxl. cbn [negb] in Htxl, Hrxl.
  apply Z.eqb_neq in Huse.
  destruct (is_live_true _ Htxl) as [qt Htx]. destruct (is_live_true _ Hrxl) as [qr Hrx].
  unfold omap_mbox_fini. rewrite Hmbox, Hrx.
  cbn [use_count set_use_count txq rxq].
  rewrite int_wrap_small by lia. rewrite Htx, Hrx. cbn [mbox_queue_free].
  destruct (use_count mbox - 1 =? 0) eqn:Hlast;
    cbn [ops name set_rxq set_txq set_use_count];
    destruct (shutdown (ops mbox)) as [sh|];
    try destruct (int_wrap (mbox_configured s - 1) =? 0);
    (eexists; split; [reflexivity|];
     cbn [chans set_mach set_chan set_mbox_configured];
     split; [|apply length_insert];
     apply Forall_insert; [exact Hall|];
     unfold chan_wf; cbn [use_count txq rxq set_txq set_rxq set_use_count is_live];
     rewrite ?Htx, ?Hrx, ?Hlast; cbn [negb is_live];
     repeat split; first [reflexivity | lia]).
Qed.

(** ** Opens and closes in any order *)

Lemma remove_first_split (p : nat) (pend : list nat) :
  p ∈ pend ->
  exists l1 l2, pend = l1 ++ p :: l2 /\ remove_first p pend = l1 ++ l2.
Proof.
  induction pend as [|x pend IH]; intros Hin; [inversion Hin|].
  cbn [remove_first]. destruct (Nat.eqb x p) eqn:Heq.
  - apply Nat.eqb_eq in Heq. subst x. exists [], pend. split; reflexivity.
  - apply Nat.eqb_neq in Heq.
    apply elem_of_cons in Hin. destruct Hin as [->|Hin]; [contradiction|].
    destruct (IH Hin) as (l1 & l2 & -> & Hrm).
    exists (x :: l1), l2. rewrite Hrm. split; reflexivity.
Qed.

(** X15: opens and closes in any order, on a link whose hardware starts up
    without error and has a shutdown callback, every open granted by the
    kernel and every close matching an outstanding open.  All calls succeed;
    afterwards the activation counter is the number of outstanding opens and
    every channel's use count is the number of its own, with its queues
    allocated while that is not 0.  The startup callback has run once for
    every open that found no open outstanding, and the shutdown callback once
    for every close that left none. *)
Theorem matched_calls_keep_counts (calls : list call) (pend : list nat) (s : system) :
  sys_inv pend s ->
  matched (length (chans s)) pend calls = true ->
  Z.of_nat (length pend + length calls) < 2 ^ 31 ->
  exists s' evs,
    run_calls calls s = Some s' /\
    sys_inv (still_open pend calls) s' /\
    trace (mach s') = trace (mach s) ++ evs /\
    count_events is_startup_event evs = activations pend calls /\
    count_events is_shutdown_event evs = deactivations pend calls.
Proof.
  revert pend s. induction calls as [|[p env|p] calls IH]; intros pend s Hinv Hok Hbound.
  - exists s, []. rewrite app_nil_r.
    split; [reflexivity|]. split; [exact Hinv|]. split; [reflexivity|]. split; reflexivity.
  - cbn [matched] in Hok. rewrite !andb_true_iff in Hok. destruct Hok as [[Hp Henv] Hok].
    apply Nat.ltb_lt in Hp.
    destruct (startup_step pend env p s Hinv Hp Henv)
      as (s1 & evs1 & Hrun1 & Hinv1 & Hlen1 & Htr1 & Hst1 & Hsh1).
    { cbn [length] in Hbound. lia. }
    destruct (IH (p :: pend) s1 Hinv1) as (s2 & evs2 & Hrun2 & Hinv2 & Htr2 & Hst2 & Hsh2).
    { rewrite Hlen1. exact Hok. }
    { cbn [length] in *. lia. }
    exists s2, (evs1 ++ evs2). cbn [run_calls still_open activations deactivations].
    rewrite Hrun1. cbn [Z.eqb].
    split; [exact Hrun2|]. split; [exact Hinv2|].
    split; [rewrite Htr2, Htr1, app_assoc; reflexivity|].
    rewrite !count_events_app, Hst1, Hst2, Hsh1, Hsh2. split; reflexivity.
  - cbn [matched] in Hok. rewrite andb_true_iff, bool_decide_eq_true in Hok.
    destruct Hok as [Hin Hok].
    destruct (remove_first_split p pend Hin) as (l1 & l2 & -> & Hrm).
    rewrite Hrm in Hok.
    destruct (fini_step l1 l2 p s Hinv)
      as (s1 & evs1 & Hrun1 & Hinv1 & Hlen1 & Htr1 & Hst1 & Hsh1).
    { lia. }
    destruct (IH (l1 ++ l2) s1 Hinv1) as (s2 & evs2 & Hrun2 & Hinv2 & Htr2 & Hst2 & Hsh2).
    { rewrite Hlen1. exact Hok. }
    { rewrite length_app in *. cbn [length] in Hbound. lia. }
    exists s2, (evs1 ++ evs2). cbn [run_calls still_open activations deactivations].
    rewrite Hrun1, Hrm.
    split; [exact Hrun2|]. split; [exact Hinv2|].
    split; [rewrite Htr2, Htr1, app_assoc; reflexivity|].
    rewrite !count_events_app, Hst1, Hst2, Hsh1, Hsh2. split; reflexivity.
Qed.

(** ** The registry *)

Lemma find_mbox_skips (cs : list omap_mbox) (nm : string) (l1 l2 : list nat) :
  Forall (fun q => exists mb, cs !! q = Some mb /\ name mb <> nm) l1 ->
  find_mbox cs (l1 ++ l2) nm = find_mbox cs l2 nm.
Proof.
  induction 1 as [|q l1 (mb & Hq & Hname) _ IH]; [reflexivity|].
  cbn [app find_mbox]. rewrite Hq.
  replace (String.eqb (name mb) nm) with false; [exact IH|].
  symmetry. apply String.eqb_neq. exact Hname.
Qed.

(** X16: when no channel of the registry has the name asked for,
    [omap_mbox_get] returns [ERR_PTR(-ENOENT)] and leaves the whole state as
    it was: no hardware access, no allocation, no count changed, no observer
    registered. *)
Theorem get_unknown_name (nm : string) (nb : option nat) (env : open_env) (s : system)
    (l : list nat) :
  mboxes s = Some l ->
  Forall (fun q => exists mb, chans s !! q = Some mb /\ name mb <> nm) l ->
  omap_mbox_get nm nb env s = Some (inr (- ENOENT), s).
Proof.
  intros Hreg Hnames. unfold omap_mbox_get. rewrite Hreg.
  rewrite <- (app_nil_r l), (find_mbox_skips _ _ _ [] Hnames). reflexivity.
Qed.

(** X17: [omap_mbox_get] opens the first channel of the registry that has
    the name asked for, and no other, even if a later entry has the same
    name: its outcome is that of [omap_mbox_startup] on that channel, turned
    into the channel pointer (with the observer registered) when that
    returns 0 and into [ERR_PTR(-ENODEV)] otherwise. *)
Theorem get_opens_first_match (nm : string) (nb : option nat) (env : open_env) (s : system)
    (l1 l2 : list nat) (p : nat) (mbox : omap_mbox) :
  mboxes s = Some (l1 ++ p :: l2) ->
  Forall (fun q => exists mb, chans s !! q = Some mb /\ name mb <> nm) l1 ->
  chans s !! p = Some mbox ->
  name mbox = nm ->
  omap_mbox_get nm nb env s =
    match omap_mbox_startup env p s with
    | Some (ret, s1) =>
        if ret =? 0 then
          Some (inl p, match nb with
                       | Some nb => blocking_notifier_chain_register p nb s1
                       | None => s1
                       end)
        else Some (inr (- ENODEV), s1)
    | None => None
    end.
Proof.
  intros Hreg Hnames Hmbox Hname. unfold omap_mbox_get. rewrite Hreg.
  rewrite (find_mbox_skips _ _ _ _ Hnames). cbn [find_mbox]. rewrite Hmbox.
  replace (String.eqb (name mbox) nm) with true
    by (symmetry; apply String.eqb_eq; exact Hname).
  reflexivity.
Qed.

Lemma chan_names_cons (cs : list omap_mbox) (p : nat) (l : list nat) :
  chan_names cs (p :: l) =
    match cs !! p with
    | Some mbox => name mbox :: chan_names cs l
    | None => chan_names cs l
    end.
Proof.
  unfold chan_names. destruct (cs !! p) eqn:Hp; simpl; rewrite Hp; reflexivity.
Qed.

Lemma chan_names_app (cs : list omap_mbox) (a b : list nat) :
  chan_names cs (a ++ b) = chan_names cs a ++ chan_names cs b.
Proof. apply omap_app. Qed.

Lemma chan_names_insert (cs : list omap_mbox) (p : nat) (mbox mbox' : omap_mbox)
    (l : list nat) :
  cs !! p = Some mbox ->
  name mbox' = name mbox ->
  chan_names (<[p := mbox']> cs) l = chan_names cs l.
Proof.
  intros Hp Hname. induction l as [|q l IH]; [reflexivity|].
  rewrite !chan_names_cons, IH. destruct (decide (q = p)) as [->|Hne].
  - rewrite list_lookup_insert_eq by (eapply lookup_lt_Some; exact Hp).
    rewrite Hp, Hname. reflexivity.
  - rewrite list_lookup_insert_ne by congruence. reflexivity.
Qed.

Lemma unregister_devices_trace (cs : list omap_mbox) (l : list nat) :
  Forall (fun p => (p < length cs)%nat) l ->
  forall m : machine,
    unregister_devices cs l m =
      Some {| hw := hw m; trace := trace m ++ map EvDeviceUnregister (chan_names cs l) |}.
Proof.
  induction 1 as [|p l Hp _ IH]; intros m.
  - cbn [unregister_devices chan_names omap map]. rewrite app_nil_r. destruct m; reflexivity.
  - destruct (lookup_lt_is_Some_2 cs p Hp) as [mbox Hmbox].
    cbn [unregister_devices]. rewrite chan_names_cons, Hmbox, IH.
    machine_simpl. reflexivity.
Qed.

Lemma register_devices_ok (dev_err : nat -> Z) (todo : list nat) :
  forall (k : nat) (done : list nat) (s : system),
    Forall (fun p => (p < length (chans s))%nat) todo ->
    (forall i, (i < length todo)%nat -> dev_err (k + i)%nat = 0) ->
    exists s',
      register_devices dev_err k done todo s = Some (0, s') /\
      mboxes s' = mboxes s /\
      mbox_configured s' = mbox_configured s /\
      hw (mach s') = hw (mach s) /\
      trace (mach s') =
        trace (mach s) ++
        map (fun nm => EvDeviceCreate nm 0) (chan_names (chans s) todo) ++
        [EvPmRuntimeEnable] /\
      length (chans s') = length (chans s) /\
      forall q mbox,
        chans s !! q = Some mbox ->
        chans s' !! q =
          Some (if bool_decide (q ∈ todo) then set_notifier mbox [] else mbox).
Proof.
  induction todo as [|p todo IH]; intros k done s Hvalid Herr.
  - exists (set_mach s (emit EvPmRuntimeEnable (mach s))).
    cbn [register_devices]. repeat split. intros q mbox Hq.
    rewrite bool_decide_eq_false_2 by (intros Hin; inversion Hin). exact Hq.
  - inversion Hvalid as [|? ? Hp Hvalid']; subst.
    destruct (lookup_lt_is_Some_2 (chans s) p Hp) as [mbox Hmbox].
    cbn [register_devices]. rewrite Hmbox.
    pose proof (Herr 0%nat ltac:(cbn [length]; lia)) as Hk.
    rewrite Nat.add_0_r in Hk. rewrite Hk. cbn [Z.eqb].
    set (s1 := set_mach (set_chan s p (set_notifier mbox []))
                 (emit (EvDeviceCreate (name mbox) 0) (mach s))).
    destruct (IH (S k) (p :: done) s1) as (s' & Hrun & Hreg & Hcfg & Hhw & Htr & Hlen & Hch).
    { subst s1. cbn [chans set_mach set_chan]. rewrite length_insert. exact Hvalid'. }
    { intros i Hi. replace (S k + i)%nat with (k + S i)%nat by lia.
      apply Herr. cbn [length]. lia. }
    exists s'. split; [exact Hrun|]. split; [exact Hreg|]. split; [exact Hcfg|].
    split; [exact Hhw|].
    split.
    { rewrite Htr. subst s1. cbn [chans mach set_mach set_chan].
      rewrite (chan_names_insert _ _ mbox) by (exact Hmbox || reflexivity).
      rewrite chan_names_cons, Hmbox. machine_simpl. reflexivity. }
    split; [rewrite Hlen; subst s1; cbn [chans set_mach set_chan]; apply length_insert|].
    intros q mb Hq. destruct (decide (q = p)) as [->|Hne].
    + rewrite Hmbox in Hq. injection Hq as <-.
      rewrite (Hch p (set_notifier mbox [])).
      * rewrite (bool_decide_eq_true_2 (p ∈ p :: todo)) by (apply elem_of_cons; left; reflexivity).
        destruct (bool_decide (p ∈ todo)); reflexivity.
      * subst s1. cbn [chans set_mach set_chan].
        apply list_lookup_insert_eq. exact Hp.
    + rewrite (Hch q mb).
      * f_equal. destruct (decide (q ∈ todo)) as [Hin|Hnin].
        -- rewrite !bool_decide_eq_true_2; [reflexivity | apply elem_of_cons; right; exact Hin | exact Hin].
        -- rewrite !bool_decide_eq_false_2; [reflexivity | | exact Hnin].
           intros Hin. apply elem_of_cons in Hin. destruct Hin; [congruence | contradiction].
      * subst s1. cbn [chans set_mach set_chan].
        rewrite list_lookup_insert_ne by congruence. exact Hq.
Qed.

Lemma register_devices_unwinds (dev_err : nat -> Z) (l1 : list nat) :
  forall (k : nat) (done : list nat) (p : nat) (l2 : list nat) (s : system) (mbox : omap_mbox),
    Forall (fun q => (q < length (chans s))%nat) (done ++ l1) ->
    chans s !! p = Some mbox ->
    (forall i, (i < length l1)%nat -> dev_err (k + i)%nat = 0) ->
    dev_err (k + length l1)%nat <> 0 ->
    exists s',
      register_devices dev_err k done (l1 ++ p :: l2) s =
        Some (dev_err (k + length l1)%nat, s') /\
      mboxes s' = mboxes s /\
      mbox_configured s' = mbox_configured s /\
      hw (mach s') = hw (mach s) /\
      trace (mach s') =
        trace (mach s) ++
        map (fun nm => EvDeviceCreate nm 0) (chan_names (chans s) l1) ++
        EvDeviceCreate (name mbox) (dev_err (k + length l1)%nat) ::
        map EvDeviceUnregister (chan_names (chans s) (rev l1 ++ done)).
Proof.
  induction l1 as [|q l1 IH]; intros k done p l2 s mbox Hvalid Hmbox Herr Hfail.
  - cbn [app length] in *. rewrite Nat.add_0_r in *.
    cbn [register_devices]. rewrite Hmbox.
    replace (dev_err k =? 0) with false by (symmetry; apply Z.eqb_neq; exact Hfail).
    rewrite app_nil_r in Hvalid.
    rewrite (unregister_devices_trace _ _ Hvalid).
    eexists. split; [reflexivity|]. cbn [mboxes mbox_configured mach set_mach].
    repeat split. machine_simpl. reflexivity.
  - assert (Hq : (q < length (chans s))%nat).
    { rewrite Forall_app in Hvalid. destruct Hvalid as [_ Hv]. inversion Hv; assumption. }
    destruct (lookup_lt_is_Some_2 (chans s) q Hq) as [mq Hmq].
    cbn [app register_devices]. rewrite Hmq.
    pose proof (Herr 0%nat ltac:(cbn [length]; lia)) as Hk.
    rewrite Nat.add_0_r in Hk. rewrite Hk. cbn [Z.eqb].
    set (s1 := set_mach (set_chan s q (set_notifier mq []))
                 (emit (EvDeviceCreate (name mq) 0) (mach s))).
    assert (Hp1 : exists mbox1, chans s1 !! p = Some mbox1 /\ name mbox1 = name mbox).
    { subst s1. cbn [chans set_mach set_chan]. destruct (decide (p = q)) as [->|Hne].
      - exists (set_notifier mq []). rewrite list_lookup_insert_eq by exact Hq.
        rewrite Hmq in Hmbox. injection Hmbox as <-. split; reflexivity.
      - exists mbox. rewrite list_lookup_insert_ne by congruence. split; [exact Hmbox | reflexivity]. }
    destruct Hp1 as (mbox1 & Hmbox1 & Hname1).
    destruct (IH (S k) (q :: done) p l2 s1 mbox1)
      as (s' & Hrun & Hreg & Hcfg & Hhw & Htr).
    { subst s1. cbn [chans set_mach set_chan]. rewrite length_insert.
      rewrite Forall_app in Hvalid. destruct Hvalid as [Hd Hv].
      inversion Hv; subst. rewrite Forall_app. split; [constructor; assumption | assumption]. }
    { exact Hmbox1. }
    { intros i Hi. replace (S k + i)%nat with (k + S i)%nat by lia.
      apply Herr. cbn [length]. lia. }
    { replace (S k + length l1)%nat with (k + length (q :: l1))%nat by (cbn [length]; lia).
      exact Hfail. }
    replace (S k + length l1)%nat with (k + length (q :: l1))%nat in *
      by (cbn [length]; lia).
    exists s'. split; [exact Hrun|]. split; [exact Hreg|]. split; [exact Hcfg|].
    split; [exact Hhw|].
    rewrite Htr, Hname1. subst s1. cbn [chans mach set_mach set_chan].
    rewrite !(chan_names_insert _ _ mq) by (exact Hmq || reflexivity).
    rewrite chan_names_cons, Hmq. cbn [rev]. rewrite <- app_assoc. cbn [app].
    machine_simpl. reflexivity.
Qed.

(** X18: [omap_mbox_register] with a list of channels whose devices are all
    created publishes the list as the registry and returns 0.  It creates one
    device per entry, in the order of the list, and enables runtime PM after
    the last; it empties the observer list of every channel of the list and
    changes nothing else of any channel, nor the activation counter, nor the
    hardware. *)
Theorem register_publishes_registry (dev_err : nat -> Z) (l : list nat) (s : system) :
  Forall (fun p => (p < length (chans s))%nat) l ->
  (forall i, (i < length l)%nat -> dev_err i = 0) ->
  exists s',
    omap_mbox_register (Some l) dev_err s = Some (0, s') /\
    mboxes s' = Some l /\
    mbox_configured s' = mbox_configured s /\
    hw (mach s') = hw (mach s) /\
    trace (mach s') =
      trace (mach s) ++
      map (fun nm => EvDeviceCreate nm 0) (chan_names (chans s) l) ++ [EvPmRuntimeEnable] /\
    length (chans s') = length (chans s) /\
    forall q mbox,
      chans s !! q = Some mbox ->
      chans s' !! q = Some (if bool_decide (q ∈ l) then set_notifier mbox [] else mbox).
Proof.
  intros Hvalid Herr. unfold omap_mbox_register.
  destruct (register_devices_ok dev_err l 0 [] (set_mboxes s (Some l)) Hvalid Herr)
    as (s' & Hrun & Hreg & Hrest).
  exists s'. split; [exact Hrun|]. split; [exact Hreg|]. exact Hrest.
Qed.

(** X19: when the creation of a device fails, [omap_mbox_register] returns
    the error of that [device_create] and unregisters the devices it had
    created, last one first; it does not try the entries after the failing
    one and does not enable runtime PM.  The registry pointer stays set to
    the list it was given. *)
Theorem register_failure_unwinds (dev_err : nat -> Z) (l1 l2 : list nat) (p : nat)
    (s : system) (mbox : omap_mbox) :
  Forall (fun q => (q < length (chans s))%nat) l1 ->
  chans s !! p = Some mbox ->
  (forall i, (i < length l1)%nat -> dev_err i = 0) ->
  dev_err (length l1) <> 0 ->
  exists s',
    omap_mbox_register (Some (l1 ++ p :: l2)) dev_err s = Some (dev_err (length l1), s') /\
    mboxes s' = Some (l1 ++ p :: l2) /\
    mbox_configured s' = mbox_configured s /\
    hw (mach s') = hw (mach s) /\
    trace (mach s') =
      trace (mach s) ++
      map (fun nm => EvDeviceCreate nm 0) (chan_names (chans s) l1) ++
      EvDeviceCreate (name mbox) (dev_err (length l1)) ::
      map EvDeviceUnregister (chan_names (chans s) (rev l1)).
Proof.
  intros Hvalid Hmbox Herr Hfail. unfold omap_mbox_register.
  destruct (register_devices_unwinds dev_err l1 0 [] p l2 (set_mboxes s (Some (l1 ++ p :: l2)))
              mbox Hvalid Hmbox Herr Hfail)
    as (s' & Hrun & Hreg & Hcfg & Hhw & Htr).
  exists s'. cbn [Nat.add] in *. rewrite app_nil_r in Htr.
  split; [exact Hrun|]. split; [exact Hreg|]. split; [exact Hcfg|].
  split; [exact Hhw | exact Htr].
Qed.

(** X20: [omap_mbox_unregister] unregisters the device of every channel of
    the registry, in the order of the list, clears the registry pointer,
    disables runtime PM and returns 0.  It leaves every channel as it is: a
    channel that is open keeps its use count and its queues.  From then on
    every [omap_mbox_get] and a second [omap_mbox_unregister] return -EINVAL
    and change nothing. *)
Theorem unregister_clears_registry (l : list nat) (s : system) :
  mboxes s = Some l ->
  Forall (fun p => (p < length (chans s))%nat) l ->
  exists s',
    omap_mbox_unregister s = Some (0, s') /\
    mboxes s' = None /\
    chans s' = chans s /\
    mbox_configured s' = mbox_configured s /\
    hw (mach s') = hw (mach s) /\
    trace (mach s') =
      trace (mach s) ++
      map EvDeviceUnregister (chan_names (chans s) l) ++ [EvPmRuntimeDisable] /\
    omap_mbox_unregister s' = Some (- EINVAL, s') /\
    forall nm nb env, omap_mbox_get nm nb env s' = Some (inr (- EINVAL), s').
Proof.
  intros Hreg Hvalid. unfold omap_mbox_unregister at 1. rewrite Hreg.
  rewrite (unregister_devices_trace _ _ Hvalid).
  eexists. split; [reflexivity|]. cbn [mboxes chans mbox_configured mach set_mach set_mboxes].
  repeat split. machine_simpl. reflexivity.
Qed.

(** ** Runtime PM: return values and the pm_qos constraint *)

Lemma qos_requests_cons (e : event) (evs : list event) :
  qos_requests (e :: evs) =
    match e with EvPmQos v => v :: qos_requests evs | _ => qos_requests evs end.
Proof. destruct e; reflexivity. Qed.

Lemma qos_requests_app (a b : list event) :
  qos_requests (a ++ b) = qos_requests a ++ qos_requests b.
Proof. apply omap_app. Qed.

Lemma save_ctx_children_result (children : list omap_mbox) :
  forall m : machine,
  exists evs,
    device_for_each_child children omap_mbox_save_ctx m =
      ((if forallb has_save_ctx children then 0 else - EINVAL),
       (device_for_each_child children omap_mbox_save_ctx m).2) /\
    trace (device_for_each_child children omap_mbox_save_ctx m).2 = trace m ++ evs /\
    qos_requests evs = [].
Proof.
  induction children as [|mbox children IH]; intros m.
  - exists []. rewrite app_nil_r. repeat split.
  - cbn [device_for_each_child forallb].
    destruct (omap_mbox_save_ctx mbox m) as [ret m1] eqn:Hstep.
    unfold omap_mbox_save_ctx in Hstep.
    destruct (save_ctx (ops mbox)) as [f|] eqn:Hhook; injection Hstep as <- <-.
    + assert (Hhas : has_save_ctx mbox = true).
      { unfold has_save_ctx. rewrite Hhook. apply bool_decide_eq_true_2. eexists; reflexivity. }
      rewrite Hhas. cbn [Z.eqb andb].
      destruct (IH (emit (EvSaveCtx (name mbox)) (on_hw f m))) as (evs & Hret & Htr & Hqos).
      exists (EvSaveCtx (name mbox) :: evs).
      split; [exact Hret|]. split; [rewrite Htr; machine_simpl; reflexivity|].
      rewrite qos_requests_cons. exact Hqos.
    + assert (Hhas : has_save_ctx mbox = false).
      { unfold has_save_ctx. rewrite Hhook. apply bool_decide_eq_false_2.
        intros [? ?]; discriminate. }
      rewrite Hhas. exists [EvDevErr (name mbox)]. repeat split.
Qed.

Lemma restore_ctx_children_result (children : list omap_mbox) :
  forall m : machine,
  exists evs,
    device_for_each_child children omap_mbox_restore_ctx m =
      ((if forallb (fun mbox => negb (is_open mbox) || has_restore_ctx mbox) children
        then 0 else - EINVAL),
       (device_for_each_child children omap_mbox_restore_ctx m).2) /\
    trace (device_for_each_child children omap_mbox_restore_ctx m).2 = trace m ++ evs /\
    qos_requests evs = [].
Proof.
  induction children as [|mbox children IH]; intros m.
  - exists []. rewrite app_nil_r. repeat split.
  - cbn [device_for_each_child forallb].
    destruct (omap_mbox_restore_ctx mbox m) as [ret m1] eqn:Hstep.
    unfold omap_mbox_restore_ctx in Hstep.
    destruct (use_count mbox =? 0) eqn:Huc.
    + injection Hstep as <- <-.
      assert (Hopen : is_open mbox = false) by (unfold is_open; rewrite Huc; reflexivity).
      rewrite Hopen. cbn [Z.eqb negb orb andb]. apply IH.
    + assert (Hopen : is_open mbox = true) by (unfold is_open; rewrite Huc; reflexivity).
      rewrite Hopen. cbn [negb orb].
      destruct (restore_ctx (ops mbox)) as [f|] eqn:Hhook; injection Hstep as <- <-.
      * assert (Hhas : has_restore_ctx mbox = true).
        { unfold has_restore_ctx. rewrite Hhook. apply bool_decide_eq_true_2.
          eexists; reflexivity. }
        rewrite Hhas. cbn [Z.eqb andb].
        destruct (IH (emit (EvRestoreCtx (name mbox)) (on_hw f m))) as (evs & Hret & Htr & Hqos).
        exists (EvRestoreCtx (name mbox) :: evs).
        split; [exact Hret|]. split; [rewrite Htr; machine_simpl; reflexivity|].
        rewrite qos_requests_cons. exact Hqos.
      * assert (Hhas : has_restore_ctx mbox = false).
        { unfold has_restore_ctx. rewrite Hhook. apply bool_decide_eq_false_2.
          intros [? ?]; discriminate. }
        rewrite Hhas. exists [EvDevErr (name mbox)]. repeat split.
Qed.

(** X21: [mbox_runtime_suspend] returns 0 when every channel of the device
    has a context-save hook and -EINVAL otherwise, open or not.  It drops the
    pm_qos constraint (one request, for the default value) exactly when it
    returns 0; a suspend that fails makes no pm_qos request. *)
Theorem suspend_result (children : list omap_mbox) (m : machine) :
  exists m' evs,
    mbox_runtime_suspend children m =
      ((if forallb has_save_ctx children then 0 else - EINVAL), m') /\
    trace m' = trace m ++ evs /\
    qos_requests evs =
      (if forallb has_save_ctx children then [CLEAR_MPU_CORE_CONSTRAINT] else []).
Proof.
  unfold mbox_runtime_suspend.
  destruct (save_ctx_children_result children m) as (evs & Hret & Htr & Hqos).
  rewrite Hret.
  destruct (device_for_each_child children omap_mbox_save_ctx m) as [ret m1].
  cbn [snd] in *. destruct (forallb has_save_ctx children); cbn [Z.eqb EINVAL Z.opp].
  - exists (emit (EvPmQos CLEAR_MPU_CORE_CONSTRAINT) m1),
      (evs ++ [EvPmQos CLEAR_MPU_CORE_CONSTRAINT]).
    split; [reflexivity|]. split; [cbn [emit trace]; rewrite Htr, app_assoc; reflexivity|].
    rewrite qos_requests_app, Hqos. reflexivity.
  - exists m1, evs. split; [reflexivity|]. split; [exact Htr | exact Hqos].
Qed.

(** X22: [mbox_runtime_resume] first requests the pm_qos constraint.  It
    returns 0 when every open channel of the device has a context-restore
    hook -- a channel with use count 0 needs none -- and -EINVAL otherwise;
    when it fails it drops the constraint again, when it succeeds the
    constraint stays requested. *)
Theorem resume_result (children : list omap_mbox) (m : machine) :
  exists m' evs,
    mbox_runtime_resume children m =
      ((if forallb (fun mbox => negb (is_open mbox) || has_restore_ctx mbox) children
        then 0 else - EINVAL), m') /\
    trace m' = trace m ++ EvPmQos SET_MPU_CORE_CONSTRAINT :: evs /\
    qos_requests evs =
      (if forallb (fun mbox => negb (is_open mbox) || has_restore_ctx mbox) children
       then [] else [CLEAR_MPU_CORE_CONSTRAINT]).
Proof.
  unfold mbox_runtime_resume.
  destruct (restore_ctx_children_result children (emit (EvPmQos SET_MPU_CORE_CONSTRAINT) m))
    as (evs & Hret & Htr & Hqos).
  rewrite Hret.
  destruct (device_for_each_child children omap_mbox_restore_ctx _) as [ret m1].
  cbn [snd] in *.
  destruct (forallb (fun mbox => negb (is_open mbox) || has_restore_ctx mbox) children);
    cbn [Z.eqb EINVAL Z.opp].
  - exists m1, evs. split; [reflexivity|].
    split; [rewrite Htr; machine_simpl; reflexivity | exact Hqos].
  - exists (emit (EvPmQos CLEAR_MPU_CORE_CONSTRAINT) m1),
      (evs ++ [EvPmQos CLEAR_MPU_CORE_CONSTRAINT]).
    split; [reflexivity|].
    split; [cbn [emit trace]; rewrite Htr; machine_simpl; reflexivity|].
    rewrite qos_requests_app, Hqos. reflexivity.
Qed.

(** ** The capacity of the software queues *)

Lemma land_align_mask (y : Z) : 0 <= y < 2 ^ 32 -> Z.land y (2 ^ 32 - 4) = 4 * (y / 4).
Proof.
  intros Hy.
  replace (2 ^ 32 - 4) with (Z.shiftl (Z.ones 30) 2) by reflexivity.
  replace (4 * (y / 4)) with (Z.shiftl (Z.shiftr y 2) 2)
    by (rewrite Z.shiftl_mul_pow2, Z.shiftr_div_pow2 by lia; change (2 ^ 2) with 4; lia).
  apply Z.bits_inj'. intros n Hn.
  rewrite Z.land_spec, !Z.shiftl_spec by lia.
  destruct (Z.ltb_spec n 2) as [Hlow|Hhigh].
  - rewrite !(Z.testbit_neg_r _ (n - 2)) by lia. apply andb_false_r.
  - rewrite Z.shiftr_spec by lia. replace (n - 2 + 2) with n by lia.
    destruct (Z.ltb_spec n 32) as [Hin|Hout].
    + rewrite Z.ones_spec_low by lia. apply andb_true_r.
    + rewrite Z.ones_spec_high by lia. rewrite andb_false_r. symmetry.
      destruct (Z.eq_dec y 0) as [->|Hne]; [apply Z.bits_0|].
      apply Z.bits_above_log2; [lia|].
      assert (Z.log2 y < 32) by (apply Z.log2_lt_pow2; lia). lia.
Qed.

Lemma ALIGN_msg (x : Z) :
  0 <= x < 2 ^ 32 -> ALIGN x sizeof_msg = 4 * (((x + 3) mod 2 ^ 32) / 4).
Proof.
  intros Hx. unfold ALIGN, sizeof_msg, u32.
  replace (Z.lnot (4 - 1) mod 2 ^ 32) with (2 ^ 32 - 4) by reflexivity.
  replace (x + (4 - 1)) with (x + 3) by lia.
  apply land_align_mask. apply Z.mod_pos_bound. lia.
Qed.

(** X23: when the class is registered, [omap_mbox_init] returns 0 and
    leaves in [mbox_kfifo_size] a multiple of the message size that is at
    least one message.  For a parameter of at most 2^32 - 4 it is the least
    such multiple that is not below the parameter, so a parameter that is
    already one is kept; above that the sum wraps around in [unsigned int]
    and the capacity becomes that of a single message. *)
Theorem init_kfifo_size (size : Z) :
  0 <= size < 2 ^ 32 ->
  exists size',
    omap_mbox_init 0 size = (0, size') /\
    size' mod sizeof_msg = 0 /\
    sizeof_msg <= size' < 2 ^ 32 /\
    (size <= 2 ^ 32 - 4 -> size <= size' < Z.max size 1 + sizeof_msg) /\
    (2 ^ 32 - 4 < size -> size' = sizeof_msg).
Proof.
  intros Hsize. unfold omap_mbox_init. cbn [Z.eqb].
  eexists. split; [reflexivity|].
  rewrite (ALIGN_msg size Hsize). unfold max_t, sizeof_msg.
  destruct (Z_le_gt_dec size (2 ^ 32 - 4)) as [Hle|Hgt].
  - rewrite (Z.mod_small (size + 3)) by lia.
    pose proof (Z.div_mod (size + 3) 4 ltac:(lia)) as Hdiv.
    pose proof (Z.mod_pos_bound (size + 3) 4 ltac:(lia)) as Hmod.
    destruct (Z.ltb_spec (4 * ((size + 3) / 4)) 4) as [Hsmall|Hbig].
    + split; [reflexivity|]. split; [lia|]. split; [lia|]. lia.
    + split; [rewrite Z.mul_comm; apply Z.mod_mul; lia|].
      split; [lia|]. split; [lia|]. lia.
  - replace ((size + 3) mod 2 ^ 32) with (size + 3 - 2 ^ 32)
      by (apply Z.mod_unique with 1; lia).
    rewrite (Z.div_small (size + 3 - 2 ^ 32)) by lia.
    change (4 * 0 <? 4) with true. cbv iota.
    split; [reflexivity|]. split; [lia|]. split; [lia|]. lia.
Qed.

(** ** What an open or a close leaves alone *)

Lemma startup_shape (env : open_env) (p : nat) (s s' : system) (ret : Z) (mbox : omap_mbox) :
  chans s !! p = Some mbox ->
  omap_mbox_startup env p s = Some (ret, s') ->
  exists mbox' m',
    s' = set_mach (set_chan (set_mbox_configured s (int_wrap (mbox_configured s + 1)))
                     p mbox') m' /\
    name mbox' = name mbox /\ ops mbox' = ops mbox /\ notifier mbox' = notifier mbox.
Proof.
  intros Hmbox Hrun. unfold omap_mbox_startup in Hrun. rewrite Hmbox in Hrun.
  unfold startup_channel, fail_request_irq, fail_alloc_rxq, fail_alloc_txq, fail_startup,
    mbox_queue_alloc, mbox_queue_free in Hrun.
  cbn [txq rxq set_txq set_rxq set_use_count fst snd] in Hrun.
  repeat case_match; simplify_eq; eexists _, _; (split; [reflexivity|]);
    repeat split.
Qed.

Lemma fini_shape (p : nat) (s s' : system) (mbox : omap_mbox) :
  chans s !! p = Some mbox ->
  omap_mbox_fini p s = Some s' ->
  exists mbox' m' n,
    s' = set_mach (set_chan (set_mbox_configured s n) p mbox') m' /\
    name mbox' = name mbox /\ ops mbox' = ops mbox /\ notifier mbox' = notifier mbox.
Proof.
  intros Hmbox Hrun. unfold omap_mbox_fini in Hrun. rewrite Hmbox in Hrun.
  unfold mbox_queue_free in Hrun.
  cbn [txq rxq set_txq set_rxq set_use_count fst snd use_count] in Hrun.
  repeat case_match; simplify_eq;
    first [ eexists _, _, _; (split; [reflexivity|]); repeat split
          | eexists _, _, (mbox_configured s); (split; [destruct s; reflexivity|]);
            repeat split ].
Qed.

(** X24: an [omap_mbox_startup] that returns, with whatever result, changes
    the channel it is called on and nothing of any other channel; the
    registry pointer stays as it is.  Of its own channel it keeps the name,
    the hardware operations and the observer list. *)
Theorem open_touches_one_channel (env : open_env) (p : nat) (s s' : system) (ret : Z) :
  omap_mbox_startup env p s = Some (ret, s') ->
  mboxes s' = mboxes s /\
  length (chans s') = length (chans s) /\
  (forall q, q <> p -> chans s' !! q = chans s !! q) /\
  exists mbox mbox',
    chans s !! p = Some mbox /\ chans s' !! p = Some mbox' /\
    name mbox' = name mbox /\ ops mbox' = ops mbox /\ notifier mbox' = notifier mbox.
Proof.
  intros Hrun.
  destruct (chans s !! p) as [mbox|] eqn:Hmbox;
    [|unfold omap_mbox_startup in Hrun; rewrite Hmbox in Hrun; discriminate].
  destruct (startup_shape env p s s' ret mbox Hmbox Hrun)
    as (mbox' & m' & -> & Hname & Hops & Hnb).
  cbn [mboxes chans set_mach set_chan set_mbox_configured].
  split; [reflexivity|]. split; [apply length_insert|].
  split; [intros q Hq; apply list_lookup_insert_ne; congruence|].
  exists mbox, mbox'. split; [reflexivity|].
  split; [apply list_lookup_insert_eq; eapply lookup_lt_Some; exact Hmbox|].
  split; [exact Hname|]. split; [exact Hops | exact Hnb].
Qed.

(** X25: the same for a close: an [omap_mbox_fini] that returns changes
    nothing of any other channel nor the registry pointer, and keeps the
    name, the hardware operations and the observer list of its own
    channel. *)
Theorem close_touches_one_channel (p : nat) (s s' : system) :
  omap_mbox_fini p s = Some s' ->
  mboxes s' = mboxes s /\
  length (chans s') = length (chans s) /\
  (forall q, q <> p -> chans s' !! q = chans s !! q) /\
  exists mbox mbox',
    chans s !! p = Some mbox /\ chans s' !! p = Some mbox' /\
    name mbox' = name mbox /\ ops mbox' = ops mbox /\ notifier mbox' = notifier mbox.
Proof.
  intros Hrun.
  destruct (chans s !! p) as [mbox|] eqn:Hmbox;
    [|unfold omap_mbox_fini in Hrun; rewrite Hmbox in Hrun; discriminate].
  destruct (fini_shape p s s' mbox Hmbox Hrun)
    as (mbox' & m' & n & -> & Hname & Hops & Hnb).
  cbn [mboxes chans set_mach set_chan set_mbox_configured].
  split; [reflexivity|]. split; [apply length_insert|].
  split; [intros q Hq; apply list_lookup_insert_ne; congruence|].
  exists mbox, mbox'. split; [reflexivity|].
  split; [apply list_lookup_insert_eq; eapply lookup_lt_Some; exact Hmbox|].
  split; [exact Hname|]. split; [exact Hops | exact Hnb].
Qed.

(** ** Getting and putting a channel *)

Lemma remove_first_app_fresh (nb : nat) (l : list nat) :
  nb ∉ l -> remove_first nb (l ++ [nb]) = l.
Proof.
  induction l as [|x l IH]; intros Hfresh.
  - cbn [app remove_first]. rewrite Nat.eqb_refl. reflexivity.
  - cbn [app remove_first]. rewrite not_elem_of_cons in Hfresh. destruct Hfresh as [Hne Hfresh].
    replace (Nat.eqb x nb) with false by (symmetry; apply Nat.eqb_neq; congruence).
    rewrite (IH Hfresh). reflexivity.
Qed.

Lemma sys_inv_set_notifier (pend : list nat) (s : system) (p : nat) (mb : omap_mbox)
    (l : list nat) (m : machine) :
  sys_inv pend s ->
  chans s !! p = Some mb ->
  sys_inv pend (set_mach (set_chan s p (set_notifier mb l)) m).
Proof.
  intros (Hcfg & Hvalid & Hch) Hp. split; [exact Hcfg|]. split.
  - apply (Forall_impl _ _ _ Hvalid). intros q Hq.
    cbn [chans set_mach set_chan]. rewrite length_insert. exact Hq.
  - intros q mb' Hq. cbn [chans set_mach set_chan] in Hq.
    destruct (decide (q = p)) as [->|Hne].
    + rewrite list_lookup_insert_eq in Hq by (eapply lookup_lt_Some; exact Hp).
      injection Hq as <-. exact (Hch p mb Hp).
    + rewrite list_lookup_insert_ne in Hq by congruence. exact (Hch q mb' Hq).
Qed.

(** X26: getting a channel by name with an observer and putting it back
    with the same observer, on a link whose hardware starts up without error
    and has a shutdown callback, when the kernel grants the allocations and
    the interrupt line.  The get returns the first channel of that name with
    its use count one higher and the observer last in its list; after the put
    the use count, the observer list and the activation counter are what they
    were, no other channel has changed, and the driver is again in a state
    where every channel's use count is the number of its outstanding opens. *)
Theorem get_put_round_trip (nm : string) (nb : nat) (env : open_env) (s : system)
    (pend l1 l2 : list nat) (p : nat) (mbox : omap_mbox) :
  sys_inv pend s ->
  mboxes s = Some (l1 ++ p :: l2) ->
  Forall (fun q => exists mb, chans s !! q = Some mb /\ name mb <> nm) l1 ->
  chans s !! p = Some mbox ->
  name mbox = nm ->
  nb ∉ notifier mbox ->
  env_ok env = true ->
  Z.of_nat (length pend) + 1 < 2 ^ 31 ->
  exists s1 s2 mbox1 mbox2,
    omap_mbox_get nm (Some nb) env s = Some (inl p, s1) /\
    chans s1 !! p = Some mbox1 /\
    use_count mbox1 = use_count mbox + 1 /\
    notifier mbox1 = notifier mbox ++ [nb] /\
    omap_mbox_put p (Some nb) s1 = Some s2 /\
    chans s2 !! p = Some mbox2 /\
    use_count mbox2 = use_count mbox /\
    notifier mbox2 = notifier mbox /\
    mbox_configured s2 = mbox_configured s /\
    mboxes s2 = mboxes s /\
    (forall q, q <> p -> chans s2 !! q = chans s !! q) /\
    sys_inv pend s2.
Proof.
  intros Hinv Hreg Hnames Hmbox Hname Hfresh Henv Hbound.
  assert (Hp : (p < length (chans s))%nat) by (eapply lookup_lt_Some; exact Hmbox).
  pose proof Hinv as (Hcfg & _ & Hch).
  destruct (Hch p mbox Hmbox) as (_ & Huc & _).
  (* the open *)
  destruct (startup_step pend env p s Hinv Hp Henv Hbound)
    as (sa & evsa & Hruna & Hinva & _).
  destruct (startup_shape env p s sa 0 mbox Hmbox Hruna)
    as (mba & ma & Hsa & Hnamea & _ & Hnba).
  assert (Hlka : chans sa !! p = Some mba).
  { rewrite Hsa. cbn [chans set_mach set_chan set_mbox_configured].
    apply list_lookup_insert_eq. exact Hp. }
  assert (Huca : use_count mba = use_count mbox + 1).
  { destruct Hinva as (_ & _ & Hcha). destruct (Hcha p mba Hlka) as (_ & Huca & _).
    rewrite Huca, Huc. cbn [occurrences]. rewrite Nat.eqb_refl. lia. }
  set (mbox1 := set_notifier mba (notifier mba ++ [nb])).
  set (s1 := set_mach (set_chan sa p mbox1) (emit (EvNotifierRegister (name mba) nb) (mach sa))).
  assert (Hinv1 : sys_inv ([] ++ p :: pend) s1)
    by (apply sys_inv_set_notifier; [exact Hinva | exact Hlka]).
  assert (Hlk1 : chans s1 !! p = Some mbox1).
  { subst s1. cbn [chans set_mach set_chan]. apply list_lookup_insert_eq.
    eapply lookup_lt_Some; exact Hlka. }
  (* the close *)
  destruct (fini_step [] pend p s1 Hinv1) as (sb & evsb & Hrunb & Hinvb & _).
  { cbn [app length]. lia. }
  destruct (fini_shape p s1 sb mbox1 Hlk1 Hrunb)
    as (mbb & mb' & n & Hsb & Hnameb & _ & Hnbb).
  assert (Hlkb : chans sb !! p = Some mbb).
  { rewrite Hsb. cbn [chans set_mach set_chan set_mbox_configured].
    apply list_lookup_insert_eq. eapply lookup_lt_Some; exact Hlk1. }
  assert (Hucb : use_count mbb = use_count mbox).
  { destruct Hinvb as (_ & _ & Hchb). destruct (Hchb p mbb Hlkb) as (_ & Hucb & _).
    rewrite Hucb, Huc. reflexivity. }
  set (mbox2 := set_notifier mbb (remove_first nb (notifier mbb))).
  set (s2 := set_mach (set_chan sb p mbox2)
               (emit (EvNotifierUnregister (name mbb) nb) (mach sb))).
  assert (Hinv2 : sys_inv pend s2)
    by (apply sys_inv_set_notifier; [exact Hinvb | exact Hlkb]).
  exists s1, s2, mbox1, mbox2.
  split.
  { unfold omap_mbox_get. rewrite Hreg, (find_mbox_skips _ _ _ _ Hnames).
    cbn [find_mbox]. rewrite Hmbox.
    replace (String.eqb (name mbox) nm) with true
      by (symmetry; apply String.eqb_eq; exact Hname).
    rewrite Hruna. cbn [Z.eqb]. unfold blocking_notifier_chain_register.
    rewrite Hlka. reflexivity. }
  split; [exact Hlk1|]. split; [exact Huca|].
  split; [subst mbox1; cbn [notifier set_notifier]; rewrite Hnba; reflexivity|].
  split.
  { unfold omap_mbox_put. rewrite Hrunb. unfold blocking_notifier_chain_unregister.
    rewrite Hlkb. reflexivity. }
  split.
  { subst s2. cbn [chans set_mach set_chan]. apply list_lookup_insert_eq.
    eapply lookup_lt_Some; exact Hlkb. }
  split; [exact Hucb|].
  split.
  { subst mbox2. cbn [notifier set_notifier]. rewrite Hnbb. subst mbox1.
    cbn [notifier set_notifier]. rewrite Hnba. apply remove_first_app_fresh. exact Hfresh. }
  split.
  { destruct Hinv2 as (Hcfg2 & _). rewrite Hcfg2, Hcfg. reflexivity. }
  split.
  { subst s2. cbn [mboxes set_mach set_chan]. rewrite Hsb.
    cbn [mboxes set_mach set_chan set_mbox_configured]. subst s1.
    cbn [mboxes set_mach set_chan]. rewrite Hsa. reflexivity. }
  split; [|exact Hinv2].
  intros q Hq. subst s2. cbn [chans set_mach set_chan].
  rewrite list_lookup_insert_ne by congruence. rewrite Hsb.
  cbn [chans set_mach set_chan set_mbox_configured].
  rewrite list_lookup_insert_ne by congruence. subst s1. cbn [chans set_mach set_chan].
  rewrite list_lookup_insert_ne by congruence. rewrite Hsa.
  cbn [chans set_mach set_chan set_mbox_configured].
  apply list_lookup_insert_ne. congruence.
Qed.

End Properties.

(** C4 at a concrete channel: an empty four-message queue and one free slot in
    the hardware FIFO. *)
Lemma send_direct_write_witness :
  exists m' evs,
    omap_mbox_msg_send sim_udelay
      (sim_mbox "c0" OMAP_MBOX_TYPE2 (QLive (sim_queue 16 [])) QNull 1 []) 7
      (sim_machine 1 []) =
    Some (0, sim_mbox "c0" OMAP_MBOX_TYPE2 (QLive (sim_queue 16 [])) QNull 1 [], m') /\
    hw m' = fifo_write (sim_ops OMAP_MBOX_TYPE2) 7
              (hw (emit (EvFifoFull false) (emit (EvLock TXQ) (sim_machine 1 [])))) /\
    trace m' = trace (sim_machine 1 []) ++ evs /\
    count_events is_enqueue_event evs = 0%nat /\
    count_events is_fifo_write_event evs = 1%nat /\
    In (EvFifoWrite 7) evs.
Proof.
  apply (send_direct_write sim_udelay
           (sim_mbox "c0" OMAP_MBOX_TYPE2 (QLive (sim_queue 16 [])) QNull 1 [])
           (sim_queue 16 []) 7 (sim_machine 1 [])
           (emit (EvFifoFull false) (emit (EvLock TXQ) (sim_machine 1 [])))).
  - reflexivity.
  - reflexivity.
  - vm_compute. discriminate.
  - reflexivity.
Defined.

(** C3 at a concrete channel: a queue of one message that is full. *)
Lemma send_queue_full_iff_witness :
  exists ret mbox' m',
    omap_mbox_msg_send sim_udelay
      (sim_mbox "c0" OMAP_MBOX_TYPE2 (QLive (sim_queue 4 [9])) QNull 1 []) 7
      (sim_machine 1 []) = Some (ret, mbox', m') /\
    (ret = - ENOMEM <-> kfifo_avail (fifo (sim_queue 4 [9])) < sizeof_msg) /\
    (kfifo_avail (fifo (sim_queue 4 [9])) < sizeof_msg ->
       mbox' = sim_mbox "c0" OMAP_MBOX_TYPE2 (QLive (sim_queue 4 [9])) QNull 1 [] /\
       hw m' = hw (sim_machine 1 []) /\
       trace m' = trace (sim_machine 1 []) ++ [EvLock TXQ; EvUnlock TXQ]) /\
    (sizeof_msg <= kfifo_avail (fifo (sim_queue 4 [9])) -> ret = 0).
Proof.
  apply (send_queue_full_iff sim_udelay
           (sim_mbox "c0" OMAP_MBOX_TYPE2 (QLive (sim_queue 4 [9])) QNull 1 [])
           (sim_queue 4 [9]) 7 (sim_machine 1 [])).
  reflexivity.
Defined.

(** C1 on the simulated link: channel 0 opened twice, channel 1 once, closed
    in another order. *)
Lemma activation_exactly_once_witness :
  exists s1 s2 evs1 evs2,
    run_opens sim_opens sim_link = Some s1 /\
    run_closes sim_closes s1 = Some s2 /\
    trace (mach s1) = trace (mach sim_link) ++ evs1 /\
    trace (mach s2) = trace (mach s1) ++ evs2 /\
    mbox_configured s1 = Z.of_nat (length sim_opens) /\
    mbox_configured s2 = 0 /\
    count_events is_startup_event evs1 = 1%nat /\
    count_events is_shutdown_event evs1 = 0%nat /\
    count_events is_startup_event evs2 = 0%nat /\
    count_events is_shutdown_event evs2 = 1%nat.
Proof.
  refine (proj1 (activation_exactly_once sim_link sim_opens sim_closes _ _ _ _ _ _)).
  - reflexivity.
  - assert (Hlink : forall nm, link_ok (sim_mbox nm OMAP_MBOX_TYPE2 QNull QNull 0 [])).
    { intros nm. split.
      - eexists. split; [reflexivity|]. intros h. reflexivity.
      - eexists. reflexivity. }
    constructor; [split; [reflexivity | apply Hlink]|].
    constructor; [split; [reflexivity | apply Hlink]|]. constructor.
  - constructor; [split; [cbn; lia | reflexivity]|].
    constructor; [split; [cbn; lia | reflexivity]|].
    constructor; [split; [cbn; lia | reflexivity]|]. constructor.
  - apply perm_swap.
  - discriminate.
  - vm_compute. reflexivity.
Defined.

(** C10 on a driver without registry. *)
Lemma get_without_registry_witness :
  omap_mbox_get "c0" (Some 5%nat) sim_env (sim_system [] None 0) =
  Some (inr (- EINVAL), sim_system [] None 0).
Proof.
  refine (proj1 (get_without_registry "c0" (Some 5%nat) sim_env (sim_system [] None 0)) _).
  reflexivity.
Defined.

(** C2 fails where the startup callback is absent: the open of a channel
    whose operations have no startup callback, as the first open on the
    link, returns the channel and registers the observer.  The use count is
    still 0, no queue was allocated, the power-domain reference was given
    back, and the activation counter stays at 1. *)
Theorem open_without_startup_callback :
  omap_mbox_get "c0" (Some 5%nat) sim_env
    (sim_system [sim_mbox_nostartup] (Some [0%nat]) 0) =
  Some (inl 0%nat,
        {| chans := [set_notifier sim_mbox_nostartup [5%nat]];
           mboxes := Some [0%nat];
           mbox_configured := 1;
           mach := {| hw := hw (sim_machine 1 []);
                      trace := [EvMutexLock; EvPmGet; EvPmPut; EvMutexUnlock;
                                EvNotifierRegister "c0" 5] |} |}).
Proof. reflexivity. Qed.


(** C6 on a receive queue holding two messages with the [full] flag set and
    two observers. *)
Lemma rx_work_dispatches_witness :
  mbox_rx_work
    (sim_chan OMAP_MBOX_TYPE2 (sim_queue 16 []) (set_full (sim_queue 8 [1; 2]) true) [7; 8]%nat)
    0 (sim_machine 1 []) =
  Some (sim_chan OMAP_MBOX_TYPE2 (sim_queue 16 []) (sim_queue 8 []) [7; 8]%nat,
        {| hw := hw (sim_machine 1 []);
           trace := [EvKfifoOut RXQ 4; EvNotify 7 4 1; EvNotify 8 4 1;
                     EvLock RXQ; EvEnableIrq IRQ_RX; EvUnlock RXQ;
                     EvKfifoOut RXQ 4; EvNotify 7 4 2; EvNotify 8 4 2;
                     EvLock RXQ; EvUnlock RXQ] |}).
Proof.
  refine (proj1 (rx_work_dispatches
                   (sim_chan OMAP_MBOX_TYPE2 (sim_queue 16 [])
                      (set_full (sim_queue 8 [1; 2]) true) [7; 8]%nat)
                   (set_full (sim_queue 8 [1; 2]) true) [1; 2] [] 0 (sim_machine 1 [])
                   eq_refl eq_refl _ _)).
  - cbn. lia.
  - repeat constructor; unfold is_u32; lia.
Defined.

(** C7 on a transmit queue of two messages when the hardware FIFO has one
    free slot: the task polls, writes the first message, polls again, finds
    the FIFO full, re-enables the TX-ready interrupt and leaves the second
    message queued. *)
Lemma tx_tasklet_drains_witness :
  exists k m' evs,
    mbox_tx_tasklet sim_udelay
      (sim_chan OMAP_MBOX_TYPE2 (sim_queue 16 [1; 2]) (sim_queue 8 []) []) 0
      (sim_machine 1 []) =
      Some (set_txq (sim_chan OMAP_MBOX_TYPE2 (sim_queue 16 [1; 2]) (sim_queue 8 []) [])
              (QLive (with_buf (sim_queue 16 [1; 2]) (msgs_bytes (drop k [1; 2])))), m') /\
    trace m' = trace (sim_machine 1 []) ++ evs /\
    fifo_writes evs = take k [1; 2] /\
    replay_hw sim_udelay (sim_ops OMAP_MBOX_TYPE2) evs (hw (sim_machine 1 [])) =
      Some (hw m') /\
    sim_tx (hw m') = [1] /\
    trace m' = [EvFifoFull false; EvKfifoOut TXQ 4; EvFifoWrite 1; EvFifoFull true;
                EvEnableIrq IRQ_TX].
Proof.
  destruct (proj1 (tx_tasklet_drains sim_udelay
                     (sim_chan OMAP_MBOX_TYPE2 (sim_queue 16 [1; 2]) (sim_queue 8 []) [])
                     (sim_queue 16 [1; 2]) [1; 2] 0 (sim_machine 1 []) eq_refl eq_refl
                     ltac:(repeat constructor; unfold is_u32; lia)))
    as (k & m' & evs & Hrun & _ & Htr & Hrep & _ & Hwr & _).
  exists k, m', evs. split; [exact Hrun|]. split; [exact Htr|]. split; [exact Hwr|].
  split; [exact Hrep|].
  vm_compute in Hrun. injection Hrun as _ <-. split; reflexivity.
Defined.

(** The lock discipline of C8 fails for a send into an idle channel: the poll
    and the FIFO write happen while the transmit queue's lock is held. *)
Lemma send_breaks_lock_discipline :
  exists ret mbox' m',
    omap_mbox_msg_send sim_udelay
      (sim_chan OMAP_MBOX_TYPE2 (sim_queue 16 []) (sim_queue 8 []) []) 7
      (sim_machine 1 []) = Some (ret, mbox', m') /\
    trace m' = [EvLock TXQ; EvFifoFull false; EvFifoWrite 7; EvUnlock TXQ] /\
    ~ lock_discipline (trace m').
Proof.
  eexists _, _, _. split; [reflexivity|]. split; [reflexivity|].
  unfold lock_discipline. cbn [trace]. intros Hforall.
  inversion Hforall as [|e evs Hslow _]. discriminate Hslow.
Qed.

(** C8, as the driver has it, on the same send. *)
Lemma queue_lock_scope_witness :
  exists mid,
    trace (emit (EvUnlock TXQ)
             (mbox_fifo_write (sim_chan OMAP_MBOX_TYPE2 (sim_queue 16 []) (sim_queue 8 []) []) 7
                (emit (EvFifoFull false) (emit (EvLock TXQ) (sim_machine 1 []))))) =
      trace (sim_machine 1 []) ++ EvLock TXQ :: mid ++ [EvUnlock TXQ] /\
    Forall (fun e => is_lock_event e = false) mid.
Proof.
  refine (proj2 (proj2 (proj2 (proj2
            (queue_lock_scope sim_udelay
               (sim_chan OMAP_MBOX_TYPE2 (sim_queue 16 []) (sim_queue 8 []) []) 7 0
               (sim_machine 1 [])))))
            0 (sim_chan OMAP_MBOX_TYPE2 (sim_queue 16 []) (sim_queue 8 []) []) _ _).
  reflexivity.
Defined.

(** C9 fails on suspend: the context of a channel that nobody holds open is
    saved all the same. *)
Lemma suspend_saves_unused_channel :
  saved_channels (trace (mbox_runtime_suspend
                           [sim_mbox "c0" OMAP_MBOX_TYPE2 QNull QNull 0 []]
                           (sim_machine 1 [])).2) = ["c0"] /\
  ~ suspend_saves_channels_in_use [sim_mbox "c0" OMAP_MBOX_TYPE2 QNull QNull 0 []]
      (sim_machine 1 []).
Proof.
  split; [reflexivity|].
  unfold suspend_saves_channels_in_use. vm_compute. discriminate.
Qed.

(** ** The scenarios of the specification, run on the simulated link *)

(** Scenario A: a transmit queue of four messages and room for one message in
    the hardware.  The first of six sends goes to the hardware, the next four
    are queued, the sixth is refused with [-ENOMEM]. *)
Example scenario_transmit_backpressure :
  match send_all sim_udelay
          (sim_chan OMAP_MBOX_TYPE2 (sim_queue 16 []) (sim_queue 8 []) [])
          [1; 2; 3; 4; 5; 6] (sim_machine 1 []) with
  | Some (rets, mbox', m') =>
      rets = [0; 0; 0; 0; 0; - ENOMEM] /\
      txq mbox' = QLive (sim_queue 16 [2; 3; 4; 5]) /\
      sim_tx (hw m') = [1]
  | None => False
  end.
Proof. vm_compute. repeat split; reflexivity. Qed.

(** Scenario B: a receive queue of two messages and five messages in the
    hardware.  The handler buffers two and masks the interrupt at the third;
    the receive task then hands both to the observer and unmasks. *)
Example scenario_receive_backpressure :
  match __mbox_rx_interrupt
          (sim_chan OMAP_MBOX_TYPE2 (sim_queue 16 []) (sim_queue 8 []) [7%nat])
          (sim_machine 1 [1; 2; 3; 4; 5]) with
  | Some (mbox1, m1) =>
      rxq mbox1 = QLive (set_full (sim_queue 8 [1; 2]) true) /\
      sim_rx (hw m1) = [3; 4; 5] /\
      trace m1 = [EvFifoEmpty false; EvFifoRead 1; EvKfifoIn RXQ 4;
                  EvFifoEmpty false; EvFifoRead 2; EvKfifoIn RXQ 4;
                  EvFifoEmpty false; EvDisableIrq IRQ_RX; EvScheduleWork] /\
      match mbox_rx_work mbox1 0 {| hw := hw m1; trace := [] |} with
      | Some (mbox2, m2) =>
          rxq mbox2 = QLive (sim_queue 8 []) /\
          trace m2 = [EvKfifoOut RXQ 4; EvNotify 7 4 1;
                      EvLock RXQ; EvEnableIrq IRQ_RX; EvUnlock RXQ;
                      EvKfifoOut RXQ 4; EvNotify 7 4 2; EvLock RXQ; EvUnlock RXQ]
      | None => False
      end
  | None => False
  end.
Proof. vm_compute. repeat split; reflexivity. Qed.

(** ** The further properties on the simulated link *)

(** The simulated link with both channels closed is in the state the driver
    is in while no open is outstanding. *)
Lemma sim_link_inv : sys_inv [] sim_link.
Proof.
  assert (Hlink : forall nm, link_ok (sim_mbox nm OMAP_MBOX_TYPE2 QNull QNull 0 [])).
  { intros nm. split.
    - eexists. split; [reflexivity|]. intros h. reflexivity.
    - eexists. reflexivity. }
  split; [reflexivity|]. split; [constructor|].
  intros p mbox Hp.
  destruct p as [|[|p]]; cbn in Hp; [injection Hp as <- | injection Hp as <- | discriminate Hp];
    (split; [apply Hlink|]; split; [reflexivity|]; intros H; exfalso; apply H; reflexivity).
Qed.

(** X2 on a TYPE2 channel whose hardware FIFO has room. *)
Lemma poll_type2_never_waits_witness :
  __mbox_poll_for_space sim_udelay sim_busy (sim_machine 1 []) =
  Some (0, emit (EvFifoFull false) (sim_machine 1 [])).
Proof.
  exact (poll_type2_never_waits sim_udelay sim_busy (sim_machine 1 []) eq_refl).
Defined.

(** X3 on a TYPE1 channel whose hardware FIFO never drains. *)
Lemma poll_gives_up_witness :
  exists m' evs,
    __mbox_poll_for_space sim_udelay
      (sim_chan OMAP_MBOX_TYPE1 (sim_queue 16 []) (sim_queue 8 []) [])
      (sim_machine 0 []) = Some (-1, m') /\
    trace m' = trace (sim_machine 0 []) ++ evs /\
    count_events is_fifo_full_event evs = 1000%nat /\
    count_events is_udelay_event evs = 999%nat /\
    hw m' = Nat.iter 999 sim_udelay (hw (sim_machine 0 [])).
Proof.
  apply (poll_gives_up sim_udelay
           (sim_chan OMAP_MBOX_TYPE1 (sim_queue 16 []) (sim_queue 8 []) [])
           (sim_machine 0 []) eq_refl).
  vm_compute. reflexivity.
Defined.

(** X4: a send while a message waits in the queue, although the hardware
    has room. *)
Lemma send_never_overtakes_witness :
  omap_mbox_msg_send sim_udelay sim_busy 7 (sim_machine 1 []) =
  Some (0, set_txq sim_busy (QLive (sim_queue 16 [9; 7])),
        {| hw := hw (sim_machine 1 []);
           trace := [EvLock TXQ; EvKfifoIn TXQ sizeof_msg; EvTaskletSchedule;
                     EvUnlock TXQ] |}).
Proof.
  refine (send_never_overtakes sim_udelay sim_busy (sim_queue 16 [9]) 7 (sim_machine 1 [])
            eq_refl _ _).
  - vm_compute. discriminate.
  - vm_compute. discriminate.
Defined.

(** X5 on the same send. *)
Lemma send_keeps_fifo_order_witness :
  exists ret mbox' m' msgs' evs,
    omap_mbox_msg_send sim_udelay sim_busy 7 (sim_machine 1 []) = Some (ret, mbox', m') /\
    (ret = 0 \/ ret = - ENOMEM) /\
    txq mbox' = QLive (with_buf (sim_queue 16 [9]) (msgs_bytes msgs')) /\
    trace m' = trace (sim_machine 1 []) ++ evs /\
    fifo_writes evs ++ msgs' = [9] ++ (if ret =? 0 then [7] else []) /\
    count_events is_warn_event evs = 0%nat.
Proof.
  exact (send_keeps_fifo_order sim_udelay sim_busy (sim_queue 16 [9]) [9] 7
           (sim_machine 1 []) eq_refl eq_refl).
Defined.

(** X6 on a transmit queue of two messages when the hardware has one free
    slot. *)
Lemma tx_tasklet_keeps_fifo_order_witness :
  exists k m' evs,
    mbox_tx_tasklet sim_udelay
      (sim_chan OMAP_MBOX_TYPE2 (sim_queue 16 [1; 2]) (sim_queue 8 []) []) 0
      (sim_machine 1 []) =
      Some (set_txq (sim_chan OMAP_MBOX_TYPE2 (sim_queue 16 [1; 2]) (sim_queue 8 []) [])
              (QLive (with_buf (sim_queue 16 [1; 2]) (msgs_bytes (drop k [1; 2])))), m') /\
    trace m' = trace (sim_machine 1 []) ++ evs /\
    fifo_writes evs = take k [1; 2] /\
    count_events is_warn_event evs = 0%nat /\
    ((k < length [1; 2])%nat ->
     exists m1,
       m' = omap_mbox_enable_irq
              (sim_chan OMAP_MBOX_TYPE2 (sim_queue 16 [1; 2]) (sim_queue 8 []) [])
              IRQ_TX m1 /\
       fifo_full (ops (sim_chan OMAP_MBOX_TYPE2 (sim_queue 16 [1; 2]) (sim_queue 8 []) []))
         (hw m1) = true) /\
    ((forall h,
        fifo_full (ops (sim_chan OMAP_MBOX_TYPE2 (sim_queue 16 [1; 2]) (sim_queue 8 []) []))
          h = false) ->
     k = length [1; 2]).
Proof.
  refine (tx_tasklet_keeps_fifo_order sim_udelay
            (sim_chan OMAP_MBOX_TYPE2 (sim_queue 16 [1; 2]) (sim_queue 8 []) [])
            (sim_queue 16 [1; 2]) [1; 2] 0 (sim_machine 1 []) eq_refl eq_refl _).
  repeat constructor; unfold is_u32; lia.
Defined.

(** X7 on a receive queue of two messages that holds one, when the hardware
    delivers two. *)
Lemma rx_interrupt_keeps_arrival_order_witness :
  exists mq' m' evs,
    __mbox_rx_interrupt sim_busy (sim_machine 1 [5; 6]) =
      Some (set_rxq sim_busy (QLive mq'), m') /\
    trace m' = trace (sim_machine 1 [5; 6]) ++ evs /\
    fifo mq' =
      {| kfifo_size := kfifo_size (fifo (sim_queue 8 [1]));
         kfifo_buf := kfifo_buf (fifo (sim_queue 8 [1])) ++ msgs_bytes (fifo_reads evs) |} /\
    count_events is_warn_event evs = 0%nat /\
    (0 <= kfifo_avail (fifo (sim_queue 8 [1])) -> 0 <= kfifo_avail (fifo mq')) /\
    (fifo_empty (ops sim_busy) (hw (sim_machine 1 [5; 6])) = true ->
     fifo_reads evs = [] /\ mq' = sim_queue 8 [1]).
Proof.
  exact (rx_interrupt_keeps_arrival_order sim_busy (sim_queue 8 [1]) (sim_machine 1 [5; 6])
           eq_refl).
Defined.

(** X8 on the same receive queue behind the 32-bit register. *)
Lemma rx_path_delivers_in_order_witness :
  exists mbox1 m1 evs1 mbox2 m2 evs2,
    __mbox_rx_interrupt sim_busy_u32 (sim_machine 1 [5; 6]) = Some (mbox1, m1) /\
    trace m1 = trace (sim_machine 1 [5; 6]) ++ evs1 /\
    mbox_rx_work mbox1 0 m1 = Some (mbox2, m2) /\
    trace m2 = trace m1 ++ evs2 /\
    dispatched evs2 = deliveries (notifier sim_busy_u32) ([1] ++ fifo_reads evs1) /\
    rxq mbox2 =
      QLive (set_full (with_buf (sim_queue 8 [1]) [])
               (full (sim_queue 8 [1]) && is_nil ([1] ++ fifo_reads evs1))) /\
    (count_events is_rx_mask_event evs1 <= count_events is_rx_unmask_event evs2)%nat.
Proof.
  refine (rx_path_delivers_in_order sim_busy_u32 (sim_queue 8 [1]) [1] 0
            (sim_machine 1 [5; 6]) eq_refl eq_refl _ _ _).
  - repeat constructor; unfold is_u32; lia.
  - vm_compute. discriminate.
  - intros h. unfold is_u32. cbn [sim_busy_u32 ops sim_ops_u32 fifo_read fst].
    apply Z.mod_pos_bound. lia.
Defined.

(** X9 on the open channel when the hardware has room and two messages
    have arrived. *)
Lemma mbox_interrupt_handled_witness :
  exists mbox' m' evs,
    mbox_interrupt sim_busy (sim_machine 1 [5; 6]) = Some (IRQ_HANDLED, mbox', m') /\
    txq mbox' = QLive (sim_queue 16 [9]) /\
    trace m' = trace (sim_machine 1 [5; 6]) ++ evs /\
    (is_mbox_irq sim_busy IRQ_TX (sim_machine 1 [5; 6]) = false ->
     is_mbox_irq sim_busy IRQ_RX (sim_machine 1 [5; 6]) = false ->
     mbox' = sim_busy /\ m' = sim_machine 1 [5; 6]) /\
    (is_mbox_irq sim_busy IRQ_TX (sim_machine 1 [5; 6]) = true ->
     exists rest, evs = EvDisableIrq IRQ_TX :: rest /\ In EvTaskletSchedule rest).
Proof.
  exact (mbox_interrupt_handled sim_busy (sim_queue 16 [9]) (sim_queue 8 [1])
           (sim_machine 1 [5; 6]) eq_refl eq_refl).
Defined.

(** X10: the first open of a channel when the receive queue cannot be
    allocated. *)
Lemma failed_open_rolls_back_witness :
  exists s' mbox' evs,
    omap_mbox_startup sim_env_nomem 0 sim_link = Some (- ENOMEM, s') /\
    chans s' !! 0%nat = Some mbox' /\
    use_count mbox' = 0 /\
    trace (mach s') = trace (mach sim_link) ++ evs /\
    count_events is_queue_alloc_event evs = count_events is_queue_free_event evs /\
    count_events is_pm_get_event evs = 1%nat /\
    count_events is_pm_put_event evs = 1%nat /\
    mbox_configured s' = int_wrap (mbox_configured sim_link + 1).
Proof.
  eexists.
  destruct (failed_open_rolls_back sim_env_nomem 0%nat sim_link _
              (sim_mbox "c0" OMAP_MBOX_TYPE2 QNull QNull 0 []) (- ENOMEM)
              eq_refl ltac:(vm_compute; split; [discriminate | reflexivity]) eq_refl
              ltac:(vm_compute; discriminate))
    as (mbox' & evs & H).
  exists mbox', evs. split; [reflexivity | exact H].
Defined.

(** X11: a second open of the open channel. *)
Lemma reopen_only_counts_witness :
  omap_mbox_startup sim_env 0 sim_open_link =
  Some (0,
        {| chans := <[0%nat := set_use_count sim_busy (int_wrap (use_count sim_busy + 1))]>
                      (chans sim_open_link);
           mboxes := mboxes sim_open_link;
           mbox_configured := int_wrap (mbox_configured sim_open_link + 1);
           mach := {| hw := hw (mach sim_open_link);
                      trace := trace (mach sim_open_link) ++
                               [EvMutexLock; EvPmGet; EvMutexUnlock] |} |}).
Proof.
  refine (reopen_only_counts sim_env 0%nat sim_open_link sim_busy eq_refl _ _).
  - vm_compute. discriminate.
  - vm_compute. discriminate.
Defined.

(** X12: the only holder of the open channel closes it. *)
Lemma close_frees_on_last_use_witness :
  exists s' mbox' evs,
    omap_mbox_fini 0 sim_open_link = Some s' /\
    chans s' !! 0%nat = Some mbox' /\
    use_count mbox' = use_count sim_busy - 1 /\
    trace (mach s') = trace (mach sim_open_link) ++ evs /\
    count_events is_pm_put_event evs = 1%nat /\
    (use_count sim_busy = 1 ->
     txq mbox' = QFreed /\ rxq mbox' = QFreed /\
     exists rest,
       evs = [EvMutexLock; EvFlushWork; EvFreeIrq (name sim_busy); EvTaskletKill;
              EvQueueFree TXQ; EvQueueFree RXQ] ++ rest /\
       count_events is_queue_free_event rest = 0%nat) /\
    (use_count sim_busy <> 1 ->
     txq mbox' = QLive (sim_queue 16 [9]) /\ rxq mbox' = QLive (sim_queue 8 [1]) /\
     count_events is_queue_free_event evs = 0%nat).
Proof.
  refine (close_frees_on_last_use 0%nat sim_open_link sim_busy (sim_queue 16 [9])
            (sim_queue 8 [1]) eq_refl eq_refl eq_refl _).
  vm_compute. split; reflexivity.
Defined.

(** X13: an open on the link with one channel in use. *)
Lemma open_keeps_queues_with_use_witness :
  exists ret s',
    omap_mbox_startup sim_env 1 sim_open_link = Some (ret, s') /\
    Forall chan_wf (chans s') /\
    length (chans s') = length (chans sim_open_link).
Proof.
  refine (open_keeps_queues_with_use sim_env 1%nat sim_open_link
            (sim_mbox "c1" OMAP_MBOX_TYPE2 QNull QNull 0 []) _ eq_refl _).
  - constructor; [|constructor; [|constructor]];
      (split; [vm_compute; discriminate | split; reflexivity]).
  - vm_compute. reflexivity.
Defined.

(** X14: a close on the same link. *)
Lemma close_keeps_queues_with_use_witness :
  exists s',
    omap_mbox_fini 0 sim_open_link = Some s' /\
    Forall chan_wf (chans s') /\
    length (chans s') = length (chans sim_open_link).
Proof.
  refine (close_keeps_queues_with_use 0%nat sim_open_link sim_busy _ eq_refl _ _).
  - constructor; [|constructor; [|constructor]];
      (split; [vm_compute; discriminate | split; reflexivity]).
  - vm_compute. discriminate.
  - vm_compute. reflexivity.
Defined.

(** X15 on the two channels of the simulated link. *)
Lemma matched_calls_keep_counts_witness :
  exists s' evs,
    run_calls sim_calls sim_link = Some s' /\
    sys_inv (still_open [] sim_calls) s' /\
    trace (mach s') = trace (mach sim_link) ++ evs /\
    count_events is_startup_event evs = activations [] sim_calls /\
    count_events is_shutdown_event evs = deactivations [] sim_calls.
Proof.
  refine (matched_calls_keep_counts sim_calls [] sim_link sim_link_inv eq_refl _).
  vm_compute. reflexivity.
Defined.

(** X16: a name that no channel of the simulated link has. *)
Lemma get_unknown_name_witness :
  omap_mbox_get "c9" (Some 5%nat) sim_env sim_link = Some (inr (- ENOENT), sim_link).
Proof.
  refine (get_unknown_name "c9" (Some 5%nat) sim_env sim_link [0%nat; 1%nat] eq_refl _).
  constructor; [|constructor; [|constructor]];
    (eexists; split; [reflexivity | vm_compute; discriminate]).
Defined.

(** X17: the second channel of the registry, by its name. *)
Lemma get_opens_first_match_witness :
  omap_mbox_get "c1" (Some 5%nat) sim_env sim_link =
    match omap_mbox_startup sim_env 1 sim_link with
    | Some (ret, s1) =>
        if ret =? 0 then Some (inl 1%nat, blocking_notifier_chain_register 1 5 s1)
        else Some (inr (- ENODEV), s1)
    | None => None
    end.
Proof.
  refine (get_opens_first_match "c1" (Some 5%nat) sim_env sim_link [0%nat] [] 1%nat
            (sim_mbox "c1" OMAP_MBOX_TYPE2 QNull QNull 0 []) eq_refl _ eq_refl eq_refl).
  constructor; [|constructor].
  eexists; split; [reflexivity | vm_compute; discriminate].
Defined.

(** X18: the two channels of the open link registered anew. *)
Lemma register_publishes_registry_witness :
  exists s',
    omap_mbox_register (Some [0%nat; 1%nat]) (fun _ => 0) sim_open_link = Some (0, s') /\
    mboxes s' = Some [0%nat; 1%nat] /\
    mbox_configured s' = mbox_configured sim_open_link /\
    hw (mach s') = hw (mach sim_open_link) /\
    trace (mach s') =
      trace (mach sim_open_link) ++
      map (fun nm => EvDeviceCreate nm 0) (chan_names (chans sim_open_link) [0%nat; 1%nat]) ++
      [EvPmRuntimeEnable] /\
    length (chans s') = length (chans sim_open_link) /\
    forall q mbox,
      chans sim_open_link !! q = Some mbox ->
      chans s' !! q =
        Some (if bool_decide (q ∈ [0%nat; 1%nat]) then set_notifier mbox [] else mbox).
Proof.
  refine (register_publishes_registry (fun _ => 0) [0%nat; 1%nat] sim_open_link _ _).
  - constructor; [|constructor; [|constructor]]; vm_compute; lia.
  - intros i _. reflexivity.
Defined.

(** X19: the creation of the second device fails. *)
Lemma register_failure_unwinds_witness :
  exists s',
    omap_mbox_register (Some ([0%nat] ++ 1%nat :: [])) sim_dev_err sim_open_link =
      Some (sim_dev_err (length [0%nat]), s') /\
    mboxes s' = Some ([0%nat] ++ 1%nat :: []) /\
    mbox_configured s' = mbox_configured sim_open_link /\
    hw (mach s') = hw (mach sim_open_link) /\
    trace (mach s') =
      trace (mach sim_open_link) ++
      map (fun nm => EvDeviceCreate nm 0) (chan_names (chans sim_open_link) [0%nat]) ++
      EvDeviceCreate (name (sim_mbox "c1" OMAP_MBOX_TYPE2 QNull QNull 0 []))
        (sim_dev_err (length [0%nat])) ::
      map EvDeviceUnregister (chan_names (chans sim_open_link) (rev [0%nat])).
Proof.
  refine (register_failure_unwinds sim_dev_err [0%nat] [] 1%nat sim_open_link
            (sim_mbox "c1" OMAP_MBOX_TYPE2 QNull QNull 0 []) _ eq_refl _ _).
  - constructor; [|constructor]. vm_compute. lia.
  - intros i Hi. destruct i as [|i]; [reflexivity | cbn [length] in Hi; lia].
  - vm_compute. discriminate.
Defined.

(** X20: the registry of the open link taken down while a channel is open. *)
Lemma unregister_clears_registry_witness :
  exists s',
    omap_mbox_unregister sim_open_link = Some (0, s') /\
    mboxes s' = None /\
    chans s' = chans sim_open_link /\
    mbox_configured s' = mbox_configured sim_open_link /\
    hw (mach s') = hw (mach sim_open_link) /\
    trace (mach s') =
      trace (mach sim_open_link) ++
      map EvDeviceUnregister (chan_names (chans sim_open_link) [0%nat; 1%nat]) ++
      [EvPmRuntimeDisable] /\
    omap_mbox_unregister s' = Some (- EINVAL, s') /\
    forall nm nb env, omap_mbox_get nm nb env s' = Some (inr (- EINVAL), s').
Proof.
  refine (unregister_clears_registry [0%nat; 1%nat] sim_open_link eq_refl _).
  constructor; [|constructor; [|constructor]]; vm_compute; lia.
Defined.

(** X23 for a parameter of ten bytes. *)
Lemma init_kfifo_size_witness :
  exists size',
    omap_mbox_init 0 10 = (0, size') /\
    size' mod sizeof_msg = 0 /\
    sizeof_msg <= size' < 2 ^ 32 /\
    (10 <= 2 ^ 32 - 4 -> 10 <= size' < Z.max 10 1 + sizeof_msg) /\
    (2 ^ 32 - 4 < 10 -> size' = sizeof_msg).
Proof.
  refine (init_kfifo_size 10 _). lia.
Defined.

(** X24: the first open on the simulated link. *)
Lemma open_touches_one_channel_witness :
  exists s',
    omap_mbox_startup sim_env 0 sim_link = Some (0, s') /\
    mboxes s' = mboxes sim_link /\
    length (chans s') = length (chans sim_link) /\
    (forall q, q <> 0%nat -> chans s' !! q = chans sim_link !! q) /\
    exists mbox mbox',
      chans sim_link !! 0%nat = Some mbox /\ chans s' !! 0%nat = Some mbox' /\
      name mbox' = name mbox /\ ops mbox' = ops mbox /\ notifier mbox' = notifier mbox.
Proof.
  eexists. split; [reflexivity|].
  refine (open_touches_one_channel sim_env 0%nat sim_link _ 0 _).
  reflexivity.
Defined.

(** X25: the close of the open channel. *)
Lemma close_touches_one_channel_witness :
  exists s',
    omap_mbox_fini 0 sim_open_link = Some s' /\
    mboxes s' = mboxes sim_open_link /\
    length (chans s') = length (chans sim_open_link) /\
    (forall q, q <> 0%nat -> chans s' !! q = chans sim_open_link !! q) /\
    exists mbox mbox',
      chans sim_open_link !! 0%nat = Some mbox /\ chans s' !! 0%nat = Some mbox' /\
      name mbox' = name mbox /\ ops mbox' = ops mbox /\ notifier mbox' = notifier mbox.
Proof.
  eexists. split; [reflexivity|].
  refine (close_touches_one_channel 0%nat sim_open_link _ _).
  reflexivity.
Defined.

(** X26: the second channel of the simulated link, got and put back. *)
Lemma get_put_round_trip_witness :
  exists s1 s2 mbox1 mbox2,
    omap_mbox_get "c1" (Some 5%nat) sim_env sim_link = Some (inl 1%nat, s1) /\
    chans s1 !! 1%nat = Some mbox1 /\
    use_count mbox1 = use_count (sim_mbox "c1" OMAP_MBOX_TYPE2 QNull QNull 0 []) + 1 /\
    notifier mbox1 = notifier (sim_mbox "c1" OMAP_MBOX_TYPE2 QNull QNull 0 []) ++ [5%nat] /\
    omap_mbox_put 1 (Some 5%nat) s1 = Some s2 /\
    chans s2 !! 1%nat = Some mbox2 /\
    use_count mbox2 = use_count (sim_mbox "c1" OMAP_MBOX_TYPE2 QNull QNull 0 []) /\
    notifier mbox2 = notifier (sim_mbox "c1" OMAP_MBOX_TYPE2 QNull QNull 0 []) /\
    mbox_configured s2 = mbox_configured sim_link /\
    mboxes s2 = mboxes sim_link /\
    (forall q, q <> 1%nat -> chans s2 !! q = chans sim_link !! q) /\
    sys_inv [] s2.
Proof.
  refine (get_put_round_trip "c1" 5%nat sim_env sim_link [] [0%nat] [] 1%nat
            (sim_mbox "c1" OMAP_MBOX_TYPE2 QNull QNull 0 [])
            sim_link_inv eq_refl _ eq_refl eq_refl _ eq_refl _).
  - constructor; [|constructor].
    eexists; split; [reflexivity | vm_compute; discriminate].
  - intros Hin. inversion Hin.
  - vm_compute. reflexivity.
Defined.
